(** * Bridge-Battle asset pipeline: the transparency-bounds cropper

    A shallow embedding of [scripts/extract-ui-elements.py]: the
    alpha-threshold bounding box ([autocrop_transparency]), the padded
    per-region crop of [find_elements], the region table of
    [define_ui_regions] and the metadata record built by [main].

    Pillow and NumPy are modelled by the few operations the script calls:
    an image is its mode, its size and its rows of pixels; [np.array]
    yields these rows; [Image.crop] copies a box and fills what lies
    outside the source with zero bands. The file system is what the paths
    the script uses name, with the answers of [Image.open], [os.makedirs]
    and of opening a file for writing. Python exceptions are values of the
    [result] type; the lines printed are left out. *)

From Stdlib Require Import String Ascii ZArith List Bool Lia SpecFloat.
Import ListNotations.
Local Open Scope Z_scope.

(** ** Exceptions and the error monad *)

Inductive exn : Set :=
| IndexError
| ValueError
| OverflowError
| FileNotFoundError
| FileExistsError
| NotADirectoryError
| IsADirectoryError
| PermissionError
| OSError
| UnidentifiedImageError
| DecompressionBombError.

Inductive result (A : Type) : Type :=
| Ok (a : A)
| Raise (e : exn).

Arguments Ok {A} a.
Arguments Raise {A} e.

Definition bind {A B : Type} (m : result A) (k : A -> result B) : result B :=
  match m with
  | Ok a => k a
  | Raise e => Raise e
  end.

Notation "x <- m ;; k" := (bind m (fun x => k))
  (at level 61, m at next level, right associativity).
Notation "' p <- m ;; k" := (bind m (fun x => match x with p => k end))
  (at level 61, p pattern, m at next level, right associativity).

(** ** Images *)

(** The Pillow modes the model covers; [bands] is the length of a pixel. *)
Inductive mode_t : Set := L | LA | RGB | RGBA.

Definition bands (m : mode_t) : nat :=
  match m with L => 1 | LA => 2 | RGB => 3 | RGBA => 4 end%nat.

Definition mode_eqb (a b : mode_t) : bool :=
  match a, b with
  | L, L | LA, LA | RGB, RGB | RGBA, RGBA => true
  | _, _ => false
  end.

(** A pixel is the list of its band values, each in 0..255. *)
Definition pixel := list Z.

(** [pixels] is row-major, as [np.array(img)] has it: [pixels[y][x]]. *)
Record image : Type := mkImage {
  mode : mode_t;
  width : Z;
  height : Z;
  pixels : list (list pixel)
}.

Definition band_ok (v : Z) : bool := (0 <=? v) && (v <=? 255).

Definition pixel_ok (m : mode_t) (p : pixel) : bool :=
  Nat.eqb (length p) (bands m) && forallb band_ok p.

Definition row_ok (m : mode_t) (w : Z) (row : list pixel) : bool :=
  (Z.of_nat (length row) =? w) && forallb (pixel_ok m) row.

(** The invariant of a Pillow image: sizes are C ints, the buffer has
    [height] rows of [width] pixels of [bands mode] bytes. *)
Definition wf_image (img : image) : bool :=
  (0 <=? width img) && (width img <? 2 ^ 31) &&
  (0 <=? height img) && (height img <? 2 ^ 31) &&
  (Z.of_nat (length (pixels img)) =? height img) &&
  forallb (row_ok (mode img) (width img)) (pixels img).

(** ** NumPy primitives *)

(** [range(lo, hi)] as a list. *)
Definition zrange (lo hi : Z) : list Z :=
  map (fun k => lo + Z.of_nat k) (seq 0 (Z.to_nat (hi - lo))).

(** [img_array[:, :, 3]]: indexing band 3 needs a fourth band. *)
Definition alpha_of (p : pixel) : Z := nth 3 p 0.

Definition alpha_channel (img : image) : result (list (list Z)) :=
  if (3 <? bands (mode img))%nat
  then Ok (map (map alpha_of) (pixels img))
  else Raise IndexError.

(** [alpha > threshold] *)
Definition gt_mask (alpha : list (list Z)) (threshold : Z) : list (list bool) :=
  map (map (fun a => threshold <? a)) alpha.

(** [np.any(v)] on a vector. *)
Definition np_any (v : list bool) : bool := existsb (fun b => b) v.

(** [np.any(mask, axis=1)]: one entry per row. *)
Definition np_any_axis1 (mask : list (list bool)) : list bool :=
  map np_any mask.

(** [np.any(mask, axis=0)]: one entry per column of a [_ x ncols] array. *)
Definition np_any_axis0 (ncols : nat) (mask : list (list bool)) : list bool :=
  map (fun j => existsb (fun row => nth j row false) mask) (seq 0 ncols).

(** [np.where(v)[0]]: the indices of the true entries, ascending. *)
Fixpoint where_from (i : Z) (v : list bool) : list Z :=
  match v with
  | [] => []
  | b :: t => if b then i :: where_from (i + 1) t else where_from (i + 1) t
  end.

Definition np_where (v : list bool) : list Z := where_from 0 v.

(** [idx[[0, -1]]]: first and last entry; an empty vector has neither. *)
Definition first_last (idx : list Z) : result (Z * Z) :=
  match idx with
  | [] => Raise IndexError
  | i :: _ => Ok (i, last idx i)
  end.

(** ** The bounding box of the visible content

    Lines 99-109 of [autocrop_transparency], which lines 32-48 of
    [find_elements] repeat with the threshold 10. [None] is the branch
    [if not np.any(rows) or not np.any(cols)]; otherwise the result is
    [(row_min, row_max, col_min, col_max)]. *)
Definition content_bounds (img : image) (threshold : Z)
  : result (option (Z * Z * Z * Z)) :=
  alpha <- alpha_channel img ;;
  let mask := gt_mask alpha threshold in
  let rows := np_any_axis1 mask in
  let cols := np_any_axis0 (Z.to_nat (width img)) mask in
  if negb (np_any rows) || negb (np_any cols) then Ok None
  else
    '(row_min, row_max) <- first_last (np_where rows) ;;
    '(col_min, col_max) <- first_last (np_where cols) ;;
    Ok (Some (row_min, row_max, col_min, col_max)).

(** ** Pillow primitives *)

Definition zero_pixel (m : mode_t) : pixel := repeat 0 (bands m).

(** The pixel a crop copies from [(x, y)]: zero bands outside the source. *)
Definition pixel_at (img : image) (x y : Z) : pixel :=
  if (0 <=? x) && (x <? width img) && (0 <=? y) && (y <? height img)
  then nth (Z.to_nat x) (nth (Z.to_nat y) (pixels img) []) (zero_pixel (mode img))
  else zero_pixel (mode img).

(** The copy of the box: [x1 - x0] by [y1 - y0] pixels. *)
Definition cropped (img : image) (x0 y0 x1 y1 : Z) : image :=
  {| mode := mode img;
     width := x1 - x0;
     height := y1 - y0;
     pixels := map (fun y => map (fun x => pixel_at img x y) (zrange x0 x1))
                   (zrange y0 y1) |}.

(** [img.crop((x0, y0, x1, y1))], the box being left, upper, right, lower:
    the end is exclusive, and a right edge left of the left one (or a lower
    edge above the upper one) is a [ValueError]. *)
Definition crop (img : image) (box : Z * Z * Z * Z) : result image :=
  let '(x0, y0, x1, y1) := box in
  if x1 <? x0 then Raise ValueError
  else if y1 <? y0 then Raise ValueError
  else Ok (cropped img x0 y0 x1 y1).

(** ** [autocrop_transparency] *)

Definition autocrop_transparency (img : image) (threshold : Z) : result image :=
  if negb (mode_eqb (mode img) RGBA) then Ok img
  else
    b <- content_bounds img threshold ;;
    match b with
    | None => Ok img
    | Some (row_min, row_max, col_min, col_max) =>
        crop img (col_min, row_min, col_max + 1, row_max + 1)
    end.

(** ** Python floats

    [int(w*0.02)]: [w] goes to the nearest binary64, the product is rounded
    to nearest-even, [int] truncates toward zero. The arithmetic is the
    IEEE 754 specification of the standard library at precision 53. *)

Definition py_float (n : Z) : spec_float := binary_normalize 53 1024 n 0 false.

Definition py_fmul (a b : spec_float) : spec_float := SFmul 53 1024 a b.

Definition py_int (f : spec_float) : result Z :=
  match f with
  | S754_zero _ => Ok 0
  | S754_infinity _ => Raise OverflowError
  | S754_nan => Raise ValueError
  | S754_finite s m e =>
      Ok (cond_Zopp s (if 0 <=? e then Zpos m * 2 ^ e else Zpos m / 2 ^ (- e)))
  end.

(** A literal with two decimals, [0.nn], denotes the binary64 nearest to
    [nn/100], which is what the correctly rounded division returns. *)
Definition hundredths (nn : Z) : spec_float :=
  SFdiv 53 1024 (py_float nn) (py_float 100).

(** [int(n * c)] *)
Definition scale (n : Z) (c : spec_float) : result Z :=
  py_int (py_fmul (py_float n) c).

(** ** [define_ui_regions] *)

Record element : Type := mkElement {
  name : string;
  box : Z * Z * Z * Z          (* [x, y, w, h] *)
}.

(** One line of the table:
    [{'name': nm, 'box': [int(w*cx), int(h*cy), int(w*cw), int(h*ch)]}]. *)
Definition region (nm : string) (cx cy cw ch : Z) (w h : Z) : result element :=
  x <- scale w (hundredths cx) ;;
  y <- scale h (hundredths cy) ;;
  bw <- scale w (hundredths cw) ;;
  bh <- scale h (hundredths ch) ;;
  Ok {| name := nm; box := (x, y, bw, bh) |}.

Fixpoint sequence {A : Type} (l : list (result A)) : result (list A) :=
  match l with
  | [] => Ok []
  | m :: t => a <- m ;; r <- sequence t ;; Ok (a :: r)
  end.

Definition define_ui_regions (width height : Z) : result (list element) :=
  let w := width in
  let h := height in
  sequence
    [ (* Victory panel (left side) *)
      region "panel_victory" 02 05 15 90 w h;
      (* Stars (center-left area) *)
      region "star_filled_01" 18 05 05 15 w h;
      region "star_filled_02" 24 05 05 15 w h;
      region "star_filled_03" 30 05 05 15 w h;
      region "star_empty_01" 18 25 05 15 w h;
      region "star_empty_02" 24 25 05 15 w h;
      region "star_empty_03" 30 25 05 15 w h;
      region "star_empty_04" 18 45 05 15 w h;
      region "star_empty_05" 24 45 05 15 w h;
      region "star_empty_06" 30 45 05 15 w h;
      (* Resource icons (center area) *)
      region "icon_heart" 37 05 04 12 w h;
      region "counter_timer" 42 05 08 12 w h;
      region "icon_gem" 51 05 04 12 w h;
      region "icon_coin" 37 20 04 12 w h;
      region "counter_coins" 42 20 08 12 w h;
      region "badge_level_24" 37 65 04 15 w h;
      region "badge_level_25" 42 65 04 15 w h;
      region "badge_level_26" 47 65 04 15 w h;
      (* Defeat panel (center-right) *)
      region "panel_defeat" 58 05 15 90 w h;
      (* Menu buttons (right side) *)
      region "button_new_game" 75 05 12 12 w h;
      region "button_resume" 75 20 12 12 w h;
      region "button_settings" 75 35 12 12 w h;
      region "button_shop" 75 50 12 12 w h;
      region "button_exit" 75 65 12 12 w h;
      (* Grass decorations *)
      region "decoration_grass_left" 02 85 08 12 w h;
      region "decoration_grass_right" 92 85 08 12 w h ]%string.

(** ** [find_elements] *)

(** [img.convert('RGBA')] on the modes of the model: grey is copied to the
    three colours, a missing alpha band is filled with 255. An image here
    has no [info['transparency']] colour key, which [convert] would turn
    into transparent pixels. *)
Definition to_rgba (m : mode_t) (p : pixel) : pixel :=
  match m with
  | L => let l := nth 0 p 0 in [l; l; l; 255]
  | LA => let l := nth 0 p 0 in [l; l; l; nth 1 p 0]
  | RGB => [nth 0 p 0; nth 1 p 0; nth 2 p 0; 255]
  | RGBA => p
  end.

Definition convert_RGBA (img : image) : image :=
  {| mode := RGBA;
     width := width img;
     height := height img;
     pixels := map (map (to_rgba (mode img))) (pixels img) |}.

(** Lines 64-67: the box grown by [padding] and clamped to the image. *)
Definition padded_box (img : image) (b : Z * Z * Z * Z) (padding : Z)
  : Z * Z * Z * Z :=
  let '(x, y, w, h) := b in
  let x1 := Z.max 0 (x - padding) in
  let y1 := Z.max 0 (y - padding) in
  let x2 := Z.min (width img) (x + w + padding) in
  let y2 := Z.min (height img) (y + h + padding) in
  (x1, y1, x2, y2).

(** Lines 63-70: [img.crop((x1, y1, x2, y2))]. *)
Definition crop_with_padding (img : image) (b : Z * Z * Z * Z) (padding : Z)
  : result image :=
  crop img (padded_box img b padding).

Fixpoint ends_with_slash (s : string) : bool :=
  match s with
  | EmptyString => false
  | String c EmptyString => Ascii.eqb c "/"
  | String _ t => ends_with_slash t
  end.

(** [os.path.join(a, b)] on POSIX. *)
Definition path_join (a b : string) : string :=
  if String.prefix "/" b then b
  else if String.eqb a "" || ends_with_slash a then a ++ b
  else a ++ "/" ++ b.

(** One record of the list [find_elements] returns. *)
Record extracted_t : Type := mkExtracted {
  ex_name : string;
  original_box : Z * Z * Z * Z;
  cropped_size : Z * Z;
  file : string
}.

(** *** The file system

    [stat] tells what a path names: nothing, a directory, a file that
    [Image.open] decodes to an image, or another file. [unreadable] and
    [refuses] are the errors, if any, with which the system turns down
    reading a path, and creating it or writing to it, for a reason [stat]
    does not show: permissions, a name it cannot take, a parent that is no
    directory, a full disk. *)
Inductive node : Type :=
| Directory
| ImageFile (img : image)
| OtherFile.

Record fs_t : Type := mkFs {
  stat : string -> option node;
  unreadable : string -> option exn;
  refuses : string -> option exn
}.

(** The file system once the directory [d] has been made. *)
Definition mkdir (fs : fs_t) (d : string) : fs_t :=
  {| stat := fun p => if String.eqb p d then Some Directory else stat fs p;
     unreadable := unreadable fs;
     refuses := refuses fs |}.

(** [os.makedirs(d, exist_ok=True)]: the empty path is never made; a
    directory that is there is left alone; a file in its place is an
    error; otherwise the directory is made, with its parents, unless the
    system refuses. *)
Definition os_makedirs (fs : fs_t) (d : string) : result fs_t :=
  if String.eqb d "" then Raise FileNotFoundError
  else
    match stat fs d with
    | Some Directory => Ok fs
    | Some _ => Raise FileExistsError
    | None =>
        match refuses fs d with
        | Some e => Raise e
        | None => Ok (mkdir fs d)
        end
    end.

(** Opening for writing the file [path = os.path.join(d, file)], [file]
    being a plain file name: as [open(path, 'w')] and as [Image.save] do.
    The file lies in the directory [d] (the current one when [d] is
    empty), which has to be there; no directory is made on the way. *)
Definition open_w (fs : fs_t) (d path : string) : result unit :=
  match refuses fs path with
  | Some e => Raise e
  | None =>
      match (if String.eqb d "" then Some Directory else stat fs d) with
      | None => Raise FileNotFoundError
      | Some Directory =>
          match stat fs path with
          | Some Directory => Raise IsADirectoryError
          | _ => Ok tt
          end
      | Some _ => Raise NotADirectoryError
      end
  end.

(** The files written by [element_img.save], in order. The script never
    opens one of them again, so they are kept apart from [stat]. *)
Definition saved_t := list (string * image).

(** [img.save(path, 'PNG', optimize=True)], for a [path] in the directory
    [d]: the file is opened first, then the encoder refuses an image
    without pixels ("tile cannot extend outside image"). *)
Definition image_save (fs : fs_t) (saved : saved_t) (d path : string)
    (img : image) : result saved_t :=
  _ <- open_w fs d path ;;
  if (width img <=? 0) || (height img <=? 0) then Raise ValueError
  else Ok (saved ++ [(path, img)]).

(** The [for] loop of lines 59-86, threading [extracted] and the saves. *)
Fixpoint extract_loop (fs : fs_t) (img : image) (output_dir : string)
    (padding : Z) (elements : list element) (extracted : list extracted_t)
    (saved : saved_t)
  : result (list extracted_t * saved_t) :=
  match elements with
  | [] => Ok (extracted, saved)
  | e :: rest =>
      element_img <- crop_with_padding img (box e) padding ;;
      element_img <- autocrop_transparency element_img 10 ;;
      let output_path := path_join output_dir (name e ++ ".png") in
      saved <- image_save fs saved output_dir output_path element_img ;;
      extract_loop fs img output_dir padding rest
        (extracted ++ [ {| ex_name := name e;
                           original_box := box e;
                           cropped_size := (width element_img, height element_img);
                           file := output_path |} ])
        saved
  end.

(** [Image.MAX_IMAGE_PIXELS], that is [int(1024 * 1024 * 1024 // 4 // 3)]. *)
Definition MAX_IMAGE_PIXELS : Z := 1024 * 1024 * 1024 / 4 / 3.

(** [Image.open], followed by the load of [np.array]: an image of more
    than twice [MAX_IMAGE_PIXELS] pixels is turned down. *)
Definition image_open (fs : fs_t) (path : string) : result image :=
  match unreadable fs path with
  | Some e => Raise e
  | None =>
      match stat fs path with
      | None => Raise FileNotFoundError
      | Some Directory => Raise IsADirectoryError
      | Some OtherFile => Raise UnidentifiedImageError
      | Some (ImageFile img) =>
          if 2 * MAX_IMAGE_PIXELS <? Z.max 1 (width img) * Z.max 1 (height img)
          then Raise DecompressionBombError
          else Ok img
      end
  end.

(** Lines 26-29: the loader's conversion. *)
Definition ensure_RGBA (img : image) : image :=
  if negb (mode_eqb (mode img) RGBA) then convert_RGBA img else img.

(** The result is the list returned, the files saved and the file system
    as the call leaves it: [os.makedirs] (line 57) is reached only past
    the early return of line 44. *)
Definition find_elements (fs : fs_t) (image_path output_dir : string)
    (padding : Z)
  : result (list extracted_t * saved_t * fs_t) :=
  img <- image_open fs image_path ;;
  let img := ensure_RGBA img in
  b <- content_bounds img 10 ;;
  match b with
  | None => Ok ([], [], fs)
  | Some _ =>
      elements <- define_ui_regions (width img) (height img) ;;
      fs <- os_makedirs fs output_dir ;;
      '(extracted, saved) <-
        extract_loop fs img output_dir padding elements [] [] ;;
      Ok (extracted, saved, fs)
  end.

(** ** [main] *)

Record metadata_t : Type := mkMetadata {
  source : string;
  elements : list extracted_t;
  total : Z
}.

Definition default_input_path : string :=
  "processed-assets/ui-extracted/ui-master-highres.png".

Definition default_output_dir : string := "processed-assets/ui-elements".

(** [argv] is [sys.argv]; the result is the dictionary that [json.dump]
    has written to [metadata.json], together with the images saved. *)
Definition main (fs : fs_t) (argv : list string)
  : result (metadata_t * saved_t) :=
  let input_path := default_input_path in
  let output_dir := default_output_dir in
  let input_path := if (1 <? length argv)%nat then nth 1 argv input_path else input_path in
  let output_dir := if (2 <? length argv)%nat then nth 2 argv output_dir else output_dir in
  '(extracted, saved, fs) <- find_elements fs input_path output_dir 20 ;;
  let metadata := {| source := input_path;
                     elements := extracted;
                     total := Z.of_nat (length extracted) |} in
  let metadata_path := path_join output_dir "metadata.json" in
  _ <- open_w fs output_dir metadata_path ;;
  Ok (metadata, saved).

(** ** Vocabulary of the specification *)

(** The opacity of the pixel in column [x] of row [y]. *)
Definition alpha_at (img : image) (x y : Z) : Z :=
  alpha_of (nth (Z.to_nat x) (nth (Z.to_nat y) (pixels img) []) []).

(** A pixel of the image whose opacity exceeds the threshold. *)
Definition visible (img : image) (threshold x y : Z) : Prop :=
  0 <= x < width img /\ 0 <= y < height img /\ threshold < alpha_at img x y.

Definition row_has_content (img : image) (threshold y : Z) : Prop :=
  exists x, visible img threshold x y.

Definition col_has_content (img : image) (threshold x : Z) : Prop :=
  exists y, visible img threshold x y.


(** The array [alpha > threshold] of an RGBA image. *)
Definition mask_of (img : image) (t : Z) : list (list bool) :=
  gt_mask (map (map alpha_of) (pixels img)) t.

(** The content box as the code passes it to [crop] (exclusive end), as
    inclusive corners, and as [x, y, width, height]. *)
Definition crop_box (b : Z * Z * Z * Z) : Z * Z * Z * Z :=
  let '(row_min, row_max, col_min, col_max) := b in
  (col_min, row_min, col_max + 1, row_max + 1).

Definition corners_inclusive (b : Z * Z * Z * Z) : Z * Z * Z * Z :=
  let '(row_min, row_max, col_min, col_max) := b in
  (col_min, row_min, col_max, row_max).

Definition xywh (b : Z * Z * Z * Z) : Z * Z * Z * Z :=
  let '(row_min, row_max, col_min, col_max) := b in
  (col_min, row_min, col_max - col_min + 1, row_max - row_min + 1).

(** A box [x, y, w, h] of the region table lies between 0 and the size. *)
Definition box_within (w h : Z) (b : Z * Z * Z * Z) : Prop :=
  let '(x, y, bw, bh) := b in
  0 <= x <= w /\ 0 <= y <= h /\ 0 <= bw <= w /\ 0 <= bh <= h.

(** A positive binary64 below one with a full mantissa: [m * 2^e] with
    [m] of 53 bits and [m * (1 + 2^-52) <= 2^-e]. *)
Definition proper_fraction (c : spec_float) : bool :=
  match c with
  | S754_finite false m e =>
      (Zpos (digits2_pos m) =? 53) && (-64 <=? e) && (e <=? 0) &&
      (Zpos m * (2 ^ 52 + 1) <=? 2 ^ 52 * 2 ^ (- e))
  | _ => false
  end.

(** ** Sample sheets *)

(** A [w x h] RGBA sheet, transparent but for an opaque white square on the
    columns and rows [lo <= _ < hi]. *)
Definition square_image (w h lo hi : Z) : image :=
  {| mode := RGBA;
     width := w;
     height := h;
     pixels :=
       map (fun y =>
              map (fun x =>
                     if (lo <=? x) && (x <? hi) && (lo <=? y) && (y <? hi)
                     then [255; 255; 255; 255] else [0; 0; 0; 0])
                  (zrange 0 w))
           (zrange 0 h) |}.

(** A fully transparent sheet. *)
Definition blank_image (w h : Z) : image := square_image w h 0 0.

(** An RGB image of one grey level. *)
Definition grey_rgb_image (w h : Z) : image :=
  {| mode := RGB;
     width := w;
     height := h;
     pixels := map (fun _ => map (fun _ => [128; 128; 128]) (zrange 0 w))
                   (zrange 0 h) |}.

(** A file system that holds one image, in the current directory, and
    refuses nothing. *)
Definition single_file (path : string) (img : image) : fs_t :=
  {| stat := fun p => if String.eqb p path then Some (ImageFile img) else None;
     unreadable := fun _ => None;
     refuses := fun _ => None |}.

(** A one-row sheet with four opacities. *)
Definition strip_image : image :=
  {| mode := RGBA;
     width := 4;
     height := 1;
     pixels := [[[0; 0; 0; 0]; [9; 9; 9; 50]; [9; 9; 9; 200]; [9; 9; 9; 20]]] |}.

(** The record appended and the file written for the element [e] whose
    cropped image is [c] (lines 76-86). *)
Definition entry_of (output_dir : string) (e : element) (c : image)
  : extracted_t :=
  {| ex_name := name e;
     original_box := box e;
     cropped_size := (width c, height c);
     file := path_join output_dir (name e ++ ".png") |}.

Definition saved_of (output_dir : string) (e : element) (c : image)
  : string * image :=
  (path_join output_dir (name e ++ ".png"), c).

(** The names of the region table, in its order. *)
Definition region_names : list string :=
  [ "panel_victory";
    "star_filled_01"; "star_filled_02"; "star_filled_03";
    "star_empty_01"; "star_empty_02"; "star_empty_03";
    "star_empty_04"; "star_empty_05"; "star_empty_06";
    "icon_heart"; "counter_timer"; "icon_gem";
    "icon_coin"; "counter_coins";
    "badge_level_24"; "badge_level_25"; "badge_level_26";
    "panel_defeat";
    "button_new_game"; "button_resume"; "button_settings"; "button_shop";
    "button_exit";
    "decoration_grass_left"; "decoration_grass_right" ]%string.

(** The file system lets a run of [find_elements] make the output
    directory, which leaves it as [fs'], and open each of the 26 files. *)
Definition fs_accepts (fs : fs_t) (output_dir : string) (fs' : fs_t) : Prop :=
  os_makedirs fs output_dir = Ok fs' /\
  forall n, In n region_names ->
            open_w fs' output_dir (path_join output_dir (n ++ ".png")) = Ok tt.

(** [e] is an error of the file system in a run of [find_elements]: the
    one [os.makedirs] raises, or the one met on opening one of the 26
    files. *)
Definition fs_refuses (fs : fs_t) (output_dir : string) (e : exn) : Prop :=
  os_makedirs fs output_dir = Raise e \/
  exists fs' n,
    os_makedirs fs output_dir = Ok fs' /\ In n region_names /\
    open_w fs' output_dir (path_join output_dir (n ++ ".png")) = Raise e.

(** A box [x, y, w, h] that lies inside a [width x height] image. *)
Definition box_inside (width height : Z) (b : Z * Z * Z * Z) : Prop :=
  let '(x, y, bw, bh) := b in
  0 <= x /\ 0 <= y /\ 0 <= bw /\ 0 <= bh /\
  x + bw <= width /\ y + bh <= height.

(** Whether a list of strings has no repetition. *)
Fixpoint nodupb (l : list string) : bool :=
  match l with
  | [] => true
  | a :: t => negb (existsb (String.eqb a) t) && nodupb t
  end.

(** The directory part [os.path.join] puts before a relative name. *)
Definition dir_prefix (a : string) : string :=
  if String.eqb a "" || ends_with_slash a then a else (a ++ "/")%string.

(** The two-decimal literals of the region table, as hundredths. *)
Definition table_hundredths : list Z :=
  [2; 4; 5; 8; 12; 15; 18; 20; 24; 25; 30; 35; 37; 42; 45; 47; 50; 51; 58;
   65; 75; 85; 90; 92].

(** [c] is a binary64 below one, with a full mantissa, within half a unit
    of its last place of [nn / 100]. *)
Definition accurate_fraction (nn : Z) (c : spec_float) : bool :=
  match c with
  | S754_finite false m e =>
      (Zpos (digits2_pos m) =? 53) && (-64 <=? e) && (e <=? -53) &&
      (0 <=? nn) && (nn <=? 100) &&
      (Z.abs (100 * Zpos m - nn * 2 ^ (- e)) <=? 50)
  | _ => false
  end.

(** The literal [0.nn] of the table is a proper and accurate fraction. *)
Definition table_fraction (nn : Z) : bool :=
  proper_fraction (hundredths nn) && accurate_fraction nn (hundredths nn).

(** ** [scripts/extract-ui-sprites.py]: [categorize_sprite_name] *)

(** [UI_CATEGORIES], in the order the dictionary is written (the order
    [.items()] iterates in). *)
Definition UI_CATEGORIES : list (string * list string) :=
  [ ("buttons", ["button"; "btn"]);
    ("panels", ["panel"; "popup"; "dialog"; "menu"]);
    ("icons", ["icon"; "coin"; "heart"; "gem"; "star"]);
    ("badges", ["badge"; "level"]);
    ("hud", ["score"; "timer"; "counter"; "gui"]);
    ("text", ["text"; "label"; "title"; "logo"]) ]%string.

(** [str.lower] on a name of ASCII characters: [A-Z] become [a-z]. *)
Definition lower_char (c : ascii) : ascii :=
  let n := nat_of_ascii c in
  if (65 <=? n)%nat && (n <=? 90)%nat then ascii_of_nat (n + 32) else c.

Fixpoint lower (s : string) : string :=
  match s with
  | EmptyString => EmptyString
  | String c t => String (lower_char c) (lower t)
  end.

Fixpoint is_ascii (s : string) : bool :=
  match s with
  | EmptyString => true
  | String c t => (nat_of_ascii c <? 128)%nat && is_ascii t
  end.

(** [keyword in s] *)
Fixpoint contains (keyword s : string) : bool :=
  String.prefix keyword s ||
  match s with
  | EmptyString => false
  | String _ t => contains keyword t
  end.

(** The two nested [for] loops: the first category, in table order, one
    of whose keywords occurs. *)
Fixpoint first_category (categories : list (string * list string))
    (name_lower : string) : option string :=
  match categories with
  | [] => None
  | (category, keywords) :: rest =>
      if existsb (fun keyword => contains keyword name_lower) keywords
      then Some category
      else first_category rest name_lower
  end.

Definition categorize_sprite_name (name : string) : string :=
  let name_lower := lower name in
  match first_category UI_CATEGORIES name_lower with
  | Some category => category
  | None => "misc"%string
  end.

(** [keyword] occurs in [s] as a substring. *)
Definition occurs (keyword s : string) : Prop :=
  exists before after, s = (before ++ keyword ++ after)%string.

(** * Properties *)

(** ** Lists and index vectors *)

Lemma zrange_length lo hi : length (zrange lo hi) = Z.to_nat (hi - lo).
Proof. unfold zrange. now rewrite length_map, length_seq. Qed.

Lemma zrange_nth lo hi n d :
  (n < Z.to_nat (hi - lo))%nat -> nth n (zrange lo hi) d = lo + Z.of_nat n.
Proof.
  intros Hn. unfold zrange.
  rewrite nth_indep with (d' := lo + Z.of_nat 0)
    by now rewrite length_map, length_seq.
  rewrite map_nth with (f := fun k => lo + Z.of_nat k).
  now rewrite seq_nth.
Qed.

Lemma nth_map_in {A B} (f : A -> B) l n d1 d2 :
  (n < length l)%nat -> nth n (map f l) d1 = f (nth n l d2).
Proof.
  intros Hn. rewrite nth_indep with (d' := f d2) by now rewrite length_map.
  apply map_nth.
Qed.

Lemma np_any_true v :
  np_any v = true <-> exists n, (n < length v)%nat /\ nth n v false = true.
Proof.
  unfold np_any. rewrite existsb_exists. split.
  - intros (b & Hin & ->). destruct (In_nth _ _ false Hin) as (n & Hn & Hb).
    now exists n.
  - intros (n & Hn & Hb). exists true. split; [|reflexivity].
    rewrite <- Hb. now apply nth_In.
Qed.

Lemma where_from_lb v : forall k j, In j (where_from k v) -> k <= j.
Proof.
  induction v as [|b v IH]; intros k j Hin; simpl in Hin; [easy|].
  destruct b; [destruct Hin as [<-|Hin]|]; try lia;
    apply IH in Hin; lia.
Qed.

Lemma where_from_sound v : forall k j,
  In j (where_from k v) ->
  (Z.to_nat (j - k) < length v)%nat /\ nth (Z.to_nat (j - k)) v false = true.
Proof.
  induction v as [|b v IH]; intros k j Hin; simpl in Hin; [easy|].
  assert (Htail : In j (where_from (k + 1) v) ->
                  (Z.to_nat (j - k) < length (b :: v))%nat /\
                  nth (Z.to_nat (j - k)) (b :: v) false = true).
  { intros H. pose proof (where_from_lb _ _ _ H) as Hlb.
    destruct (IH _ _ H) as [Hlen Hnth].
    replace (Z.to_nat (j - k)) with (S (Z.to_nat (j - (k + 1)))) by lia.
    simpl. split; [lia|exact Hnth]. }
  destruct b; [destruct Hin as [<-|Hin]|]; auto.
  rewrite Z.sub_diag. simpl. split; [lia|reflexivity].
Qed.

Lemma where_from_complete v : forall k n,
  (n < length v)%nat -> nth n v false = true ->
  In (k + Z.of_nat n) (where_from k v).
Proof.
  induction v as [|b v IH]; intros k n Hn Hb; simpl in *; [lia|].
  destruct n as [|n].
  - subst b. left. lia.
  - replace (k + Z.of_nat (S n)) with (k + 1 + Z.of_nat n) by lia.
    destruct b; [right|]; apply IH; auto; lia.
Qed.

Lemma last_In {A} (l : list A) d : l <> [] -> In (last l d) l.
Proof.
  induction l as [|a l IH]; [easy|]. intros _.
  destruct l as [|b l]; [now left|].
  right. apply IH. discriminate.
Qed.

Lemma where_from_hd_min v : forall k i r j,
  where_from k v = i :: r -> In j (where_from k v) -> i <= j.
Proof.
  induction v as [|b v IH]; intros k i r j Heq Hin; simpl in *; [easy|].
  destruct b.
  - injection Heq as <- <-. destruct Hin as [<-|Hin]; [lia|].
    apply where_from_lb in Hin. lia.
  - eapply IH; eauto.
Qed.

Lemma where_from_last_max v : forall k j d,
  In j (where_from k v) -> j <= last (where_from k v) d.
Proof.
  induction v as [|b v IH]; intros k j d Hin; simpl in *; [easy|].
  destruct b; [|now apply IH].
  pose proof (IH (k + 1)) as IHk. pose proof (where_from_lb v (k + 1)) as Hlb.
  destruct (where_from (k + 1) v) as [|a l].
  - destruct Hin as [<-|[]]. simpl. lia.
  - change (last (k :: a :: l) d) with (last (a :: l) d).
    destruct Hin as [<-|Hin]; [|now apply IHk].
    assert (k + 1 <= last (a :: l) d)
      by (apply Hlb, last_In; discriminate).
    lia.
Qed.

(** [np.where(v)[0][[0, -1]]] on a vector with a true entry: the least and
    the greatest index of a true entry. *)
Lemma first_last_where v :
  np_any v = true ->
  exists lo hi,
    first_last (np_where v) = Ok (lo, hi) /\
    In lo (np_where v) /\ In hi (np_where v) /\
    forall j, In j (np_where v) -> lo <= j <= hi.
Proof.
  intros Hany. apply np_any_true in Hany. destruct Hany as (n & Hn & Hb).
  pose proof (where_from_complete v 0 n Hn Hb) as Hin.
  unfold np_where in *.
  destruct (where_from 0 v) as [|i r] eqn:Hw; [easy|].
  exists i, (last (i :: r) i). simpl first_last. repeat split.
  - now left.
  - apply last_In. discriminate.
  - rewrite <- Hw in *. eapply where_from_hd_min; eauto.
  - rewrite <- Hw in *. now apply where_from_last_max.
Qed.

Lemma np_where_spec v j :
  In j (np_where v) <->
  0 <= j /\ (Z.to_nat j < length v)%nat /\ nth (Z.to_nat j) v false = true.
Proof.
  unfold np_where. split.
  - intros Hin. pose proof (where_from_lb _ _ _ Hin).
    apply where_from_sound in Hin. rewrite Z.sub_0_r in Hin. tauto.
  - intros (H0 & Hlen & Hb).
    replace j with (0 + Z.of_nat (Z.to_nat j)) by lia.
    now apply where_from_complete.
Qed.

(** ** Well-formed images *)

Lemma wf_image_inv img :
  wf_image img = true ->
  0 <= width img < 2 ^ 31 /\ 0 <= height img < 2 ^ 31 /\
  Z.of_nat (length (pixels img)) = height img /\
  forall row, In row (pixels img) ->
    Z.of_nat (length row) = width img /\
    forall p, In p row -> length p = bands (mode img).
Proof.
  unfold wf_image. rewrite !andb_true_iff, forallb_forall.
  intros [[[[[H1 H2] H3] H4] H5] H6]. repeat split; try lia.
  - apply H6 in H. unfold row_ok in H. apply andb_true_iff in H. lia.
  - intros p Hp. apply H6 in H. unfold row_ok in H.
    apply andb_true_iff in H. destruct H as [_ H].
    rewrite forallb_forall in H. apply H in Hp. unfold pixel_ok in Hp.
    apply andb_true_iff in Hp. destruct Hp as [Hp _].
    now apply Nat.eqb_eq in Hp.
Qed.

Lemma wf_row_length img y :
  wf_image img = true -> (y < length (pixels img))%nat ->
  Z.of_nat (length (nth y (pixels img) [])) = width img.
Proof.
  intros Hwf Hy. apply wf_image_inv in Hwf.
  destruct Hwf as (_ & _ & _ & Hrows). apply Hrows. now apply nth_In.
Qed.

(** ** The mask and its projections *)

Lemma any_axis1_nth mask y :
  nth y (np_any_axis1 mask) false = true <->
  exists x, nth x (nth y mask []) false = true.
Proof.
  unfold np_any_axis1. change false with (np_any []) at 1.
  rewrite map_nth, np_any_true. split; intros (x & H); exists x; tauto || idtac.
  split; [|exact H].
  destruct (Nat.lt_ge_cases x (length (nth y mask []))) as [|Hge]; [easy|].
  now rewrite (nth_overflow _ _ Hge) in H.
Qed.

Lemma any_axis0_nth ncols mask x :
  nth x (np_any_axis0 ncols mask) false = true <->
  (x < ncols)%nat /\ exists y, nth x (nth y mask []) false = true.
Proof.
  unfold np_any_axis0.
  destruct (Nat.lt_ge_cases x ncols) as [Hlt|Hge].
  - rewrite nth_map_in with (d2 := 0%nat) by now rewrite length_seq.
    rewrite seq_nth by exact Hlt. simpl. rewrite existsb_exists. split.
    + intros (row & Hin & Hb). split; [exact Hlt|].
      destruct (In_nth _ _ [] Hin) as (y & _ & <-). now exists y.
    + intros (_ & y & Hb). exists (nth y mask []). split; [|exact Hb].
      apply nth_In.
      destruct (Nat.lt_ge_cases y (length mask)) as [|Hge]; [easy|].
      rewrite (nth_overflow _ _ Hge) in Hb. now destruct x.
  - rewrite nth_overflow by now rewrite length_map, length_seq.
    split; [discriminate|lia].
Qed.

Lemma np_any_where v : np_any v = true <-> exists j, In j (np_where v).
Proof.
  rewrite np_any_true. split.
  - intros (n & Hn & Hb). exists (Z.of_nat n). apply np_where_spec.
    rewrite Nat2Z.id. repeat split; auto; lia.
  - intros (j & Hj). apply np_where_spec in Hj. exists (Z.to_nat j). tauto.
Qed.

Section ContentBounds.

Variable img : image.
Variable t : Z.
Hypothesis Hwf : wf_image img = true.

Let rows := np_any_axis1 (mask_of img t).
Let cols := np_any_axis0 (Z.to_nat (width img)) (mask_of img t).

Lemma mask_of_row y :
  nth y (mask_of img t) [] =
  map (fun p => t <? alpha_of p) (nth y (pixels img) []).
Proof.
  unfold mask_of, gt_mask. rewrite map_map.
  change (@nil bool) with
    ((fun r => map (fun a => t <? a) (map alpha_of r)) []) at 1.
  rewrite map_nth. now rewrite map_map.
Qed.

Lemma mask_of_visible x y :
  nth x (nth y (mask_of img t) []) false = true <->
  visible img t (Z.of_nat x) (Z.of_nat y).
Proof.
  pose proof (wf_image_inv _ Hwf) as (Hw & Hh & Hlen & _).
  rewrite mask_of_row. unfold visible, alpha_at. rewrite !Nat2Z.id. split.
  - intros Hb.
    assert (Hy : (y < length (pixels img))%nat).
    { destruct (Nat.lt_ge_cases y (length (pixels img))) as [|Hge]; [easy|].
      rewrite (nth_overflow _ _ Hge) in Hb. now destruct x. }
    pose proof (wf_row_length _ _ Hwf Hy) as Hrow.
    assert (Hx : (x < length (nth y (pixels img) []))%nat).
    { destruct (Nat.lt_ge_cases x (length (nth y (pixels img) [])))
        as [|Hge]; [easy|].
      rewrite nth_overflow in Hb by now rewrite length_map.
      discriminate. }
    rewrite (nth_map_in (fun p : pixel => t <? alpha_of p) _ x false [] Hx)
      in Hb.
    apply Z.ltb_lt in Hb. lia.
  - intros (Hx & Hy & Ha).
    assert (Hy' : (y < length (pixels img))%nat) by lia.
    pose proof (wf_row_length _ _ Hwf Hy') as Hrow.
    rewrite (nth_map_in (fun p : pixel => t <? alpha_of p) _ x false [])
      by lia.
    now apply Z.ltb_lt.
Qed.

(** [np.where(rows)[0]] lists the rows with a visible pixel. *)
Lemma rows_visible y : In y (np_where rows) <-> row_has_content img t y.
Proof.
  rewrite np_where_spec. unfold row_has_content, rows. split.
  - intros (H0 & _ & Hb). apply any_axis1_nth in Hb. destruct Hb as (x & Hb).
    exists (Z.of_nat x). apply mask_of_visible in Hb.
    now rewrite Z2Nat.id in Hb.
  - intros (x & Hv). pose proof Hv as (Hx & Hy & _).
    assert (Hb : nth (Z.to_nat y) (np_any_axis1 (mask_of img t)) false
                 = true).
    { apply any_axis1_nth. exists (Z.to_nat x).
      apply mask_of_visible. now rewrite !Z2Nat.id by lia. }
    repeat split; [lia| |exact Hb].
    destruct (Nat.lt_ge_cases (Z.to_nat y)
                (length (np_any_axis1 (mask_of img t)))) as [|Hge]; [easy|].
    now rewrite (nth_overflow _ _ Hge) in Hb.
Qed.

(** [np.where(cols)[0]] lists the columns with a visible pixel. *)
Lemma cols_visible x : In x (np_where cols) <-> col_has_content img t x.
Proof.
  rewrite np_where_spec. unfold col_has_content, cols. split.
  - intros (H0 & _ & Hb). apply any_axis0_nth in Hb.
    destruct Hb as (_ & y & Hb). exists (Z.of_nat y).
    apply mask_of_visible in Hb. now rewrite Z2Nat.id in Hb.
  - intros (y & Hv). pose proof Hv as (Hx & Hy & _).
    assert (Hb : nth (Z.to_nat x)
                   (np_any_axis0 (Z.to_nat (width img)) (mask_of img t))
                   false = true).
    { apply any_axis0_nth. split; [lia|]. exists (Z.to_nat y).
      apply mask_of_visible. now rewrite !Z2Nat.id by lia. }
    repeat split; [lia| |exact Hb].
    unfold np_any_axis0. rewrite length_map, length_seq. lia.
Qed.

Hypothesis Hmode : mode img = RGBA.

Lemma content_bounds_RGBA :
  content_bounds img t =
  if negb (np_any rows) || negb (np_any cols) then Ok None
  else
    '(row_min, row_max) <- first_last (np_where rows) ;;
    '(col_min, col_max) <- first_last (np_where cols) ;;
    Ok (Some (row_min, row_max, col_min, col_max)).
Proof. unfold content_bounds, alpha_channel. now rewrite Hmode. Qed.

(** What the bounds computation returns on an RGBA image, in every case. *)
Lemma content_bounds_spec :
  match content_bounds img t with
  | Ok None => forall x y, ~ visible img t x y
  | Ok (Some (row_min, row_max, col_min, col_max)) =>
      row_has_content img t row_min /\ row_has_content img t row_max /\
      col_has_content img t col_min /\ col_has_content img t col_max /\
      forall x y, visible img t x y ->
                  col_min <= x <= col_max /\ row_min <= y <= row_max
  | Raise _ => False
  end.
Proof.
  rewrite content_bounds_RGBA.
  destruct (np_any rows) eqn:Hr; cbn [negb orb].
  2:{ intros x y Hv. assert (np_any rows = true); [|congruence].
      apply np_any_where. exists y. apply rows_visible. now exists x. }
  destruct (np_any cols) eqn:Hc; cbn [negb].
  2:{ intros x y Hv. assert (np_any cols = true); [|congruence].
      apply np_any_where. exists x. apply cols_visible. now exists y. }
  destruct (first_last_where _ Hr) as (r0 & r1 & -> & Hr0 & Hr1 & Hrs).
  destruct (first_last_where _ Hc) as (c0 & c1 & -> & Hc0 & Hc1 & Hcs).
  cbn [bind]. repeat split;
    try (now apply rows_visible); try (now apply cols_visible).
  - apply Hcs, cols_visible. now exists y.
  - apply Hcs, cols_visible. now exists y.
  - apply Hrs, rows_visible. now exists x.
  - apply Hrs, rows_visible. now exists x.
Qed.

End ContentBounds.

(** ** Cropping *)

Lemma crop_ok img x0 y0 x1 y1 :
  x0 <= x1 -> y0 <= y1 ->
  crop img (x0, y0, x1, y1) = Ok (cropped img x0 y0 x1 y1).
Proof.
  intros Hx Hy. unfold crop.
  destruct (Z.ltb_spec x1 x0); [lia|]. destruct (Z.ltb_spec y1 y0); [lia|].
  reflexivity.
Qed.

Lemma pixel_at_inside img x y d :
  wf_image img = true ->
  0 <= x < width img -> 0 <= y < height img ->
  pixel_at img x y = nth (Z.to_nat x) (nth (Z.to_nat y) (pixels img) []) d.
Proof.
  intros Hwf Hx Hy. unfold pixel_at.
  replace ((0 <=? x) && (x <? width img) && (0 <=? y) && (y <? height img))
    with true by (symmetry; rewrite !andb_true_iff; lia).
  pose proof (wf_image_inv _ Hwf) as (_ & _ & Hlen & _).
  apply nth_indep. apply Nat2Z.inj_lt. rewrite wf_row_length; auto; lia.
Qed.

Lemma cropped_pixel img x0 y0 x1 y1 x y d :
  0 <= x < x1 - x0 -> 0 <= y < y1 - y0 ->
  nth (Z.to_nat x) (nth (Z.to_nat y) (pixels (cropped img x0 y0 x1 y1)) []) d
  = pixel_at img (x0 + x) (y0 + y).
Proof.
  intros Hx Hy. simpl.
  rewrite (nth_map_in _ (zrange y0 y1) _ [] 0) by (rewrite zrange_length; lia).
  rewrite (nth_map_in _ (zrange x0 x1) _ d 0) by (rewrite zrange_length; lia).
  rewrite !zrange_nth by lia. f_equal; lia.
Qed.

Lemma pixel_at_ok img x y :
  wf_image img = true -> pixel_ok (mode img) (pixel_at img x y) = true.
Proof.
  intros Hwf. unfold pixel_at.
  assert (Hz : pixel_ok (mode img) (zero_pixel (mode img)) = true)
    by now destruct (mode img).
  destruct ((0 <=? x) && (x <? width img) && (0 <=? y) && (y <? height img))
    eqn:Hin; [|exact Hz].
  rewrite !andb_true_iff in Hin.
  unfold wf_image in Hwf. rewrite !andb_true_iff, forallb_forall in Hwf.
  destruct Hwf as [[_ Hlen] Hrows].
  assert (Hy : (Z.to_nat y < length (pixels img))%nat) by lia.
  pose proof (Hrows _ (nth_In _ [] Hy)) as Hrow.
  unfold row_ok in Hrow. rewrite andb_true_iff, forallb_forall in Hrow.
  destruct Hrow as [Hw Hpx]. apply Hpx, nth_In. lia.
Qed.

(** A crop inside the source is again an image. *)
Lemma cropped_wf img x0 y0 x1 y1 :
  wf_image img = true ->
  0 <= x1 - x0 <= width img -> 0 <= y1 - y0 <= height img ->
  wf_image (cropped img x0 y0 x1 y1) = true.
Proof.
  intros Hwf Hx Hy. pose proof (wf_image_inv _ Hwf) as (Hw & Hh & _).
  unfold wf_image. cbn [cropped width height pixels mode].
  rewrite length_map, zrange_length.
  rewrite !andb_true_iff, forallb_forall.
  split; [rewrite ?Z.leb_le, ?Z.ltb_lt, ?Z.eqb_eq; lia|]. intros row Hrow. apply in_map_iff in Hrow. destruct Hrow as (y & <- & _).
  unfold row_ok. rewrite length_map, zrange_length.
  rewrite andb_true_iff, forallb_forall. split; [apply Z.eqb_eq; lia|].
  intros p Hp. apply in_map_iff in Hp. destruct Hp as (x & <- & _).
  now apply pixel_at_ok.
Qed.

Lemma cropped_alpha img x0 y0 x1 y1 x y :
  wf_image img = true ->
  0 <= x0 -> x1 <= width img -> 0 <= y0 -> y1 <= height img ->
  0 <= x < x1 - x0 -> 0 <= y < y1 - y0 ->
  alpha_at (cropped img x0 y0 x1 y1) x y = alpha_at img (x0 + x) (y0 + y).
Proof.
  intros Hwf Hx0 Hx1 Hy0 Hy1 Hx Hy. unfold alpha_at.
  rewrite cropped_pixel by lia.
  now rewrite (pixel_at_inside _ _ _ [] Hwf) by lia.
Qed.

Lemma cropped_visible img x0 y0 x1 y1 t x y :
  wf_image img = true ->
  0 <= x0 -> x1 <= width img -> 0 <= y0 -> y1 <= height img ->
  visible (cropped img x0 y0 x1 y1) t x y <->
  0 <= x < x1 - x0 /\ 0 <= y < y1 - y0 /\ visible img t (x0 + x) (y0 + y).
Proof.
  intros Hwf Hx0 Hx1 Hy0 Hy1. unfold visible. simpl width. simpl height.
  split.
  - intros (Hx & Hy & Ha). rewrite cropped_alpha in Ha by assumption. lia.
  - intros (Hx & Hy & _ & _ & Ha). rewrite cropped_alpha by assumption. lia.
Qed.

(** Cropping an image to its whole extent copies it. *)
Lemma crop_whole img :
  wf_image img = true ->
  crop img (0, 0, width img, height img) = Ok img.
Proof.
  intros Hwf. pose proof (wf_image_inv _ Hwf) as (Hw & Hh & Hlen & Hrows).
  rewrite crop_ok by lia. f_equal. unfold cropped.
  destruct img as [m w h px]. simpl in *. f_equal; try lia.
  apply nth_ext with (d := []) (d' := []).
  - rewrite length_map, zrange_length. lia.
  - intros n Hn. rewrite length_map, zrange_length in Hn.
    rewrite (nth_map_in _ (zrange 0 h) _ [] 0) by now rewrite zrange_length.
    rewrite zrange_nth by exact Hn.
    assert (Hrow : Z.of_nat (length (nth n px [])) = w)
      by (apply Hrows, nth_In; lia).
    apply nth_ext with (d := zero_pixel m) (d' := zero_pixel m).
    + rewrite length_map, zrange_length. lia.
    + intros k Hk. rewrite length_map, zrange_length in Hk.
      rewrite (nth_map_in _ (zrange 0 w) _ _ 0) by now rewrite zrange_length.
      rewrite zrange_nth by exact Hk. unfold pixel_at. simpl.
      replace ((0 <=? Z.of_nat k) && (Z.of_nat k <? w) &&
               (0 <=? Z.of_nat n) && (Z.of_nat n <? h))
        with true by (symmetry; rewrite !andb_true_iff; lia).
      now rewrite !Nat2Z.id.
Qed.

(** ** [autocrop_transparency] *)

Lemma autocrop_not_RGBA img t :
  mode img <> RGBA -> autocrop_transparency img t = Ok img.
Proof.
  intros Hm. unfold autocrop_transparency.
  destruct (mode img); try reflexivity. congruence.
Qed.

Lemma autocrop_RGBA img t :
  mode img = RGBA ->
  autocrop_transparency img t =
  b <- content_bounds img t ;;
  match b with
  | None => Ok img
  | Some (row_min, row_max, col_min, col_max) =>
      crop img (col_min, row_min, col_max + 1, row_max + 1)
  end.
Proof. intros Hm. unfold autocrop_transparency. now rewrite Hm. Qed.

Lemma mode_RGBA_dec img :
  {mode img = RGBA} + {mode img <> RGBA}.
Proof. destruct (mode img); (now left) || (right; discriminate). Qed.

(** The outcome of [autocrop_transparency] on a well-formed image: either
    nothing is visible and the image is returned, or the image is cut to
    its content box, which lies inside it. *)
Lemma autocrop_cases img t :
  wf_image img = true -> mode img = RGBA ->
  (content_bounds img t = Ok None /\
   (forall x y, ~ visible img t x y) /\
   autocrop_transparency img t = Ok img)
  \/
  (exists row_min row_max col_min col_max,
     content_bounds img t = Ok (Some (row_min, row_max, col_min, col_max)) /\
     autocrop_transparency img t =
       Ok (cropped img col_min row_min (col_max + 1) (row_max + 1)) /\
     0 <= col_min <= col_max /\ col_max < width img /\
     0 <= row_min <= row_max /\ row_max < height img /\
     row_has_content img t row_min /\ row_has_content img t row_max /\
     col_has_content img t col_min /\ col_has_content img t col_max /\
     forall x y, visible img t x y ->
                 col_min <= x <= col_max /\ row_min <= y <= row_max).
Proof.
  intros Hwf Hm. pose proof (content_bounds_spec img t Hwf Hm) as Hspec.
  rewrite (autocrop_RGBA _ _ Hm).
  destruct (content_bounds img t) as [[[[[r0 r1] c0] c1]|]|e]; [| |easy].
  - right. exists r0, r1, c0, c1.
    destruct Hspec as (Hr0 & Hr1 & Hc0 & Hc1 & Hall).
    assert (0 <= c0 <= c1 /\ c1 < width img /\ 0 <= r0 <= r1 /\ r1 < height img).
    { destruct Hr0 as (xa & Ha), Hr1 as (xb & Hb), Hc0 as (yc & Hc),
        Hc1 as (yd & Hd).
      pose proof (Hall _ _ Ha). pose proof (Hall _ _ Hb).
      pose proof (Hall _ _ Hc). pose proof (Hall _ _ Hd).
      unfold visible in *. lia. }
    cbn [bind]. rewrite crop_ok by lia. repeat split; try tauto; try lia;
      apply Hall in H0; lia.
  - left. repeat split; auto.
Qed.

Lemma cropped_whole img :
  wf_image img = true -> cropped img 0 0 (width img) (height img) = img.
Proof.
  intros Hwf. pose proof (crop_whole _ Hwf) as H.
  pose proof (wf_image_inv _ Hwf) as (Hw & Hh & _).
  rewrite crop_ok in H by lia. now injection H.
Qed.

(** The content box of an image already cut to its content box is the whole
    image, so a second cut changes nothing. *)
Lemma autocrop_tight img t r0 r1 c0 c1 :
  wf_image img = true -> mode img = RGBA ->
  0 <= c0 <= c1 -> c1 < width img -> 0 <= r0 <= r1 -> r1 < height img ->
  row_has_content img t r0 -> row_has_content img t r1 ->
  col_has_content img t c0 -> col_has_content img t c1 ->
  (forall x y, visible img t x y -> c0 <= x <= c1 /\ r0 <= y <= r1) ->
  let c := cropped img c0 r0 (c1 + 1) (r1 + 1) in
  wf_image c = true /\ autocrop_transparency c t = Ok c.
Proof.
  intros Hwf Hm Hc Hc1 Hr Hr1 (xa & Ha) (xb & Hb) (yc & Hcc) (yd & Hd) Hall c.
  assert (Hwfc : wf_image c = true)
    by (apply cropped_wf; [assumption|lia|lia]).
  split; [exact Hwfc|].
  assert (Hvis : forall x y, visible c t x y <->
            0 <= x < c1 + 1 - c0 /\ 0 <= y < r1 + 1 - r0 /\
            visible img t (c0 + x) (r0 + y))
    by (intros; apply cropped_visible; auto; lia).
  assert (Hin : forall x y, visible img t x y -> visible c t (x - c0) (y - r0)).
  { intros x y Hv. apply Hvis. pose proof (Hall _ _ Hv).
    replace (c0 + (x - c0)) with x by lia.
    replace (r0 + (y - r0)) with y by lia.
    split; [lia|split; [lia|exact Hv]]. }
  apply Hin in Ha, Hb, Hcc, Hd.
  destruct (autocrop_cases c t Hwfc Hm)
    as [(_ & Hnone & _)
       |(r0' & r1' & c0' & c1' & _ & -> & Hc' & Hc1' & Hr' & Hr1' & _ & _ & _
          & _ & Hall')].
  - now apply Hnone in Ha.
  - apply Hall' in Ha, Hb, Hcc, Hd. cbn [c cropped width height] in *.
    replace c0' with 0 by lia. replace r0' with 0 by lia.
    replace (c1' + 1) with (width c) by (cbn [c cropped width]; lia).
    replace (r1' + 1) with (height c) by (cbn [c cropped height]; lia).
    now rewrite cropped_whole.
Qed.

Lemma autocrop_idempotent img t :
  wf_image img = true ->
  exists c, autocrop_transparency img t = Ok c /\
            wf_image c = true /\
            autocrop_transparency c t = Ok c.
Proof.
  intros Hwf. destruct (mode_RGBA_dec img) as [Hm|Hm].
  - destruct (autocrop_cases img t Hwf Hm)
      as [(_ & _ & Hsame)
         |(r0 & r1 & c0 & c1 & _ & Hcut & Hc & Hc1 & Hr & Hr1 & Hr0 & Hr1'
            & Hc0 & Hc1' & Hall)].
    + exists img. auto.
    + exists (cropped img c0 r0 (c1 + 1) (r1 + 1)). split; [exact Hcut|].
      now apply autocrop_tight.
  - exists img. rewrite (autocrop_not_RGBA _ _ Hm). auto.
Qed.

(** ** Binary64 products

    [int(n * c)] for a size [n] and a table constant [c] below one stays
    between 0 and [n]: the product is rounded up by at most one unit in
    the last place, which the slack [c * (1 + 2^-52) <= 1] absorbs. *)

Module Binary64.

Lemma digits2_bounds p :
  2 ^ (Zpos (digits2_pos p) - 1) <= Zpos p < 2 ^ Zpos (digits2_pos p).
Proof.
  assert (digits2_pos p = Pos.size p) as ->
      by (induction p; simpl; congruence).
  pose proof (Pos.size_gt p) as Hgt. pose proof (Pos.size_le p) as Hle.
  apply Pos2Z.pos_lt_pos in Hgt. apply Pos2Z.pos_le_pos in Hle.
  rewrite Pos2Z.inj_pow in Hgt, Hle. rewrite (Pos2Z.inj_xO p) in Hle.
  assert (Hs : 2 ^ Zpos (Pos.size p) = 2 * 2 ^ (Zpos (Pos.size p) - 1))
    by (rewrite <- Z.pow_succ_r by lia; f_equal; lia).
  lia.
Qed.

Lemma digits2_le p k : 0 <= k -> Zpos p < 2 ^ k -> Zpos (digits2_pos p) <= k.
Proof.
  intros Hk Hlt. destruct (digits2_bounds p) as [Hlo _].
  destruct (Z.le_gt_cases (Zpos (digits2_pos p)) k) as [|Hgt]; [easy|].
  assert (2 ^ k <= 2 ^ (Zpos (digits2_pos p) - 1))
    by (apply Z.pow_le_mono_r; lia).
  lia.
Qed.

Lemma digits2_gt p k : 2 ^ k <= Zpos p -> k < Zpos (digits2_pos p).
Proof.
  intros Hle. destruct (digits2_bounds p) as [_ Hhi].
  destruct (Z.lt_ge_cases k (Zpos (digits2_pos p))) as [|Hge]; [easy|].
  assert (2 ^ Zpos (digits2_pos p) <= 2 ^ k)
    by (apply Z.pow_le_mono_r; lia).
  lia.
Qed.

Lemma shr_1_m r : 0 <= shr_m r -> shr_m (shr_1 r) = shr_m r / 2.
Proof.
  destruct r as [m b s]. cbn [shr_m shr_1].
  destruct m as [|[p|p|]|p]; intros H; cbn [shr_m]; try lia.
  - reflexivity.
  - rewrite (Pos2Z.inj_xI p). apply Z.div_unique with (r := 1); lia.
  - rewrite (Pos2Z.inj_xO p). apply Z.div_unique with (r := 0); lia.
  - reflexivity.
Qed.

Lemma iter_shr_m p : forall r,
  0 <= shr_m r -> shr_m (iter_pos shr_1 p r) = shr_m r / 2 ^ Zpos p.
Proof.
  induction p as [p IH|p IH|]; intros r Hr; cbn [iter_pos].
  - assert (0 < 2 ^ Zpos p) by (apply Z.pow_pos_nonneg; lia).
    assert (H1 : 0 <= shr_m (shr_1 r))
      by (rewrite shr_1_m by easy; apply Z.div_pos; lia).
    assert (H2 : 0 <= shr_m (iter_pos shr_1 p (shr_1 r)))
      by (rewrite IH by easy; apply Z.div_pos; lia).
    rewrite IH, IH, shr_1_m by easy.
    rewrite !Zdiv_Zdiv by lia. f_equal.
    rewrite (Pos2Z.inj_xI p).
    replace (2 * Zpos p + 1) with (Z.succ (Zpos p + Zpos p)) by lia.
    rewrite Z.pow_succ_r, Z.pow_add_r by lia. lia.
  - assert (0 < 2 ^ Zpos p) by (apply Z.pow_pos_nonneg; lia).
    assert (H2 : 0 <= shr_m (iter_pos shr_1 p r))
      by (rewrite IH by easy; apply Z.div_pos; lia).
    rewrite IH, IH by easy.
    rewrite !Zdiv_Zdiv by lia. f_equal.
    rewrite (Pos2Z.inj_xO p).
    replace (2 * Zpos p) with (Zpos p + Zpos p) by lia.
    rewrite Z.pow_add_r by lia. lia.
  - now rewrite shr_1_m.
Qed.

Lemma round_nearest_even_bounds m l :
  m <= round_nearest_even m l <= m + 1.
Proof.
  destruct l as [|[]]; cbn [round_nearest_even]; try lia.
  destruct (Z.even m); lia.
Qed.

(** The rounding of a mantissa of more than 53 bits. *)
Lemma binary_round_aux_inexact (P : positive) (E : Z) :
  let d := Zpos (digits2_pos P) in
  53 < d -> -1074 <= E -> d + E <= 1023 ->
  exists m e,
    binary_round_aux 53 1024 false (Zpos P) E loc_Exact = S754_finite false m e /\
    d - 53 <= e - E /\
    Zpos m * 2 ^ (e - E) <= Zpos P + 2 ^ (d - 53).
Proof.
  intros d Hd HE Hmax. pose proof (digits2_bounds P) as [Hlo Hhi]. fold d in Hlo, Hhi.
  unfold binary_round_aux, shr_fexp. cbn [Zdigits2]. fold d.
  assert (Hn : fexp 53 1024 (d + E) - E = d - 53) by (unfold fexp, emin; lia).
  rewrite Hn. destruct (d - 53) as [|k|k] eqn:Hk; try lia.
  cbn [shr]. set (r := iter_pos shr_1 k _).
  assert (H2k : 0 < 2 ^ Zpos k) by (apply Z.pow_pos_nonneg; lia).
  assert (Hq : shr_m r = Zpos P / 2 ^ Zpos k)
    by (unfold r; rewrite iter_shr_m; cbn [shr_record_of_loc shr_m]; lia).
  assert (Hpow : 2 ^ d = 2 ^ 53 * 2 ^ Zpos k /\ 2 ^ (d - 1) = 2 ^ 52 * 2 ^ Zpos k).
  { split; [replace d with (53 + Zpos k) by lia
           |replace (d - 1) with (52 + Zpos k) by lia];
      now rewrite Z.pow_add_r by lia. }
  destruct Hpow as [Hpd Hpd1].
  assert (Hqb : 2 ^ 52 <= shr_m r < 2 ^ 53).
  { rewrite Hq. split.
    - apply Z.div_le_lower_bound; lia.
    - apply Z.div_lt_upper_bound; lia. }
  assert (Hqk : shr_m r * 2 ^ Zpos k <= Zpos P).
  { rewrite Hq. rewrite Z.mul_comm. apply Z.mul_div_le. lia. }
  pose proof (round_nearest_even_bounds (shr_m r) (loc_of_shr_record r)) as Hrb.
  destruct (round_nearest_even (shr_m r) (loc_of_shr_record r)) as [|q1|q1] eqn:Hq1;
    try lia.
  cbn [Zdigits2].
  assert (Hd1 : 53 <= Zpos (digits2_pos q1) <= 54).
  { split.
    - assert (52 < Zpos (digits2_pos q1)) by (apply digits2_gt; lia). lia.
    - apply digits2_le; [lia|]. change (2 ^ 54) with (2 * 2 ^ 53). lia. }
  pose proof (digits2_bounds q1) as [Hlo1 Hhi1].
  assert (Hn2 : fexp 53 1024 (Zpos (digits2_pos q1) + (E + Zpos k)) - (E + Zpos k)
                = Zpos (digits2_pos q1) - 53) by (unfold fexp, emin; lia).
  rewrite Hn2.
  destruct (Zpos (digits2_pos q1) - 53) as [|k2|k2] eqn:Hk2; try lia.
  - cbn [shr shr_record_of_loc shr_m].
    replace (E + Zpos k <=? 1024 - 53) with true by (symmetry; apply Z.leb_le; lia).
    exists q1, (E + Zpos k). split; [reflexivity|]. split; [lia|].
    replace (E + Zpos k - E) with (Zpos k) by lia. nia.
  - assert (k2 = 1%positive) by lia. subst k2.
    cbn [shr iter_pos shr_record_of_loc shr_1].
    assert (Hq12 : Zpos q1 = 2 ^ 53).
    { replace (Zpos (digits2_pos q1)) with 54 in Hlo1 by lia.
      change (2 ^ (54 - 1)) with (2 ^ 53) in Hlo1. lia. }
    destruct q1 as [q|q|]; try (exfalso; lia).
    cbn [shr_m orb].
    replace (E + Zpos k + 1 <=? 1024 - 53) with true
      by (symmetry; apply Z.leb_le; lia).
    exists q, (E + Zpos k + 1). split; [reflexivity|]. split; [lia|].
    replace (E + Zpos k + 1 - E) with (Zpos k + 1) by lia.
    rewrite Z.pow_add_r by lia. change (2 ^ 1) with 2.
    rewrite (Pos2Z.inj_xO q) in Hq12, Hrb. nia.
Qed.

Lemma iter_xO p k : Zpos (Pos.iter xO p k) = Zpos p * 2 ^ Zpos k.
Proof.
  induction k as [|k IH] using Pos.peano_ind.
  - cbn [Pos.iter]. rewrite (Pos2Z.inj_xO p). change (2 ^ 1) with 2. lia.
  - rewrite Pos.iter_succ, Pos2Z.inj_xO, IH, Pos2Z.inj_succ, Z.pow_succ_r by lia.
    lia.
Qed.

(** A mantissa of at most 53 bits is kept as it is. *)
Lemma binary_round_aux_exact (m : positive) (e : Z) :
  Zpos (digits2_pos m) <= 53 -> -1074 <= e <= 971 ->
  Zpos (digits2_pos m) + e - 53 <= e ->
  binary_round_aux 53 1024 false (Zpos m) e loc_Exact = S754_finite false m e.
Proof.
  intros Hd He _. unfold binary_round_aux, shr_fexp.
  cbn [Zdigits2 shr_record_of_loc].
  assert (Hn : fexp 53 1024 (Zpos (digits2_pos m) + e) - e <= 0)
    by (unfold fexp, emin; lia).
  assert (Hshr : shr (Build_shr_record (Zpos m) false false) e
                     (fexp 53 1024 (Zpos (digits2_pos m) + e) - e)
                 = (Build_shr_record (Zpos m) false false, e))
    by (destruct (fexp 53 1024 (Zpos (digits2_pos m) + e) - e); try lia;
        reflexivity).
  rewrite Hshr. cbn [shr_m loc_of_shr_record round_nearest_even Zdigits2].
  rewrite Hshr. cbn [shr_m].
  replace (e <=? 1024 - 53) with true by (symmetry; apply Z.leb_le; lia).
  reflexivity.
Qed.

(** An integer below [2^53] converts to a float without rounding. *)
Lemma py_float_exact n :
  0 < n < 2 ^ 53 ->
  exists m e, py_float n = S754_finite false m e /\
              -52 <= e <= 0 /\ Zpos m = n * 2 ^ (- e) /\
              2 ^ 52 <= Zpos m.
Proof.
  intros Hn. destruct n as [|p|p]; try lia.
  unfold py_float, binary_normalize, binary_round.
  pose proof (digits2_bounds p) as [Hlo Hhi].
  assert (Hd : 1 <= Zpos (digits2_pos p) <= 53)
    by (split; [lia|apply digits2_le; lia]).
  assert (Hf : fexp 53 1024 (Zpos (digits2_pos p) + 0) = Zpos (digits2_pos p) - 53)
    by (unfold fexp, emin; lia).
  rewrite Hf. unfold shl_align. rewrite Z.sub_0_r.
  destruct (Zpos (digits2_pos p) - 53) as [|k|k] eqn:Hk; try lia.
  - rewrite binary_round_aux_exact by lia.
    exists p, 0. repeat split; try lia.
    replace (Zpos (digits2_pos p)) with 53 in Hlo by lia.
    exact Hlo.
  - assert (Hm : Zpos (Pos.iter xO p k) = Zpos p * 2 ^ Zpos k) by apply iter_xO.
    assert (H2k : 0 < 2 ^ Zpos k) by (apply Z.pow_pos_nonneg; lia).
    assert (Hp53 : 2 ^ 53 = 2 ^ Zpos (digits2_pos p) * 2 ^ Zpos k).
    { rewrite <- Z.pow_add_r by lia. f_equal. lia. }
    assert (Hp52 : 2 ^ 52 = 2 ^ (Zpos (digits2_pos p) - 1) * 2 ^ Zpos k).
    { rewrite <- Z.pow_add_r by lia. f_equal. lia. }
    assert (Hd' : Zpos (digits2_pos (Pos.iter xO p k)) <= 53).
    { apply digits2_le; [lia|]. rewrite Hm, Hp53.
      apply Z.mul_lt_mono_pos_r; lia. }
    rewrite binary_round_aux_exact by lia.
    exists (Pos.iter xO p k), (Zneg k). repeat split; try lia.
    + exact Hm.
    + rewrite Hm, Hp52. apply Z.mul_le_mono_nonneg_r; lia.
Qed.

Lemma scale_bounds n c :
  proper_fraction c = true -> 0 <= n < 2 ^ 53 ->
  exists v, scale n c = Ok v /\ 0 <= v <= n.
Proof.
  intros Hc Hn. destruct c as [| | |[] M e]; try discriminate.
  unfold proper_fraction in Hc. rewrite !andb_true_iff in Hc.
  destruct Hc as [[[HdM He0] He1] HM].
  apply Z.eqb_eq in HdM. apply Z.leb_le in He0, He1, HM.
  destruct (Z.eq_dec n 0) as [->|Hn0]; [exists 0; split; [reflexivity|lia]|].
  destruct (py_float_exact n) as (m1 & e1 & Hf & He1b & Hm1 & Hm1lo); [lia|].
  unfold scale. rewrite Hf. unfold py_fmul, SFmul. cbn [xorb].
  pose proof (digits2_bounds M) as [HMlo _]. rewrite HdM in HMlo.
  change (2 ^ (53 - 1)) with (2 ^ 52) in HMlo.
  set (P := (m1 * M)%positive).
  assert (HP : Zpos P = Zpos m1 * Zpos M) by apply Pos2Z.inj_mul.
  assert (HPlo : 2 ^ 104 <= Zpos P).
  { rewrite HP. change (2 ^ 104) with (2 ^ 52 * 2 ^ 52).
    apply Z.mul_le_mono_nonneg; lia. }
  pose proof (digits2_bounds P) as [HdPlo HdPhi].
  assert (HdP : 104 < Zpos (digits2_pos P)) by (apply digits2_gt; exact HPlo).
  assert (HdP' : Zpos (digits2_pos P) <= 200).
  { apply digits2_le; [lia|]. rewrite HP.
    assert (Zpos m1 < 2 ^ 106).
    { rewrite Hm1. change (2 ^ 106) with (2 ^ 53 * 2 ^ 53).
      assert (2 ^ (- e1) <= 2 ^ 53) by (apply Z.pow_le_mono_r; lia).
      assert (0 < 2 ^ (- e1)) by (apply Z.pow_pos_nonneg; lia). nia. }
    assert (Zpos M < 2 ^ 94).
    { destruct (digits2_bounds M) as [_ HMhi]. rewrite HdM in HMhi.
      assert (2 ^ 53 < 2 ^ 94) by (apply Z.pow_lt_mono_r; lia). lia. }
    change (2 ^ 200) with (2 ^ 106 * 2 ^ 94).
    apply Z.mul_lt_mono_nonneg; lia. }
  destruct (binary_round_aux_inexact P (e1 + e)) as (m2 & e2 & -> & He2 & Hval);
    [lia|lia|lia|].
  cbn [py_int cond_Zopp]. eexists. split; [reflexivity|].
  set (E := e1 + e) in *. set (d := Zpos (digits2_pos P)) in *.
  assert (HA : 0 < 2 ^ (- E)) by (apply Z.pow_pos_nonneg; lia).
  assert (HB : 0 < 2 ^ (e2 - E)) by (apply Z.pow_pos_nonneg; lia).
  assert (Hround : 2 ^ (d - 53) * 2 ^ 52 <= Zpos P).
  { rewrite <- Z.pow_add_r by lia. replace (d - 53 + 52) with (d - 1) by lia.
    exact HdPlo. }
  assert (HE : 2 ^ (- E) = 2 ^ (- e1) * 2 ^ (- e)).
  { rewrite <- Z.pow_add_r by lia. f_equal. lia. }
  assert (HX : 0 < 2 ^ (- e1)) by (apply Z.pow_pos_nonneg; lia).
  assert (Hchain : forall v, 0 <= v ->
            v * 2 ^ (- E) <= Zpos m2 * 2 ^ (e2 - E) -> 0 <= v <= n).
  { intros v Hv0 Hv. split; [exact Hv0|].
    apply Z.mul_le_mono_pos_r with (p := 2 ^ (- E) * 2 ^ 52); [lia|].
    assert (S1 : v * 2 ^ (- E) * 2 ^ 52 <= (Zpos P + 2 ^ (d - 53)) * 2 ^ 52)
      by (apply Z.mul_le_mono_nonneg_r; lia).
    assert (S3 : Zpos P * (2 ^ 52 + 1)
                 = n * 2 ^ (- e1) * (Zpos M * (2 ^ 52 + 1)))
      by (rewrite HP, Hm1; ring).
    assert (S4 : n * 2 ^ (- e1) * (Zpos M * (2 ^ 52 + 1))
                 <= n * 2 ^ (- e1) * (2 ^ 52 * 2 ^ (- e)))
      by (apply Z.mul_le_mono_nonneg_l; [apply Z.mul_nonneg_nonneg; lia|lia]).
    assert (S5 : n * 2 ^ (- e1) * (2 ^ 52 * 2 ^ (- e)) = n * (2 ^ (- E) * 2 ^ 52))
      by (rewrite HE; ring).
    lia. }
  destruct (Z.leb_spec 0 e2) as [He2s|He2s].
  - apply Hchain; [apply Z.mul_nonneg_nonneg; [lia|apply Z.pow_nonneg; lia]|].
    rewrite <- Z.mul_assoc, <- Z.pow_add_r by lia. apply Z.le_refl.
  - assert (HC : 0 < 2 ^ (- e2)) by (apply Z.pow_pos_nonneg; lia).
    apply Hchain; [apply Z.div_pos; lia|].
    replace (- E) with (- e2 + (e2 - E)) by lia.
    rewrite Z.pow_add_r, Z.mul_assoc by lia.
    apply Z.mul_le_mono_nonneg_r; [lia|].
    rewrite Z.mul_comm. apply Z.mul_div_le. lia.
Qed.

End Binary64.

(** ** The region table *)

Lemma region_ok nm cx cy cw ch w h :
  proper_fraction (hundredths cx) = true ->
  proper_fraction (hundredths cy) = true ->
  proper_fraction (hundredths cw) = true ->
  proper_fraction (hundredths ch) = true ->
  0 <= w < 2 ^ 53 -> 0 <= h < 2 ^ 53 ->
  exists e, region nm cx cy cw ch w h = Ok e /\
            name e = nm /\ box_within w h (box e).
Proof.
  intros Hx Hy Hw Hh Hwb Hhb. unfold region.
  destruct (Binary64.scale_bounds w _ Hx Hwb) as (x & -> & Hxb).
  destruct (Binary64.scale_bounds h _ Hy Hhb) as (y & -> & Hyb).
  destruct (Binary64.scale_bounds w _ Hw Hwb) as (bw & -> & Hbw).
  destruct (Binary64.scale_bounds h _ Hh Hhb) as (bh & -> & Hbh).
  cbn [bind]. eexists. split; [reflexivity|]. cbn [name box box_within].
  repeat split; lia.
Qed.

Lemma sequence_ok {A} (P : A -> Prop) (l : list (result A)) :
  Forall (fun m => exists a, m = Ok a /\ P a) l ->
  exists r, sequence l = Ok r /\ length r = length l /\ Forall P r.
Proof.
  induction 1 as [|m l (a & -> & Ha) _ (r & Hr & Hlen & Hall)].
  - exists []. repeat split; constructor.
  - exists (a :: r). cbn [sequence bind]. rewrite Hr. cbn [bind length].
    repeat split; [congruence|now constructor].
Qed.

(** The table has 26 lines and never fails; its boxes start inside the
    image and are no larger than it. *)
Lemma define_ui_regions_ok w h :
  0 <= w < 2 ^ 53 -> 0 <= h < 2 ^ 53 ->
  exists table, define_ui_regions w h = Ok table /\
                length table = 26%nat /\
                Forall (fun e => box_within w h (box e)) table.
Proof.
  intros Hw Hh. unfold define_ui_regions. cbv zeta.
  match goal with
  | |- exists t, sequence ?l = Ok t /\ _ =>
      destruct (sequence_ok (fun e => box_within w h (box e)) l)
        as (table & Ht & Hlen & Hall)
  end.
  - repeat (apply Forall_cons;
            [edestruct region_ok as (e & He & _ & Hb);
             [..|exists e; split; [exact He|exact Hb]];
             [vm_compute; reflexivity ..|exact Hw|exact Hh]|]).
    apply Forall_nil.
  - exists table. auto.
Qed.

Lemma sequence_cons_inv {A} (m : result A) l r :
  sequence (m :: l) = Ok r ->
  exists a r', m = Ok a /\ sequence l = Ok r' /\ r = a :: r'.
Proof.
  cbn [sequence]. destruct m as [a|e]; [|discriminate]. cbn [bind].
  destruct (sequence l) as [r'|e]; [|discriminate]. cbn [bind].
  intros H. injection H as <-. now exists a, r'.
Qed.

Lemma region_name nm cx cy cw ch w h e :
  region nm cx cy cw ch w h = Ok e -> name e = nm.
Proof.
  unfold region.
  destruct (scale w (hundredths cx)); [|discriminate].
  destruct (scale h (hundredths cy)); [|discriminate].
  destruct (scale w (hundredths cw)); [|discriminate].
  destruct (scale h (hundredths ch)); [|discriminate].
  cbn [bind]. intros H. now injection H as <-.
Qed.

(** Whenever the table is built, it lists the 26 names in order. *)
Lemma define_ui_regions_names w h table :
  define_ui_regions w h = Ok table -> map name table = region_names.
Proof.
  unfold define_ui_regions. cbv zeta. intros H.
  repeat (apply sequence_cons_inv in H;
          destruct H as (? & ? & ?%region_name & H & ->)).
  cbn [sequence] in H. injection H as <-. cbn [map].
  repeat match goal with Hn : name _ = _ |- _ => rewrite Hn; clear Hn end.
  reflexivity.
Qed.

Lemma autocrop_positive img t c :
  wf_image img = true -> 0 < width img -> 0 < height img ->
  autocrop_transparency img t = Ok c -> 0 < width c /\ 0 < height c.
Proof.
  intros Hwf Hw Hh Hc. destruct (mode_RGBA_dec img) as [Hm|Hm].
  - destruct (autocrop_cases img t Hwf Hm)
      as [(_ & _ & Hsame)
         |(r0 & r1 & c0 & c1 & _ & Hcut & Hcs & _ & Hrs & _)].
    + rewrite Hsame in Hc. injection Hc as <-. auto.
    + rewrite Hcut in Hc. injection Hc as <-. cbn [cropped width height]. lia.
  - rewrite (autocrop_not_RGBA _ _ Hm) in Hc. injection Hc as <-. auto.
Qed.

(** ** The loader and the extraction loop *)

Lemma band_ok_nth p k : forallb band_ok p = true -> band_ok (nth k p 0) = true.
Proof.
  intros Hp. rewrite forallb_forall in Hp.
  destruct (Nat.lt_ge_cases k (length p)) as [Hk|Hk].
  - now apply Hp, nth_In.
  - now rewrite nth_overflow.
Qed.

Lemma to_rgba_ok m p : pixel_ok m p = true -> pixel_ok RGBA (to_rgba m p) = true.
Proof.
  intros Hp. destruct m; [| | |exact Hp];
    unfold pixel_ok in *; apply andb_true_iff in Hp; destruct Hp as [_ Hp];
    cbn [to_rgba length bands Nat.eqb forallb andb];
    rewrite ?(band_ok_nth p 0 Hp), ?(band_ok_nth p 1 Hp), ?(band_ok_nth p 2 Hp);
    reflexivity.
Qed.

Lemma ensure_RGBA_wf img :
  wf_image img = true ->
  wf_image (ensure_RGBA img) = true /\ mode (ensure_RGBA img) = RGBA /\
  width (ensure_RGBA img) = width img /\ height (ensure_RGBA img) = height img.
Proof.
  intros Hwf. unfold ensure_RGBA.
  destruct (mode_eqb (mode img) RGBA) eqn:Hm; cbn [negb].
  - repeat split; auto. now destruct (mode img).
  - repeat split; auto. unfold wf_image in *.
    cbn [convert_RGBA mode width height pixels].
    rewrite !andb_true_iff in *. destruct Hwf as [Hdims Hrows].
    rewrite length_map. split; [exact Hdims|].
    rewrite forallb_forall in *. intros row Hrow.
    apply in_map_iff in Hrow. destruct Hrow as (row0 & <- & Hin).
    apply Hrows in Hin. unfold row_ok in *. rewrite length_map.
    rewrite andb_true_iff in *. destruct Hin as [Hlen Hpx].
    split; [exact Hlen|]. rewrite forallb_forall in *.
    intros p Hp. apply in_map_iff in Hp. destruct Hp as (p0 & <- & Hp0).
    now apply to_rgba_ok, Hpx.
Qed.

(** The padded crop of a table box never fails, and with a positive padding
    it is never empty. *)
Lemma padded_crop_ok img b padding :
  wf_image img = true -> 0 <= padding ->
  box_within (width img) (height img) b ->
  exists sub, crop_with_padding img b padding = Ok sub /\
              wf_image sub = true /\ mode sub = mode img /\
              (0 < padding -> 0 < width img -> 0 < height img ->
               0 < width sub /\ 0 < height sub).
Proof.
  intros Hwf Hp Hb. pose proof (wf_image_inv _ Hwf) as (Hw & Hh & _).
  destruct b as [[[x y] bw] bh]. cbn [box_within] in Hb.
  unfold crop_with_padding, padded_box.
  rewrite crop_ok by lia. eexists. split; [reflexivity|].
  split; [apply cropped_wf; [exact Hwf|lia|lia]|].
  split; [reflexivity|]. cbn [cropped width height]. lia.
Qed.

Lemma autocrop_total img t :
  wf_image img = true ->
  exists c, autocrop_transparency img t = Ok c /\ wf_image c = true.
Proof.
  intros Hwf. destruct (autocrop_idempotent img t Hwf) as (c & Hc & Hwfc & _).
  now exists c.
Qed.

Lemma extract_loop_ok fs img output_dir padding :
  wf_image img = true -> 0 < padding -> 0 < width img -> 0 < height img ->
  forall elements extracted saved,
    Forall (fun e => box_within (width img) (height img) (box e)) elements ->
    Forall (fun e => open_w fs output_dir
                       (path_join output_dir (name e ++ ".png")) = Ok tt)
           elements ->
    exists extracted' saved' imgs,
      extract_loop fs img output_dir padding elements extracted saved
        = Ok (extracted', saved') /\
      map ex_name extracted' = map ex_name extracted ++ map name elements /\
      map original_box extracted' =
        map original_box extracted ++ map box elements /\
      map file extracted' =
        map file extracted ++
        map (fun e => path_join output_dir (name e ++ ".png")) elements /\
      map fst saved' =
        map fst saved ++
        map (fun e => path_join output_dir (name e ++ ".png")) elements /\
      length imgs = length elements /\
      map cropped_size extracted' =
        map cropped_size extracted ++ map (fun c => (width c, height c)) imgs /\
      map snd saved' = map snd saved ++ imgs /\
      Forall2 (fun e c =>
                 exists sub,
                   crop_with_padding img (box e) padding = Ok sub /\
                   wf_image sub = true /\
                   autocrop_transparency sub 10 = Ok c /\
                   0 < width c /\ 0 < height c)
              elements imgs.
Proof.
  intros Hwf Hp Hw0 Hh0 elements.
  induction elements as [|e rest IH]; intros extracted saved Hall Hopen.
  - exists extracted, saved, []. cbn [extract_loop map length].
    rewrite !app_nil_r. repeat split; auto.
  - inversion Hall as [|? ? He Hrest]; subst.
    inversion Hopen as [|? ? Hoe Horest]; subst.
    destruct (padded_crop_ok img (box e) padding Hwf (Z.lt_le_incl _ _ Hp) He)
      as (sub & Hsub & Hwfs & _ & Hpos).
    destruct (Hpos Hp Hw0 Hh0) as [Hws Hhs].
    destruct (autocrop_total sub 10 Hwfs) as (c & Hc & _).
    destruct (autocrop_positive sub 10 c Hwfs Hws Hhs Hc) as [Hwc Hhc].
    cbn [extract_loop]. rewrite Hsub. cbn [bind]. rewrite Hc. cbn [bind].
    unfold image_save. rewrite Hoe. cbn [bind].
    replace ((width c <=? 0) || (height c <=? 0)) with false
      by (symmetry; apply orb_false_iff; split; apply Z.leb_gt; assumption).
    cbn [bind].
    destruct (IH (extracted ++
                    [{| ex_name := name e; original_box := box e;
                        cropped_size := (width c, height c);
                        file := path_join output_dir (name e ++ ".png") |}])
                 (saved ++ [(path_join output_dir (name e ++ ".png"), c)])
                 Hrest Horest)
      as (ex' & sv' & imgs & Hloop & Hn & Hb & Hf & Hs & Hlen & Hsz & Hi & Hall2).
    exists ex', sv', (c :: imgs). split; [exact Hloop|].
    rewrite !map_app in Hn, Hb, Hf, Hs, Hsz, Hi.
    cbn [map ex_name original_box file cropped_size fst snd] in *.
    rewrite <- !app_assoc in Hn, Hb, Hf, Hs, Hsz, Hi. cbn [app length] in *.
    repeat split; try assumption; [now rewrite Hlen|].
    constructor; [|exact Hall2]. exists sub. auto.
Qed.

(** With a positive padding the loop raises no error of its own: what it
    raises is what the system answered on opening one of the files. *)
Lemma extract_loop_raises fs img output_dir padding :
  wf_image img = true -> 0 < padding -> 0 < width img -> 0 < height img ->
  forall elements extracted saved err,
    Forall (fun e => box_within (width img) (height img) (box e)) elements ->
    extract_loop fs img output_dir padding elements extracted saved
      = Raise err ->
    Exists (fun e => open_w fs output_dir
                       (path_join output_dir (name e ++ ".png")) = Raise err)
           elements.
Proof.
  intros Hwf Hp Hw0 Hh0 elements.
  induction elements as [|e rest IH]; intros extracted saved err Hall Hloop.
  - discriminate.
  - inversion Hall as [|? ? He Hrest]; subst.
    destruct (padded_crop_ok img (box e) padding Hwf (Z.lt_le_incl _ _ Hp) He)
      as (sub & Hsub & Hwfs & _ & Hpos).
    destruct (Hpos Hp Hw0 Hh0) as [Hws Hhs].
    destruct (autocrop_total sub 10 Hwfs) as (c & Hc & _).
    destruct (autocrop_positive sub 10 c Hwfs Hws Hhs Hc) as [Hwc Hhc].
    cbn [extract_loop] in Hloop. rewrite Hsub in Hloop. cbn [bind] in Hloop.
    rewrite Hc in Hloop. cbn [bind] in Hloop. unfold image_save in Hloop.
    destruct (open_w fs output_dir (path_join output_dir (name e ++ ".png")))
      as [[]|err'] eqn:Hoe; cbn [bind] in Hloop.
    + replace ((width c <=? 0) || (height c <=? 0)) with false in Hloop
        by (symmetry; apply orb_false_iff; split; apply Z.leb_gt; assumption).
      cbn [bind] in Hloop. apply Exists_cons_tl. exact (IH _ _ _ Hrest Hloop).
    + injection Hloop as <-. now apply Exists_cons_hd.
Qed.

(** [find_elements] on a well-formed image that opens, with a positive
    padding: nothing for a sheet without visible content; otherwise one
    record and one file per line of the region table if the file system
    accepts the directory and the files, and the error of the file system
    if it does not. *)
Lemma find_elements_ok fs image_path output_dir padding img :
  image_open fs image_path = Ok img -> wf_image img = true -> 0 < padding ->
  ((forall x y, ~ visible (ensure_RGBA img) 10 x y) /\
   find_elements fs image_path output_dir padding = Ok ([], [], fs))
  \/
  ((exists x y, visible (ensure_RGBA img) 10 x y) /\
   exists table,
     define_ui_regions (width img) (height img) = Ok table /\
     length table = 26%nat /\
     Forall (fun e => box_within (width img) (height img) (box e)) table /\
     (forall err,
        find_elements fs image_path output_dir padding = Raise err ->
        fs_refuses fs output_dir err) /\
     (forall fs',
        fs_accepts fs output_dir fs' ->
        exists extracted saved,
          find_elements fs image_path output_dir padding
            = Ok (extracted, saved, fs') /\
          map ex_name extracted = map name table /\
          map original_box extracted = map box table /\
          map file extracted =
            map (fun e => path_join output_dir (name e ++ ".png")) table /\
          map fst saved = map file extracted /\
          map cropped_size extracted =
            map (fun s => (width (snd s), height (snd s))) saved /\
          Forall2 (fun e c =>
                     exists sub,
                       crop_with_padding (ensure_RGBA img) (box e) padding
                         = Ok sub /\
                       wf_image sub = true /\
                       autocrop_transparency sub 10 = Ok c /\
                       0 < width c /\ 0 < height c)
                  table (map snd saved))).
Proof.
  intros Hopen Hwf Hp. unfold find_elements. rewrite Hopen. cbn [bind].
  destruct (ensure_RGBA_wf img Hwf) as (Hwf' & Hm & Hw & Hh).
  pose proof (content_bounds_spec (ensure_RGBA img) 10 Hwf' Hm) as Hspec.
  destruct (content_bounds (ensure_RGBA img) 10)
    as [[[[[r0 r1] c0] c1]|]|err]; [| |easy]; cbn [bind].
  - right. destruct Hspec as ((x & Hv) & _). split; [now exists x, r0|].
    pose proof Hv as (Hxpos & Hypos & _).
    pose proof (wf_image_inv _ Hwf) as (Hwb & Hhb & _).
    assert (H53 : 2 ^ 31 < 2 ^ 53) by (apply Z.pow_lt_mono_r; lia).
    destruct (define_ui_regions_ok (width img) (height img))
      as (table & Htab & Hlen & Hboxes); [lia|lia|].
    pose proof (define_ui_regions_names _ _ _ Htab) as Hnames.
    rewrite Hw, Hh, Htab. cbn [bind].
    exists table. do 3 (split; [first [assumption|reflexivity]|]).
    rewrite <- Hw, <- Hh in Hboxes.
    destruct (os_makedirs fs output_dir) as [fs1|err] eqn:Hmk; cbn [bind].
    + split.
      * intros err Hraise.
        destruct (extract_loop fs1 (ensure_RGBA img) output_dir padding
                    table [] []) as [[ex sv]|err'] eqn:Hloop;
          cbn [bind] in Hraise; [discriminate|].
        injection Hraise as <-.
        apply (extract_loop_raises fs1 (ensure_RGBA img) output_dir padding
                 Hwf' Hp ltac:(lia) ltac:(lia)) in Hloop; [|exact Hboxes].
        apply Exists_exists in Hloop. destruct Hloop as (e & Hin & Hoe).
        right. exists fs1, (name e). split; [exact Hmk|].
        split; [|exact Hoe]. rewrite <- Hnames. now apply in_map.
      * intros fs' (Hmk' & Hacc). rewrite Hmk in Hmk'. injection Hmk' as <-.
        assert (Hopens : Forall (fun e => open_w fs1 output_dir
                                   (path_join output_dir (name e ++ ".png"))
                                 = Ok tt) table).
        { apply Forall_forall. intros e Hin. apply Hacc.
          rewrite <- Hnames. now apply in_map. }
        destruct (extract_loop_ok fs1 (ensure_RGBA img) output_dir padding
                    Hwf' Hp ltac:(lia) ltac:(lia) table [] [] Hboxes Hopens)
          as (ex & sv & imgs & Hloop & Hn & Hb & Hf & Hs & _ & Hsz & Hi & Hall2).
        cbn [map app] in *. exists ex, sv. rewrite Hloop. cbn [bind].
        repeat split; try assumption; try congruence.
        rewrite Hsz, <- Hi. now rewrite map_map.
    + split.
      * intros err' Hraise. injection Hraise as <-. now left.
      * intros fs' (Hmk' & _). rewrite Hmk in Hmk'. discriminate.
  - left. split; [exact Hspec|reflexivity].
Qed.

(** What a successful run of the loop has done, whatever the image. *)
Lemma extract_loop_inv fs img output_dir padding :
  forall els extracted saved extracted' saved',
    extract_loop fs img output_dir padding els extracted saved
      = Ok (extracted', saved') ->
    exists imgs,
      Forall2 (fun e c =>
                 exists sub,
                   crop_with_padding img (box e) padding = Ok sub /\
                   autocrop_transparency sub 10 = Ok c /\
                   0 < width c /\ 0 < height c)
              els imgs /\
      extracted' =
        extracted ++ map (fun ec => entry_of output_dir (fst ec) (snd ec))
                         (combine els imgs) /\
      saved' =
        saved ++ map (fun ec => saved_of output_dir (fst ec) (snd ec))
                     (combine els imgs) /\
      Forall (fun e => open_w fs output_dir
                         (path_join output_dir (name e ++ ".png")) = Ok tt)
             els.
Proof.
  induction els as [|e rest IH]; intros ex sv ex' sv' Hloop.
  - cbn [extract_loop] in Hloop. injection Hloop as <- <-.
    exists []. cbn [combine map]. rewrite !app_nil_r. repeat split; constructor.
  - cbn [extract_loop] in Hloop.
    destruct (crop_with_padding img (box e) padding) as [sub|err] eqn:Hsub;
      [|discriminate].
    cbn [bind] in Hloop.
    destruct (autocrop_transparency sub 10) as [c|err] eqn:Hc; [|discriminate].
    cbn [bind] in Hloop. unfold image_save in Hloop.
    destruct (open_w fs output_dir (path_join output_dir (name e ++ ".png")))
      as [[]|err] eqn:Hoe; [|discriminate].
    cbn [bind] in Hloop.
    destruct ((width c <=? 0) || (height c <=? 0)) eqn:Hsz; [discriminate|].
    cbn [bind] in Hloop. apply orb_false_iff in Hsz. destruct Hsz as [Hw Hh].
    apply Z.leb_gt in Hw, Hh.
    destruct (IH _ _ _ _ Hloop) as (imgs & Hall & -> & -> & Hopens).
    exists (c :: imgs). split; [constructor; [now exists sub|exact Hall]|].
    cbn [combine map fst snd]. unfold entry_of at 2, saved_of at 2.
    rewrite <- !app_assoc. repeat split. now constructor.
Qed.

(** A successful [find_elements] opened an image and either found it empty,
    leaving the file system as it was, or made the directory and went
    through the whole table. *)
Lemma find_elements_inv fs image_path output_dir padding extracted saved fs' :
  find_elements fs image_path output_dir padding = Ok (extracted, saved, fs') ->
  exists img,
    image_open fs image_path = Ok img /\
    ((content_bounds (ensure_RGBA img) 10 = Ok None /\
      extracted = [] /\ saved = [] /\ fs' = fs)
     \/
     (exists b table imgs,
        content_bounds (ensure_RGBA img) 10 = Ok (Some b) /\
        define_ui_regions (width (ensure_RGBA img)) (height (ensure_RGBA img))
          = Ok table /\
        Forall2 (fun e c =>
                   exists sub,
                     crop_with_padding (ensure_RGBA img) (box e) padding
                       = Ok sub /\
                     autocrop_transparency sub 10 = Ok c /\
                     0 < width c /\ 0 < height c)
                table imgs /\
        extracted = map (fun ec => entry_of output_dir (fst ec) (snd ec))
                        (combine table imgs) /\
        saved = map (fun ec => saved_of output_dir (fst ec) (snd ec))
                    (combine table imgs) /\
        fs_accepts fs output_dir fs')).
Proof.
  unfold find_elements.
  destruct (image_open fs image_path) as [img|]; [|discriminate]. cbn [bind].
  intros H. exists img. split; [reflexivity|].
  destruct (content_bounds (ensure_RGBA img) 10) as [[b|]|e]; [| |discriminate];
    cbn [bind] in H.
  - right.
    destruct (define_ui_regions _ _) as [table|e] eqn:Htab; [|discriminate].
    cbn [bind] in H.
    destruct (os_makedirs fs output_dir) as [fs1|e] eqn:Hmk; [|discriminate].
    cbn [bind] in H.
    destruct (extract_loop fs1 _ _ _ _ _ _) as [[ex sv]|e] eqn:Hloop;
      [|discriminate].
    cbn [bind] in H. injection H as <- <- <-.
    apply extract_loop_inv in Hloop.
    destruct Hloop as (imgs & Hall & -> & -> & Hopens).
    exists b, table, imgs. repeat split; try assumption; try reflexivity.
    intros n Hn. rewrite <- (define_ui_regions_names _ _ _ Htab) in Hn.
    apply in_map_iff in Hn. destruct Hn as (e & <- & Hin).
    rewrite Forall_forall in Hopens. now apply Hopens.
  - left. injection H as <- <- <-. auto.
Qed.

Lemma combine_Forall2 {A B} (R : A -> B -> Prop) l l' :
  Forall2 R l l' ->
  map fst (combine l l') = l /\ map snd (combine l l') = l'.
Proof.
  induction 1 as [|a b l l' _ _ [IH1 IH2]]; [now split|].
  cbn [combine map fst snd]. now rewrite IH1, IH2.
Qed.

Lemma not_visible_iff img t :
  (forall x y, ~ visible img t x y) <->
  (forall x y, 0 <= x < width img -> 0 <= y < height img ->
               alpha_at img x y <= t).
Proof.
  unfold visible. split.
  - intros H x y Hx Hy. specialize (H x y). lia.
  - intros H x y (Hx & Hy & Ha). specialize (H x y Hx Hy). lia.
Qed.

(** * The claims *)

(** A pixel of a sample sheet is visible: the coordinates are compared, the
    opacity is computed. *)
Ltac visible_here :=
  unfold visible; cbn [square_image width height];
  split; [lia|]; split; [lia|]; vm_compute; reflexivity.

(** C1. On an image with a pixel whose opacity exceeds the threshold, the
    bounds computation returns [(row_min, row_max, col_min, col_max)] where
    [row_min] and [row_max] are the first and the last row that contain
    such a pixel and [col_min], [col_max] the first and the last such
    column: the four border lines each hold a visible pixel (tightness) and
    every visible pixel lies inside the rectangle, ends included. *)
Theorem C1_content_bounds_tight img threshold :
  wf_image img = true -> mode img = RGBA ->
  (exists x y, visible img threshold x y) ->
  exists row_min row_max col_min col_max,
    content_bounds img threshold
      = Ok (Some (row_min, row_max, col_min, col_max)) /\
    row_has_content img threshold row_min /\
    row_has_content img threshold row_max /\
    col_has_content img threshold col_min /\
    col_has_content img threshold col_max /\
    (forall y, row_has_content img threshold y -> row_min <= y <= row_max) /\
    (forall x, col_has_content img threshold x -> col_min <= x <= col_max) /\
    (forall x y, visible img threshold x y ->
                 col_min <= x <= col_max /\ row_min <= y <= row_max).
Proof.
  intros Hwf Hm (x & y & Hv).
  pose proof (content_bounds_spec img threshold Hwf Hm) as Hspec.
  destruct (content_bounds img threshold)
    as [[[[[r0 r1] c0] c1]|]|e]; [| |easy].
  - exists r0, r1, c0, c1. destruct Hspec as (Hr0 & Hr1 & Hc0 & Hc1 & Hall).
    repeat split; auto.
    + destruct H as (x' & Hv'). now apply Hall in Hv'.
    + destruct H as (x' & Hv'). now apply Hall in Hv'.
    + destruct H as (y' & Hv'). now apply Hall in Hv'.
    + destruct H as (y' & Hv'). now apply Hall in Hv'.
    + now apply Hall in H.
    + now apply Hall in H.
    + now apply Hall in H.
    + now apply Hall in H.
  - now apply Hspec in Hv.
Qed.

Lemma C1_witness :
  exists row_min row_max col_min col_max,
    content_bounds (square_image 8 6 2 5) 10
      = Ok (Some (row_min, row_max, col_min, col_max)) /\
    row_has_content (square_image 8 6 2 5) 10 row_min /\
    row_has_content (square_image 8 6 2 5) 10 row_max /\
    col_has_content (square_image 8 6 2 5) 10 col_min /\
    col_has_content (square_image 8 6 2 5) 10 col_max /\
    (forall y, row_has_content (square_image 8 6 2 5) 10 y ->
               row_min <= y <= row_max) /\
    (forall x, col_has_content (square_image 8 6 2 5) 10 x ->
               col_min <= x <= col_max) /\
    (forall x y, visible (square_image 8 6 2 5) 10 x y ->
                 col_min <= x <= col_max /\ row_min <= y <= row_max).
Proof.
  apply (C1_content_bounds_tight (square_image 8 6 2 5) 10).
  - vm_compute. reflexivity.
  - reflexivity.
  - exists 3, 4. visible_here.
Defined.

(** C2. On an image where no pixel's opacity exceeds the threshold the
    bounds computation returns the "no content" value [None]: a normal
    result, not an exception. It is returned in that case only, so the
    caller tells it from a rectangle. *)
Theorem C2_no_content_sentinel img threshold :
  wf_image img = true -> mode img = RGBA ->
  (forall x y, 0 <= x < width img -> 0 <= y < height img ->
               alpha_at img x y <= threshold) ->
  content_bounds img threshold = Ok None /\
  (forall b, content_bounds img threshold <> Ok (Some b)) /\
  (forall e, content_bounds img threshold <> Raise e) /\
  (forall img', wf_image img' = true -> mode img' = RGBA ->
     content_bounds img' threshold = Ok None ->
     forall x y, ~ visible img' threshold x y).
Proof.
  intros Hwf Hm Hnone.
  pose proof (proj2 (not_visible_iff img threshold) Hnone) as Hinv.
  assert (Hres : content_bounds img threshold = Ok None).
  { pose proof (content_bounds_spec img threshold Hwf Hm) as Hspec.
    destruct (content_bounds img threshold)
      as [[[[[r0 r1] c0] c1]|]|e]; [|reflexivity|easy].
    destruct Hspec as ((x & Hv) & _). now apply Hinv in Hv. }
  rewrite Hres. repeat split; try discriminate.
  intros img' Hwf' Hm' Hres'.
  pose proof (content_bounds_spec img' threshold Hwf' Hm') as Hspec.
  now rewrite Hres' in Hspec.
Qed.

Lemma blank_alpha w h x y : alpha_at (blank_image w h) x y = 0.
Proof.
  unfold alpha_at, blank_image, square_image. cbn [pixels].
  destruct (Nat.lt_ge_cases (Z.to_nat y) (length (zrange 0 h))) as [Hy|Hy].
  - rewrite (nth_map_in _ (zrange 0 h) _ [] 0 Hy). cbv beta.
    destruct (Nat.lt_ge_cases (Z.to_nat x) (length (zrange 0 w))) as [Hx|Hx].
    + rewrite (@nth_map_in Z pixel _ (zrange 0 w) _ [] 0 Hx). cbv beta.
      match goal with |- alpha_of (if ?b then _ else _) = 0 =>
        replace b with false; [reflexivity|]
      end.
      symmetry. rewrite !andb_false_iff, !Z.leb_gt, !Z.ltb_ge.
      pose proof (zrange_nth 0 w (Z.to_nat x) 0) as Hn.
      rewrite zrange_length in Hx. specialize (Hn Hx). lia.
    + rewrite (@nth_overflow pixel (map _ (zrange 0 w)) (Z.to_nat x) []);
        [reflexivity|now rewrite length_map].
  - rewrite (@nth_overflow (list pixel) (map _ (zrange 0 h)) (Z.to_nat y) []);
      [now destruct (Z.to_nat x)|now rewrite length_map].
Qed.

Lemma C2_witness :
  content_bounds (blank_image 5 4) 10 = Ok None /\
  (forall b, content_bounds (blank_image 5 4) 10 <> Ok (Some b)) /\
  (forall e, content_bounds (blank_image 5 4) 10 <> Raise e) /\
  (forall img', wf_image img' = true -> mode img' = RGBA ->
     content_bounds img' 10 = Ok None ->
     forall x y, ~ visible img' 10 x y).
Proof.
  apply (C2_no_content_sentinel (blank_image 5 4) 10).
  - vm_compute. reflexivity.
  - reflexivity.
  - intros x y _ _. rewrite blank_alpha. lia.
Defined.

(** C3. On an image with a visible pixel [autocrop_transparency] returns
    the crop whose box ends at [col_max + 1] and [row_max + 1]: the new
    image is [col_max - col_min + 1] wide and [row_max - row_min + 1] high
    and holds exactly the pixels of the content box, both ends included. *)
Theorem C3_crop_inclusive img threshold :
  wf_image img = true -> mode img = RGBA ->
  (exists x y, visible img threshold x y) ->
  exists row_min row_max col_min col_max out,
    content_bounds img threshold
      = Ok (Some (row_min, row_max, col_min, col_max)) /\
    autocrop_transparency img threshold = Ok out /\
    crop img (col_min, row_min, col_max + 1, row_max + 1) = Ok out /\
    mode out = mode img /\
    width out = col_max - col_min + 1 /\
    height out = row_max - row_min + 1 /\
    Z.of_nat (length (pixels out)) = height out /\
    (forall y, 0 <= y < height out ->
       Z.of_nat (length (nth (Z.to_nat y) (pixels out) [])) = width out) /\
    (forall x y, 0 <= x < width out -> 0 <= y < height out ->
       0 <= col_min + x < width img /\ 0 <= row_min + y < height img /\
       nth (Z.to_nat x) (nth (Z.to_nat y) (pixels out) []) [] =
       nth (Z.to_nat (col_min + x))
           (nth (Z.to_nat (row_min + y)) (pixels img) []) []).
Proof.
  intros Hwf Hm (x & y & Hv).
  destruct (autocrop_cases img threshold Hwf Hm)
    as [(_ & Hnone & _)
       |(r0 & r1 & c0 & c1 & Hb & Hcut & Hc & Hc1 & Hr & Hr1 & _)].
  { now apply Hnone in Hv. }
  exists r0, r1, c0, c1, (cropped img c0 r0 (c1 + 1) (r1 + 1)).
  assert (Hwfc : wf_image (cropped img c0 r0 (c1 + 1) (r1 + 1)) = true)
    by (apply cropped_wf; [assumption|lia|lia]).
  pose proof (wf_image_inv _ Hwfc) as (_ & _ & Hlen & _).
  split; [exact Hb|]. split; [exact Hcut|]. split; [apply crop_ok; lia|].
  split; [reflexivity|]. cbn [cropped width height] in *.
  split; [lia|]. split; [lia|]. split; [exact Hlen|]. split.
  - intros y' Hy'. rewrite wf_row_length by (auto; lia). cbn [cropped width]. lia.
  - intros x' y' Hx' Hy'. split; [lia|]. split; [lia|].
    rewrite cropped_pixel by lia. apply pixel_at_inside; [assumption|lia|lia].
Qed.

Lemma C3_witness :
  exists row_min row_max col_min col_max out,
    content_bounds (square_image 8 6 2 5) 10
      = Ok (Some (row_min, row_max, col_min, col_max)) /\
    autocrop_transparency (square_image 8 6 2 5) 10 = Ok out /\
    crop (square_image 8 6 2 5) (col_min, row_min, col_max + 1, row_max + 1)
      = Ok out /\
    mode out = mode (square_image 8 6 2 5) /\
    width out = col_max - col_min + 1 /\
    height out = row_max - row_min + 1 /\
    Z.of_nat (length (pixels out)) = height out /\
    (forall y, 0 <= y < height out ->
       Z.of_nat (length (nth (Z.to_nat y) (pixels out) [])) = width out) /\
    (forall x y, 0 <= x < width out -> 0 <= y < height out ->
       0 <= col_min + x < width (square_image 8 6 2 5) /\
       0 <= row_min + y < height (square_image 8 6 2 5) /\
       nth (Z.to_nat x) (nth (Z.to_nat y) (pixels out) []) [] =
       nth (Z.to_nat (col_min + x))
           (nth (Z.to_nat (row_min + y)) (pixels (square_image 8 6 2 5)) [])
           []).
Proof.
  apply (C3_crop_inclusive (square_image 8 6 2 5) 10).
  - vm_compute. reflexivity.
  - reflexivity.
  - exists 2, 2. visible_here.
Defined.

(** C5. [autocrop_transparency] is idempotent: it returns an image, and
    applied to that image (with the same threshold) it returns it again. *)
Theorem C5_autocrop_idempotent img threshold :
  wf_image img = true ->
  exists out,
    autocrop_transparency img threshold = Ok out /\
    autocrop_transparency out threshold = Ok out /\
    (out' <- autocrop_transparency img threshold ;;
     autocrop_transparency out' threshold)
    = autocrop_transparency img threshold.
Proof.
  intros Hwf.
  destruct (autocrop_idempotent img threshold Hwf) as (c & Hc & _ & Hcc).
  exists c. rewrite Hc. cbn [bind]. auto.
Qed.

Lemma C5_witness :
  exists out,
    autocrop_transparency (square_image 8 6 2 5) 10 = Ok out /\
    autocrop_transparency out 10 = Ok out /\
    (out' <- autocrop_transparency (square_image 8 6 2 5) 10 ;;
     autocrop_transparency out' 10)
    = autocrop_transparency (square_image 8 6 2 5) 10.
Proof.
  apply (C5_autocrop_idempotent (square_image 8 6 2 5) 10).
  vm_compute. reflexivity.
Defined.

(** C6. For a rectangle [x, y, w, h] inside the image and a padding that is
    not negative, the box of lines 64-67 is the rectangle grown by the
    padding on its four sides and cut to the image: it holds the rectangle,
    stays within [0, width] x [0, height], and the crop reads source pixels
    only, none from outside the image. *)
Theorem C6_padded_box_clamped img x y w h padding :
  wf_image img = true ->
  0 <= x -> 0 <= y -> 0 <= w -> 0 <= h ->
  x + w <= width img -> y + h <= height img ->
  0 <= padding ->
  exists x1 y1 x2 y2 sub,
    padded_box img (x, y, w, h) padding = (x1, y1, x2, y2) /\
    (forall px, x1 <= px < x2 <->
                x - padding <= px < x + w + padding /\ 0 <= px < width img) /\
    (forall py, y1 <= py < y2 <->
                y - padding <= py < y + h + padding /\ 0 <= py < height img) /\
    0 <= x1 <= x /\ x + w <= x2 <= width img /\
    0 <= y1 <= y /\ y + h <= y2 <= height img /\
    crop_with_padding img (x, y, w, h) padding = Ok sub /\
    width sub = x2 - x1 /\ height sub = y2 - y1 /\
    (forall i j, 0 <= i < width sub -> 0 <= j < height sub ->
       0 <= x1 + i < width img /\ 0 <= y1 + j < height img /\
       nth (Z.to_nat i) (nth (Z.to_nat j) (pixels sub) []) [] =
       nth (Z.to_nat (x1 + i)) (nth (Z.to_nat (y1 + j)) (pixels img) []) []).
Proof.
  intros Hwf Hx Hy Hw Hh Hxw Hyh Hp.
  exists (Z.max 0 (x - padding)), (Z.max 0 (y - padding)),
         (Z.min (width img) (x + w + padding)),
         (Z.min (height img) (y + h + padding)).
  eexists. split; [reflexivity|].
  split; [intros px; lia|]. split; [intros py; lia|].
  split; [lia|]. split; [lia|]. split; [lia|]. split; [lia|].
  unfold crop_with_padding, padded_box. rewrite crop_ok by lia.
  split; [reflexivity|]. cbn [cropped width height].
  split; [reflexivity|]. split; [reflexivity|].
  intros i j Hi Hj. split; [lia|]. split; [lia|].
  rewrite cropped_pixel by lia. apply pixel_at_inside; [assumption|lia|lia].
Qed.

Lemma C6_witness :
  exists x1 y1 x2 y2 sub,
    padded_box (square_image 100 100 40 50) (30, 30, 40, 40) 20
      = (x1, y1, x2, y2) /\
    (forall px, x1 <= px < x2 <->
                30 - 20 <= px < 30 + 40 + 20 /\
                0 <= px < width (square_image 100 100 40 50)) /\
    (forall py, y1 <= py < y2 <->
                30 - 20 <= py < 30 + 40 + 20 /\
                0 <= py < height (square_image 100 100 40 50)) /\
    0 <= x1 <= 30 /\ 30 + 40 <= x2 <= width (square_image 100 100 40 50) /\
    0 <= y1 <= 30 /\ 30 + 40 <= y2 <= height (square_image 100 100 40 50) /\
    crop_with_padding (square_image 100 100 40 50) (30, 30, 40, 40) 20 = Ok sub /\
    width sub = x2 - x1 /\ height sub = y2 - y1 /\
    (forall i j, 0 <= i < width sub -> 0 <= j < height sub ->
       0 <= x1 + i < width (square_image 100 100 40 50) /\
       0 <= y1 + j < height (square_image 100 100 40 50) /\
       nth (Z.to_nat i) (nth (Z.to_nat j) (pixels sub) []) [] =
       nth (Z.to_nat (x1 + i))
           (nth (Z.to_nat (y1 + j)) (pixels (square_image 100 100 40 50)) [])
           []).
Proof.
  apply (C6_padded_box_clamped (square_image 100 100 40 50) 30 30 40 40 20);
    try (cbn [square_image width height]; lia).
  vm_compute. reflexivity.
Defined.

(** C4. With the padding 0 the region [icon_heart] of a 20 x 20 sheet is
    zero pixels wide. Its crop has no pixel above the threshold and comes
    back from [autocrop_transparency] as it is, that is as an image
    without pixels, and saving it aborts the run. *)
Lemma C4_counterexample :
  exists table sub,
    define_ui_regions 20 20 = Ok table /\
    nth_error table 10 =
      Some {| name := "icon_heart"; box := (7, 1, 0, 2) |} /\
    crop_with_padding (square_image 20 20 5 10) (7, 1, 0, 2) 0 = Ok sub /\
    wf_image sub = true /\
    (forall x y, 0 <= x < width sub -> 0 <= y < height sub ->
                 alpha_at sub x y <= 10) /\
    autocrop_transparency sub 10 = Ok sub /\
    width sub = 0 /\
    find_elements (single_file "sheet.png" (square_image 20 20 5 10))
                  "sheet.png" "out" 0 = Raise ValueError.
Proof.
  eexists. eexists. split; [vm_compute; reflexivity|].
  split; [reflexivity|]. split; [vm_compute; reflexivity|].
  split; [vm_compute; reflexivity|].
  split; [cbn [width]; intros x y Hx; lia|].
  split; [vm_compute; reflexivity|].
  split; [reflexivity|]. vm_compute. reflexivity.
Qed.

(** C4, amended. An image in which no pixel's opacity exceeds the
    threshold comes back from [autocrop_transparency] as it is: no
    exception, and the size it had. With a positive padding, as the
    default 20, no region of a well-formed sheet that opens makes
    [find_elements] abort, whatever the regions show: an error it raises
    is one the file system answered on making the directory or opening a
    file, and when the file system accepts these the run returns and every
    image saved has a positive width and height. *)
Theorem C4_no_content_kept img threshold :
  wf_image img = true ->
  (forall x y, 0 <= x < width img -> 0 <= y < height img ->
               alpha_at img x y <= threshold) ->
  autocrop_transparency img threshold = Ok img /\
  (forall fs image_path output_dir padding sheet,
     image_open fs image_path = Ok sheet -> wf_image sheet = true ->
     0 < padding ->
     (forall e, find_elements fs image_path output_dir padding = Raise e ->
                fs_refuses fs output_dir e) /\
     (forall fs',
        fs_accepts fs output_dir fs' ->
        exists extracted saved fs'',
          find_elements fs image_path output_dir padding
            = Ok (extracted, saved, fs'') /\
          Forall (fun s => 0 < width (snd s) /\ 0 < height (snd s)) saved)).
Proof.
  intros Hwf Hle.
  pose proof (proj2 (not_visible_iff img threshold) Hle) as Hnone. split.
  - destruct (mode_RGBA_dec img) as [Hm|Hm];
      [|now apply autocrop_not_RGBA].
    destruct (autocrop_cases img threshold Hwf Hm)
      as [(_ & _ & Hsame)|(r0 & _ & _ & _ & _ & _ & _ & _ & _ & _ & Hr0 & _)];
      [exact Hsame|].
    destruct Hr0 as (x & Hv). now apply Hnone in Hv.
  - intros fs image_path output_dir padding sheet Hopen Hwfs Hp.
    destruct (find_elements_ok fs image_path output_dir padding sheet
                Hopen Hwfs Hp)
      as [(_ & Hfind)|(_ & table & _ & _ & _ & Hraise & Hok)].
    + split.
      * intros e He. rewrite Hfind in He. discriminate.
      * intros fs' _. exists [], [], fs. split; [exact Hfind|constructor].
    + split; [exact Hraise|]. intros fs' Hacc.
      destruct (Hok fs' Hacc)
        as (ex & sv & Hfind & _ & _ & _ & _ & _ & Hall2).
      exists ex, sv, fs'. split; [exact Hfind|].
      assert (Hall : Forall (fun c => 0 < width c /\ 0 < height c)
                            (map snd sv)).
      { clear - Hall2.
        induction Hall2 as [|e c t l (sub & _ & _ & _ & Hc) _ IH];
          constructor; assumption. }
      rewrite Forall_map in Hall. exact Hall.
Qed.

Lemma C4_witness :
  autocrop_transparency (blank_image 5 4) 10 = Ok (blank_image 5 4) /\
  (forall fs image_path output_dir padding sheet,
     image_open fs image_path = Ok sheet -> wf_image sheet = true ->
     0 < padding ->
     (forall e, find_elements fs image_path output_dir padding = Raise e ->
                fs_refuses fs output_dir e) /\
     (forall fs',
        fs_accepts fs output_dir fs' ->
        exists extracted saved fs'',
          find_elements fs image_path output_dir padding
            = Ok (extracted, saved, fs'') /\
          Forall (fun s => 0 < width (snd s) /\ 0 < height (snd s)) saved)).
Proof.
  apply (C4_no_content_kept (blank_image 5 4) 10).
  - vm_compute. reflexivity.
  - intros x y _ _. rewrite blank_alpha. lia.
Defined.

Lemma main_unfold fs argv :
  main fs argv =
  '(extracted, saved, fs') <-
     find_elements fs (nth 1 argv default_input_path)
                   (nth 2 argv default_output_dir) 20 ;;
  _ <- open_w fs' (nth 2 argv default_output_dir)
         (path_join (nth 2 argv default_output_dir) "metadata.json") ;;
  Ok ({| source := nth 1 argv default_input_path;
         elements := extracted;
         total := Z.of_nat (length extracted) |}, saved).
Proof.
  unfold main.
  assert (H1 : (if (1 <? length argv)%nat
                then nth 1 argv default_input_path else default_input_path)
               = nth 1 argv default_input_path).
  { destruct (Nat.ltb_spec 1 (length argv)); [reflexivity|].
    now rewrite nth_overflow. }
  assert (H2 : (if (2 <? length argv)%nat
                then nth 2 argv default_output_dir else default_output_dir)
               = nth 2 argv default_output_dir).
  { destruct (Nat.ltb_spec 2 (length argv)); [reflexivity|].
    now rewrite nth_overflow. }
  cbv zeta. now rewrite H1, H2.
Qed.

(** C7. The failing run: a fully transparent 50 x 50 sheet, and an output
    directory that is not there yet. [find_elements] returns the empty
    list at line 44, before the [os.makedirs] of line 57, and leaves the
    file system as it was; [main] then raises on opening [metadata.json]
    in the missing directory, with the output directory given or by
    default, so that no metadata is written. On a sheet with content the
    same call makes the directory and writes the metadata, and so does the
    transparent sheet once the directory is there, with [total = 0].
    Whenever metadata is written, [total] is the number of entries of
    [elements]. *)
Theorem C7_transparent_sheet_no_metadata :
  find_elements (single_file "sheet.png" (blank_image 50 50))
                "sheet.png" "out" 20
    = Ok ([], [], single_file "sheet.png" (blank_image 50 50)) /\
  stat (single_file "sheet.png" (blank_image 50 50)) "out" = None /\
  main (single_file "sheet.png" (blank_image 50 50))
       ["prog"; "sheet.png"; "out"]%string = Raise FileNotFoundError /\
  main (single_file "sheet.png" (blank_image 50 50))
       ["prog"; "sheet.png"]%string = Raise FileNotFoundError /\
  (exists md saved,
     main (single_file "sheet.png" (square_image 50 50 5 10))
          ["prog"; "sheet.png"; "out"]%string = Ok (md, saved) /\
     total md = 26) /\
  main (mkdir (single_file "sheet.png" (blank_image 50 50)) "out")
       ["prog"; "sheet.png"; "out"]%string
    = Ok ({| source := "sheet.png"; elements := []; total := 0 |}, []) /\
  (forall fs argv md saved,
     main fs argv = Ok (md, saved) ->
     total md = Z.of_nat (length (elements md))).
Proof.
  split; [vm_compute; reflexivity|]. split; [reflexivity|].
  split; [vm_compute; reflexivity|]. split; [vm_compute; reflexivity|].
  split; [|split; [vm_compute; reflexivity|]].
  - eexists. eexists. split; [vm_compute; reflexivity|]. reflexivity.
  - intros fs argv md saved. rewrite main_unfold.
    destruct (find_elements fs _ _ 20) as [[[ex sv] fs1]|e]; cbn [bind];
      [|discriminate].
    destruct (open_w fs1 _ _); cbn [bind]; [|discriminate].
    intros H. injection H as <- _. reflexivity.
Qed.

(** C8. The scenario: a 100 x 100 sheet, transparent except for a 10 x 10
    opaque square whose first pixel is (40, 40), threshold 10. The bounds
    returned are [(40, 40, 50, 50)] as inclusive corners or
    [(40, 40, 10, 10)] as x, y, width, height: the second holds, the rows
    and columns found being 40..49, and [(40, 40, 50, 50)] is the box with
    exclusive end that is cropped. When the square is taken to reach row
    and column 50 included, the first holds. *)
Theorem C8_scenario_square :
  wf_image (square_image 100 100 40 50) = true /\
  (exists b,
     content_bounds (square_image 100 100 40 50) 10 = Ok (Some b) /\
     (corners_inclusive b = (40, 40, 50, 50) \/ xywh b = (40, 40, 10, 10)) /\
     xywh b = (40, 40, 10, 10) /\
     crop_box b = (40, 40, 50, 50) /\
     corners_inclusive b = (40, 40, 49, 49)) /\
  (exists b,
     content_bounds (square_image 100 100 40 51) 10 = Ok (Some b) /\
     (corners_inclusive b = (40, 40, 50, 50) \/ xywh b = (40, 40, 10, 10)) /\
     corners_inclusive b = (40, 40, 50, 50) /\
     xywh b = (40, 40, 11, 11)).
Proof.
  split; [vm_compute; reflexivity|]. split.
  - exists (40, 49, 40, 49). split; [vm_compute; reflexivity|].
    split; [now right|]. repeat split.
  - exists (40, 50, 40, 50). split; [vm_compute; reflexivity|].
    split; [now left|]. repeat split.
Qed.

(** C9. The region table has 26 lines, so on a sheet with a visible pixel
    [main] reports [total = 26], which is neither 0 nor 25. On the same
    sheet nothing is returned with the padding 0, where a region without
    width stops the run, nor with the empty output directory, which
    [os.makedirs] does not make. *)
Lemma C9_counterexample :
  visible (square_image 20 20 5 10) 10 5 5 /\
  (exists md saved,
     main (single_file "sheet.png" (square_image 20 20 5 10))
          ["prog"; "sheet.png"; "out"]%string = Ok (md, saved) /\
     length (elements md) = 26%nat /\
     total md = 26 /\
     ~ (total md = 0 \/ total md = 25)) /\
  find_elements (single_file "sheet.png" (square_image 20 20 5 10))
                "sheet.png" "out" 0 = Raise ValueError /\
  find_elements (single_file "sheet.png" (square_image 20 20 5 10))
                "sheet.png" "" 20 = Raise FileNotFoundError.
Proof.
  split; [visible_here|]. split.
  - eexists. eexists. split; [vm_compute; reflexivity|].
    cbn [elements total length]. split; [reflexivity|].
    split; [reflexivity|]. intros [H|H]; discriminate.
  - split; vm_compute; reflexivity.
Qed.

(** C9, amended. On a well-formed sheet that opens and has a pixel above
    the threshold 10, [find_elements] never returns part of the table:
    whenever it returns, it returns one record and has saved one file for
    each of the 26 lines of the region table, in the order of the table,
    whatever the regions show. With a positive padding, as the default 20
    that [main] uses, it does return when the file system accepts the
    output directory and the files. The [total] that [main] writes is
    therefore 0 or 26. *)
Theorem C9_one_element_per_region fs image_path output_dir padding img :
  image_open fs image_path = Ok img -> wf_image img = true ->
  (exists x y, visible (ensure_RGBA img) 10 x y) ->
  exists table,
    define_ui_regions (width img) (height img) = Ok table /\
    length table = 26%nat /\
    (forall extracted saved fs',
       find_elements fs image_path output_dir padding
         = Ok (extracted, saved, fs') ->
       map ex_name extracted = map name table /\
       map original_box extracted = map box table /\
       map fst saved = map file extracted /\
       length extracted = 26%nat /\
       length saved = 26%nat) /\
    (0 < padding ->
     forall fs',
       fs_accepts fs output_dir fs' ->
       exists extracted saved,
         find_elements fs image_path output_dir padding
           = Ok (extracted, saved, fs')) /\
    (forall fs0 argv md saved',
       main fs0 argv = Ok (md, saved') -> total md = 0 \/ total md = 26).
Proof.
  intros Hopen Hwf (x & y & Hv).
  destruct (ensure_RGBA_wf img Hwf) as (Hwf' & Hm & Hw & Hh).
  pose proof (wf_image_inv _ Hwf) as (Hwb & Hhb & _).
  assert (H53 : 2 ^ 31 < 2 ^ 53) by (apply Z.pow_lt_mono_r; lia).
  destruct (define_ui_regions_ok (width img) (height img))
    as (table & Htab & Hlen & _); [lia|lia|].
  exists table. split; [exact Htab|]. split; [exact Hlen|]. split; [|split].
  - intros ex sv fs' Hfind. apply find_elements_inv in Hfind.
    destruct Hfind as (img' & Hopen' & Hcases).
    rewrite Hopen in Hopen'. injection Hopen' as <-.
    destruct Hcases
      as [(Hb & _)|(b & table' & imgs & _ & Htab' & Hall & -> & -> & _)].
    { pose proof (content_bounds_spec (ensure_RGBA img) 10 Hwf' Hm) as Hspec.
      rewrite Hb in Hspec. now apply Hspec in Hv. }
    rewrite Hw, Hh, Htab in Htab'. injection Htab' as <-.
    destruct (combine_Forall2 _ _ _ Hall) as [Hfst Hsnd].
    rewrite !map_map. cbn [entry_of saved_of fst ex_name original_box file].
    rewrite !length_map.
    assert (Hcomb : length (combine table imgs) = 26%nat)
      by (rewrite <- (length_map fst), Hfst; exact Hlen).
    repeat split; try exact Hcomb.
    + rewrite <- Hfst at 2. now rewrite map_map.
    + rewrite <- Hfst at 2. now rewrite map_map.
  - intros Hp fs' Hacc.
    destruct (find_elements_ok fs image_path output_dir padding img
                Hopen Hwf Hp)
      as [(Hnone & _)|(_ & table' & _ & _ & _ & _ & Hok)].
    { now apply Hnone in Hv. }
    destruct (Hok fs' Hacc) as (ex & sv & Hfind & _). now exists ex, sv.
  - intros fs0 argv md sv. rewrite main_unfold.
    destruct (find_elements fs0 _ _ 20) as [[[ex sv'] fs1]|e] eqn:Hfind;
      cbn [bind]; [|discriminate].
    destruct (open_w fs1 _ _); cbn [bind]; [|discriminate].
    intros H. injection H as <- _. cbn [total].
    apply find_elements_inv in Hfind.
    destruct Hfind
      as (img0 & _ & [(_ & -> & _)
                     |(b & table0 & imgs & _ & Htab0 & Hall & -> & _)]).
    + now left.
    + right. destruct (combine_Forall2 _ _ _ Hall) as [Hfst _].
      rewrite length_map, <- (length_map fst), Hfst.
      rewrite <- (length_map name), (define_ui_regions_names _ _ _ Htab0).
      reflexivity.
Qed.

Lemma C9_witness :
  exists table,
    define_ui_regions (width (square_image 20 20 5 10))
                      (height (square_image 20 20 5 10)) = Ok table /\
    length table = 26%nat /\
    (forall extracted saved fs',
       find_elements (single_file "sheet.png" (square_image 20 20 5 10))
                     "sheet.png" "out" 20
         = Ok (extracted, saved, fs') ->
       map ex_name extracted = map name table /\
       map original_box extracted = map box table /\
       map fst saved = map file extracted /\
       length extracted = 26%nat /\
       length saved = 26%nat) /\
    (0 < 20 ->
     forall fs',
       fs_accepts (single_file "sheet.png" (square_image 20 20 5 10))
                  "out" fs' ->
       exists extracted saved,
         find_elements (single_file "sheet.png" (square_image 20 20 5 10))
                       "sheet.png" "out" 20
           = Ok (extracted, saved, fs')) /\
    (forall fs0 argv md saved',
       main fs0 argv = Ok (md, saved') -> total md = 0 \/ total md = 26).
Proof.
  apply (C9_one_element_per_region
           (single_file "sheet.png" (square_image 20 20 5 10))
           "sheet.png" "out" 20 (square_image 20 20 5 10)).
  - vm_compute. reflexivity.
  - vm_compute. reflexivity.
  - exists 5, 5. change (ensure_RGBA (square_image 20 20 5 10))
      with (square_image 20 20 5 10).
    visible_here.
Defined.

Lemma convert_alpha img x y :
  wf_image img = true -> mode img = RGB \/ mode img = L ->
  0 <= x < width img -> 0 <= y < height img ->
  alpha_at (convert_RGBA img) x y = 255.
Proof.
  intros Hwf Hm Hx Hy. pose proof (wf_image_inv _ Hwf) as (_ & _ & Hlen & _).
  assert (Hy' : (Z.to_nat y < length (pixels img))%nat) by lia.
  pose proof (wf_row_length _ _ Hwf Hy') as Hrow.
  unfold alpha_at, convert_RGBA. cbn [pixels].
  rewrite (@nth_map_in (list pixel) (list pixel) _ (pixels img) _ [] [] Hy').
  rewrite (@nth_map_in pixel pixel _ _ (Z.to_nat x) [] []) by lia.
  destruct Hm as [-> | ->]; reflexivity.
Qed.

(** C10. An image whose mode is not RGBA comes back from
    [autocrop_transparency] as it is, whatever its pixels: it is not read
    as opaque content and not converted. The conversion is the loader's:
    [find_elements] works on [ensure_RGBA], which has mode RGBA and, for
    an image without alpha band, opacity 255 everywhere. *)
Theorem C10_non_RGBA_unchanged img threshold :
  mode img <> RGBA ->
  autocrop_transparency img threshold = Ok img /\
  (forall px, autocrop_transparency
                {| mode := mode img; width := width img;
                   height := height img; pixels := px |} threshold
              = Ok {| mode := mode img; width := width img;
                      height := height img; pixels := px |}) /\
  ensure_RGBA img = convert_RGBA img /\
  mode (ensure_RGBA img) = RGBA /\
  (wf_image img = true -> mode img = RGB \/ mode img = L ->
   forall x y, 0 <= x < width img -> 0 <= y < height img ->
               alpha_at (ensure_RGBA img) x y = 255).
Proof.
  intros Hm. split; [now apply autocrop_not_RGBA|].
  split; [intros px; now apply autocrop_not_RGBA|].
  assert (He : ensure_RGBA img = convert_RGBA img).
  { unfold ensure_RGBA. destruct (mode img); try reflexivity. congruence. }
  rewrite He. repeat split.
  intros Hwf Hmode x y Hx Hy. now apply convert_alpha.
Qed.

Lemma C10_witness :
  autocrop_transparency (grey_rgb_image 3 2) 10 = Ok (grey_rgb_image 3 2) /\
  (forall px, autocrop_transparency
                {| mode := mode (grey_rgb_image 3 2);
                   width := width (grey_rgb_image 3 2);
                   height := height (grey_rgb_image 3 2); pixels := px |} 10
              = Ok {| mode := mode (grey_rgb_image 3 2);
                      width := width (grey_rgb_image 3 2);
                      height := height (grey_rgb_image 3 2); pixels := px |}) /\
  ensure_RGBA (grey_rgb_image 3 2) = convert_RGBA (grey_rgb_image 3 2) /\
  mode (ensure_RGBA (grey_rgb_image 3 2)) = RGBA /\
  (wf_image (grey_rgb_image 3 2) = true ->
   mode (grey_rgb_image 3 2) = RGB \/ mode (grey_rgb_image 3 2) = L ->
   forall x y, 0 <= x < width (grey_rgb_image 3 2) ->
               0 <= y < height (grey_rgb_image 3 2) ->
               alpha_at (ensure_RGBA (grey_rgb_image 3 2)) x y = 255).
Proof.
  apply (C10_non_RGBA_unchanged (grey_rgb_image 3 2) 10).
  cbn [grey_rgb_image mode]. discriminate.
Defined.

(** ** Reference values

    The float model against CPython: the 24 literals of the table, as
    [float.hex] prints them (0.02 is [0x1.47ae147ae147bp-6], mantissa
    [0x147ae147ae147b] and exponent [-6 - 52]); some products; and boxes of
    the table on the 12917 x 3750 sheet the script was written for. *)
Example literals_reference :
  map hundredths
    [2; 4; 5; 8; 12; 15; 18; 20; 24; 25; 30; 35; 37; 42; 45; 47; 50; 51; 58; 65; 75; 85; 90; 92]
  = [S754_finite false 0x147ae147ae147b (-58);
     S754_finite false 0x147ae147ae147b (-57);
     S754_finite false 0x1999999999999a (-57);
     S754_finite false 0x147ae147ae147b (-56);
     S754_finite false 0x1eb851eb851eb8 (-56);
     S754_finite false 0x13333333333333 (-55);
     S754_finite false 0x170a3d70a3d70a (-55);
     S754_finite false 0x1999999999999a (-55);
     S754_finite false 0x1eb851eb851eb8 (-55);
     S754_finite false 0x10000000000000 (-54);
     S754_finite false 0x13333333333333 (-54);
     S754_finite false 0x16666666666666 (-54);
     S754_finite false 0x17ae147ae147ae (-54);
     S754_finite false 0x1ae147ae147ae1 (-54);
     S754_finite false 0x1ccccccccccccd (-54);
     S754_finite false 0x1e147ae147ae14 (-54);
     S754_finite false 0x10000000000000 (-53);
     S754_finite false 0x1051eb851eb852 (-53);
     S754_finite false 0x128f5c28f5c28f (-53);
     S754_finite false 0x14cccccccccccd (-53);
     S754_finite false 0x18000000000000 (-53);
     S754_finite false 0x1b333333333333 (-53);
     S754_finite false 0x1ccccccccccccd (-53);
     S754_finite false 0x1d70a3d70a3d71 (-53)].
Proof. vm_compute. reflexivity. Qed.

Example scale_reference :
  map (fun n => scale n (hundredths 15)) [1; 7; 20; 99; 100; 12917; 2 ^ 31 - 1]
  = [Ok 0; Ok 1; Ok 3; Ok 14; Ok 15; Ok 1937; Ok 322122547] /\
  scale 100 (hundredths 58) = Ok 57.
Proof. split; vm_compute; reflexivity. Qed.

Example define_ui_regions_reference :
  exists table,
    define_ui_regions 12917 3750 = Ok table /\
    nth_error table 0 =
      Some {| name := "panel_victory"; box := (258, 187, 1937, 3375) |} /\
    nth_error table 17 =
      Some {| name := "badge_level_26"; box := (6070, 2437, 516, 562) |} /\
    nth_error table 25 =
      Some {| name := "decoration_grass_right";
              box := (11883, 3187, 1033, 450) |} /\
    nth_error table 26 = None.
Proof. eexists. split; [vm_compute; reflexivity|]. repeat split. Qed.

(** * Further properties of the cropper *)

Lemma zrange_shift d lo hi :
  zrange (d + lo) (d + hi) = map (Z.add d) (zrange lo hi).
Proof.
  unfold zrange. rewrite map_map.
  replace (d + hi - (d + lo)) with (hi - lo) by lia.
  apply map_ext. intros k. lia.
Qed.

Lemma zrange_In lo hi k : In k (zrange lo hi) <-> lo <= k < hi.
Proof.
  unfold zrange. rewrite in_map_iff. split.
  - intros (n & <- & Hn). apply in_seq in Hn. lia.
  - intros Hk. exists (Z.to_nat (k - lo)). split; [lia|].
    apply in_seq. lia.
Qed.

Lemma pixel_at_cropped img x0 y0 x1 y1 x y :
  0 <= x < x1 - x0 -> 0 <= y < y1 - y0 ->
  pixel_at (cropped img x0 y0 x1 y1) x y = pixel_at img (x0 + x) (y0 + y).
Proof.
  intros Hx Hy. unfold pixel_at at 1. cbn [cropped width height mode].
  replace ((0 <=? x) && (x <? x1 - x0) && (0 <=? y) && (y <? y1 - y0))
    with true by (symmetry; rewrite !andb_true_iff; lia).
  now apply cropped_pixel.
Qed.

(** A crop of a crop is one crop, when the second box lies in the first. *)
Lemma cropped_cropped img x0 y0 x1 y1 a b c d :
  0 <= a -> c <= x1 - x0 -> 0 <= b -> d <= y1 - y0 ->
  cropped (cropped img x0 y0 x1 y1) a b c d =
  cropped img (x0 + a) (y0 + b) (x0 + c) (y0 + d).
Proof.
  intros Ha Hc Hb Hd. unfold cropped at 1 3.
  cbn [mode]. f_equal; try lia.
  rewrite !zrange_shift, map_map.
  apply map_ext_in. intros y Hy. apply zrange_In in Hy.
  rewrite map_map. apply map_ext_in. intros x Hx. apply zrange_In in Hx.
  apply pixel_at_cropped; lia.
Qed.



(** X2. The output of [autocrop_transparency] is a well-formed image of
    the same mode, never larger than the input, and it has pixels when the
    input has. *)
Theorem autocrop_never_grows img threshold :
  wf_image img = true ->
  exists out,
    autocrop_transparency img threshold = Ok out /\
    wf_image out = true /\ mode out = mode img /\
    width out <= width img /\ height out <= height img /\
    (0 < width img -> 0 < height img -> 0 < width out /\ 0 < height out).
Proof.
  intros Hwf. destruct (mode_RGBA_dec img) as [Hm|Hm].
  - destruct (autocrop_cases img threshold Hwf Hm)
      as [(_ & _ & Hkeep)
         |(r0 & r1 & c0 & c1 & _ & Hcut & Hc & Hc1 & Hr & Hr1 & _)].
    + exists img. repeat split; auto; lia.
    + exists (cropped img c0 r0 (c1 + 1) (r1 + 1)). split; [exact Hcut|].
      split; [apply cropped_wf; [assumption|lia|lia]|].
      cbn [cropped mode width height]. repeat split; lia.
  - exists img. rewrite (autocrop_not_RGBA _ _ Hm). repeat split; auto; lia.
Qed.

Lemma autocrop_never_grows_witness :
  exists out,
    autocrop_transparency strip_image 10 = Ok out /\
    wf_image out = true /\ mode out = mode strip_image /\
    width out <= width strip_image /\ height out <= height strip_image /\
    (0 < width strip_image -> 0 < height strip_image ->
     0 < width out /\ 0 < height out).
Proof.
  apply (autocrop_never_grows strip_image 10). vm_compute. reflexivity.
Defined.

(** X3. Raising the threshold can only shrink the content box: when the
    higher threshold still finds content, the lower one finds a box that
    contains it. *)
Theorem content_bounds_monotone img t1 t2 r0 r1 c0 c1 :
  wf_image img = true -> mode img = RGBA -> t1 <= t2 ->
  content_bounds img t2 = Ok (Some (r0, r1, c0, c1)) ->
  exists r0' r1' c0' c1',
    content_bounds img t1 = Ok (Some (r0', r1', c0', c1')) /\
    r0' <= r0 /\ r1 <= r1' /\ c0' <= c0 /\ c1 <= c1'.
Proof.
  intros Hwf Hm Ht H2.
  pose proof (content_bounds_spec img t2 Hwf Hm) as S2. rewrite H2 in S2.
  destruct S2 as ((xa & Ha) & (xb & Hb) & (yc & Hc) & (yd & Hd) & _).
  assert (Hweak : forall x y, visible img t2 x y -> visible img t1 x y)
    by (unfold visible; intros; lia).
  apply Hweak in Ha, Hb, Hc, Hd.
  pose proof (content_bounds_spec img t1 Hwf Hm) as S1.
  destruct (content_bounds img t1) as [[[[[r0' r1'] c0'] c1']|]|e]; [| |easy].
  - exists r0', r1', c0', c1'. destruct S1 as (_ & _ & _ & _ & Hall).
    apply Hall in Ha, Hb, Hc, Hd. repeat split; lia.
  - now apply S1 in Ha.
Qed.

Lemma content_bounds_monotone_witness :
  exists r0' r1' c0' c1',
    content_bounds strip_image 10 = Ok (Some (r0', r1', c0', c1')) /\
    r0' <= 0 /\ 0 <= r1' /\ c0' <= 2 /\ 2 <= c1'.
Proof.
  apply (content_bounds_monotone strip_image 10 100 0 0 2 2).
  - vm_compute. reflexivity.
  - reflexivity.
  - lia.
  - vm_compute. reflexivity.
Defined.

(** X4. The images [autocrop_transparency] returns unchanged are those
    with no visible pixel and those whose first and last row and first and
    last column each hold one. *)
Theorem autocrop_unchanged_iff img threshold :
  wf_image img = true -> mode img = RGBA ->
  (autocrop_transparency img threshold = Ok img <->
   (forall x y, ~ visible img threshold x y) \/
   (row_has_content img threshold 0 /\
    row_has_content img threshold (height img - 1) /\
    col_has_content img threshold 0 /\
    col_has_content img threshold (width img - 1))).
Proof.
  intros Hwf Hm.
  destruct (autocrop_cases img threshold Hwf Hm)
    as [(_ & Hnone & Hkeep)
       |(r0 & r1 & c0 & c1 & _ & Hcut & Hc & Hc1 & Hr & Hr1 & Hr0 & Hr1'
           & Hc0 & Hc1' & Hall)].
  - split; [now left|intros _; exact Hkeep].
  - rewrite Hcut. split.
    + intros Heq. injection Heq as Heq. right.
      pose proof (f_equal width Heq) as Hw.
      pose proof (f_equal height Heq) as Hh.
      cbn [cropped width height] in Hw, Hh.
      replace 0 with r0 at 1 by lia. replace (height img - 1) with r1 by lia.
      replace 0 with c0 by lia. replace (width img - 1) with c1 by lia.
      auto.
    + intros [Hnone|((xa & Ha) & (xb & Hb) & (yc & Hcc) & (yd & Hd))].
      * destruct Hr0 as (x & Hv). now apply Hnone in Hv.
      * apply Hall in Ha, Hb, Hcc, Hd.
        replace c0 with 0 by lia. replace r0 with 0 by lia.
        replace (c1 + 1) with (width img) by lia.
        replace (r1 + 1) with (height img) by lia.
        now rewrite cropped_whole.
Qed.

Lemma autocrop_unchanged_iff_witness :
  autocrop_transparency (square_image 3 3 0 3) 10 = Ok (square_image 3 3 0 3) <->
  (forall x y, ~ visible (square_image 3 3 0 3) 10 x y) \/
  (row_has_content (square_image 3 3 0 3) 10 0 /\
   row_has_content (square_image 3 3 0 3) 10 (height (square_image 3 3 0 3) - 1) /\
   col_has_content (square_image 3 3 0 3) 10 0 /\
   col_has_content (square_image 3 3 0 3) 10 (width (square_image 3 3 0 3) - 1)).
Proof.
  apply (autocrop_unchanged_iff (square_image 3 3 0 3) 10).
  - vm_compute. reflexivity.
  - reflexivity.
Defined.

(** X5. Cutting an image first to any box that lies inside it and holds
    all its visible pixels does not change what [autocrop_transparency]
    returns: the padded crop of a region that contains the whole sprite
    gives the sprite's own tight crop. *)
Theorem autocrop_after_crop img threshold r0 r1 c0 c1 x0 y0 x1 y1 :
  wf_image img = true -> mode img = RGBA ->
  content_bounds img threshold = Ok (Some (r0, r1, c0, c1)) ->
  0 <= x0 <= c0 -> c1 < x1 <= width img ->
  0 <= y0 <= r0 -> r1 < y1 <= height img ->
  exists sub,
    crop img (x0, y0, x1, y1) = Ok sub /\
    autocrop_transparency sub threshold = autocrop_transparency img threshold.
Proof.
  intros Hwf Hm Hb Hx0 Hx1 Hy0 Hy1.
  destruct (autocrop_cases img threshold Hwf Hm)
    as [(Hnone & _)
       |(r0_ & r1_ & c0_ & c1_ & Hb' & Hcut & Hc & Hc1 & Hr & Hr1 & Hr0 & Hr1'
           & Hc0 & Hc1' & Hall)]; [congruence|].
  rewrite Hb in Hb'. injection Hb' as <- <- <- <-.
  exists (cropped img x0 y0 x1 y1). split; [apply crop_ok; lia|].
  set (sub := cropped img x0 y0 x1 y1).
  assert (Hwfs : wf_image sub = true) by (apply cropped_wf; [assumption|lia|lia]).
  assert (Hvis : forall x y, visible sub threshold x y <->
            0 <= x < x1 - x0 /\ 0 <= y < y1 - y0 /\
            visible img threshold (x0 + x) (y0 + y))
    by (intros; apply cropped_visible; auto; lia).
  assert (Hin : forall x y, visible img threshold x y ->
                            visible sub threshold (x - x0) (y - y0)).
  { intros x y Hv. apply Hvis. pose proof (Hall _ _ Hv).
    replace (x0 + (x - x0)) with x by lia.
    replace (y0 + (y - y0)) with y by lia.
    split; [lia|split; [lia|exact Hv]]. }
  assert (Hout : forall x y, visible sub threshold x y ->
                             c0 <= x0 + x <= c1 /\ r0 <= y0 + y <= r1).
  { intros x y Hv. apply Hvis in Hv. destruct Hv as (_ & _ & Hv).
    now apply Hall in Hv. }
  destruct Hr0 as (xa & Ha), Hr1' as (xb & Hb1), Hc0 as (yc & Hcc),
    Hc1' as (yd & Hd).
  apply Hin in Ha, Hb1, Hcc, Hd.
  destruct (autocrop_cases sub threshold Hwfs Hm)
    as [(_ & Hnone & _)
       |(r0' & r1' & c0' & c1' & _ & Hcut' & _ & _ & _ & _ & (xa' & Ha')
           & (xb' & Hb') & (yc' & Hc') & (yd' & Hd') & Hall')].
  { now apply Hnone in Ha. }
  apply Hall' in Ha, Hb1, Hcc, Hd. apply Hout in Ha', Hb', Hc', Hd'.
  rewrite Hcut', Hcut. f_equal. unfold sub.
  rewrite cropped_cropped by lia. f_equal; lia.
Qed.

Lemma autocrop_after_crop_witness :
  exists sub,
    crop (square_image 100 100 40 50) (10, 10, 90, 90) = Ok sub /\
    autocrop_transparency sub 10 =
    autocrop_transparency (square_image 100 100 40 50) 10.
Proof.
  apply (autocrop_after_crop (square_image 100 100 40 50) 10 40 49 40 49
           10 10 90 90); try (cbn [square_image width height]; lia).
  - vm_compute. reflexivity.
  - reflexivity.
  - vm_compute. reflexivity.
Defined.

(** * Further properties of the extraction *)

Lemma autocrop_size_le img t out :
  wf_image img = true -> autocrop_transparency img t = Ok out ->
  width out <= width img /\ height out <= height img.
Proof.
  intros Hwf Hout. destruct (mode_RGBA_dec img) as [Hm|Hm].
  - destruct (autocrop_cases img t Hwf Hm)
      as [(_ & _ & Hkeep)
         |(r0 & r1 & c0 & c1 & _ & Hcut & Hc & Hc1 & Hr & Hr1 & _)].
    + rewrite Hkeep in Hout. injection Hout as <-. lia.
    + rewrite Hcut in Hout. injection Hout as <-.
      cbn [cropped width height]. lia.
  - rewrite (autocrop_not_RGBA _ _ Hm) in Hout. injection Hout as <-. lia.
Qed.

Lemma append_assoc_s (a b c : string) : ((a ++ b) ++ c = a ++ (b ++ c))%string.
Proof. induction a as [|ch a IH]; cbn; [reflexivity|now rewrite IH]. Qed.

Lemma append_inj_l (a b c : string) : (a ++ b = a ++ c)%string -> b = c.
Proof.
  induction a as [|ch a IH]; cbn; [easy|]. intros H. injection H as H. auto.
Qed.

Lemma path_join_relative a b :
  String.prefix "/" b = false -> path_join a b = (dir_prefix a ++ b)%string.
Proof.
  intros Hb. unfold path_join, dir_prefix. rewrite Hb.
  destruct (String.eqb a "" || ends_with_slash a); [reflexivity|].
  now rewrite append_assoc_s.
Qed.

Lemma nodupb_sound l : nodupb l = true -> NoDup l.
Proof.
  induction l as [|a l IH]; cbn [nodupb]; [constructor|].
  rewrite andb_true_iff, negb_true_iff. intros [Hna Hl].
  constructor; [|auto]. intros Hin.
  assert (existsb (String.eqb a) l = true); [|congruence].
  apply existsb_exists. exists a. split; [exact Hin|apply String.eqb_refl].
Qed.

Lemma NoDup_map_inj {A B} (f : A -> B) l :
  (forall a b, f a = f b -> a = b) -> NoDup l -> NoDup (map f l).
Proof.
  intros Hinj. induction 1 as [|a l Hna _ IH]; cbn [map]; constructor; [|exact IH].
  intros Hin. apply in_map_iff in Hin. destruct Hin as (b & Hb & Hin).
  apply Hinj in Hb. now subst.
Qed.

(** The paths the 26 regions are saved under, for any output directory. *)
Lemma region_paths output_dir :
  map (fun n => path_join output_dir (n ++ ".png")) region_names =
  map (fun b => (dir_prefix output_dir ++ b)%string)
      (map (fun n => (n ++ ".png")%string) region_names).
Proof.
  rewrite map_map. apply map_ext_in. intros n Hn.
  apply path_join_relative. revert n Hn. apply Forall_forall.
  unfold region_names. repeat constructor.
Qed.

(** X6. Whenever [find_elements] returns, its records describe the files
    it wrote: record by record, [file] is the path saved to, it is the
    output directory joined with [name.png], [cropped_size] is the size of
    the image saved there, and no saved image is empty. The records are
    none at all or one per region name, in the order of the table. *)
Theorem find_elements_records_match fs image_path output_dir padding
    extracted saved fs' :
  find_elements fs image_path output_dir padding = Ok (extracted, saved, fs') ->
  map fst saved = map file extracted /\
  map cropped_size extracted =
    map (fun s => (width (snd s), height (snd s))) saved /\
  map file extracted =
    map (fun r => path_join output_dir (ex_name r ++ ".png")) extracted /\
  (extracted = [] \/ map ex_name extracted = region_names) /\
  Forall (fun s => 0 < width (snd s) /\ 0 < height (snd s)) saved.
Proof.
  intros H. apply find_elements_inv in H.
  destruct H as (img & _ & [(_ & -> & -> & _)
                           |(b & table & imgs & _ & Htab & Hall & -> & -> & _)]).
  - cbn [map]. repeat split; auto.
  - destruct (combine_Forall2 _ _ _ Hall) as [Hfst Hsnd].
    rewrite !map_map. cbn [entry_of saved_of fst snd file cropped_size ex_name].
    repeat split.
    + right. rewrite <- (define_ui_regions_names _ _ _ Htab).
      rewrite <- Hfst at 2. now rewrite map_map.
    + apply Forall_forall. intros s Hs. apply in_map_iff in Hs.
      destruct Hs as ((e & c) & <- & Hin). cbn [fst snd].
      assert (Hc : In c imgs)
        by (rewrite <- Hsnd; apply in_map_iff; now exists (e, c)).
      clear - Hall Hc. induction Hall as [|e' c' t l (sub & _ & _ & Hpos) _ IH];
        [easy|]. destruct Hc as [<-|Hc]; auto.
Qed.

Lemma find_elements_records_match_witness :
  exists extracted saved fs',
    find_elements (single_file "sheet.png" (square_image 20 20 5 10))
                  "sheet.png" "out" 20 = Ok (extracted, saved, fs') /\
    (map fst saved = map file extracted /\
     map cropped_size extracted =
       map (fun s => (width (snd s), height (snd s))) saved /\
     map file extracted =
       map (fun r => path_join "out" (ex_name r ++ ".png")) extracted /\
     (extracted = [] \/ map ex_name extracted = region_names) /\
     Forall (fun s => 0 < width (snd s) /\ 0 < height (snd s)) saved).
Proof.
  eexists. eexists. eexists. split; [vm_compute; reflexivity|].
  eapply (find_elements_records_match
            (single_file "sheet.png" (square_image 20 20 5 10))
            "sheet.png" "out" 20).
  vm_compute. reflexivity.
Defined.

(** X7. A run of [find_elements] never writes two images to the same
    path: the 26 regions go to 26 different files. *)
Theorem find_elements_distinct_files fs image_path output_dir padding
    extracted saved fs' :
  find_elements fs image_path output_dir padding = Ok (extracted, saved, fs') ->
  NoDup (map fst saved).
Proof.
  intros H. apply find_elements_inv in H.
  destruct H as (img & _ & [(_ & _ & -> & _)
                           |(b & table & imgs & _ & Htab & Hall & _ & -> & _)]).
  - constructor.
  - destruct (combine_Forall2 _ _ _ Hall) as [Hfst _].
    rewrite map_map. cbn [saved_of fst].
    assert (Hpaths : map (fun ec : element * image =>
                            path_join output_dir (name (fst ec) ++ ".png"))
                         (combine table imgs)
                     = map (fun n => path_join output_dir (n ++ ".png"))
                           region_names).
    { rewrite <- (define_ui_regions_names _ _ _ Htab).
      rewrite <- Hfst at 2. now rewrite !map_map. }
    rewrite Hpaths, region_paths.
    apply NoDup_map_inj; [intros a c; apply append_inj_l|].
    apply nodupb_sound. vm_compute. reflexivity.
Qed.

Lemma find_elements_distinct_files_witness :
  exists extracted saved fs',
    find_elements (single_file "sheet.png" (square_image 20 20 5 10))
                  "sheet.png" "out" 20 = Ok (extracted, saved, fs') /\
    NoDup (map fst saved).
Proof.
  eexists. eexists. eexists. split; [vm_compute; reflexivity|].
  eapply (find_elements_distinct_files
            (single_file "sheet.png" (square_image 20 20 5 10))
            "sheet.png" "out" 20).
  vm_compute. reflexivity.
Defined.

Lemma padded_crop_size img b padding sub :
  wf_image img = true ->
  crop_with_padding img b padding = Ok sub ->
  wf_image sub = true /\
  let '(x, y, bw, bh) := b in
  0 <= width sub /\ width sub <= width img /\
  width sub <= bw + 2 * padding /\
  0 <= height sub /\ height sub <= height img /\
  height sub <= bh + 2 * padding.
Proof.
  intros Hwf. pose proof (wf_image_inv _ Hwf) as (Hw & Hh & _).
  destruct b as [[[x y] bw] bh]. unfold crop_with_padding, padded_box, crop.
  destruct (Z.ltb_spec (Z.min (width img) (x + bw + padding))
                       (Z.max 0 (x - padding))); [discriminate|].
  destruct (Z.ltb_spec (Z.min (height img) (y + bh + padding))
                       (Z.max 0 (y - padding))); [discriminate|].
  intros Hs. injection Hs as <-.
  split; [apply cropped_wf; [exact Hwf|lia|lia]|].
  cbn [cropped width height]. lia.
Qed.

(** X8. Every [cropped_size] that [find_elements] reports is positive and
    bounded by the sheet and by the region's box grown by the padding on
    both sides. *)
Theorem cropped_sizes_bounded fs image_path output_dir padding img
    extracted saved fs' :
  image_open fs image_path = Ok img -> wf_image img = true ->
  find_elements fs image_path output_dir padding = Ok (extracted, saved, fs') ->
  Forall (fun r =>
            let '(x, y, bw, bh) := original_box r in
            let '(cw, ch) := cropped_size r in
            0 < cw /\ cw <= width img /\ cw <= bw + 2 * padding /\
            0 < ch /\ ch <= height img /\ ch <= bh + 2 * padding)
         extracted.
Proof.
  intros Hopen Hwf H. apply find_elements_inv in H.
  destruct H as (img' & Hopen' & H). rewrite Hopen in Hopen'.
  injection Hopen' as <-.
  destruct H as [(_ & -> & _)|(b & table & imgs & _ & _ & Hall & -> & _)];
    [constructor|].
  destruct (ensure_RGBA_wf img Hwf) as (Hwf' & _ & Hw & Hh).
  induction Hall as [|e c table imgs (sub & Hsub & Hc & Hcw & Hch) _ IH];
    [constructor|].
  cbn [combine map fst snd]. constructor; [|exact IH].
  cbn [entry_of original_box cropped_size].
  destruct (padded_crop_size _ _ _ _ Hwf' Hsub) as [Hwfs Hsize].
  destruct (box e) as [[[x y] bw] bh].
  destruct (autocrop_size_le sub 10 c Hwfs Hc) as [Hle1 Hle2].
  rewrite Hw, Hh in Hsize. lia.
Qed.

Lemma cropped_sizes_bounded_witness :
  exists extracted saved fs',
    find_elements (single_file "sheet.png" (square_image 20 20 5 10))
                  "sheet.png" "out" 20 = Ok (extracted, saved, fs') /\
    Forall (fun r =>
              let '(x, y, bw, bh) := original_box r in
              let '(cw, ch) := cropped_size r in
              0 < cw /\ cw <= width (square_image 20 20 5 10) /\
              cw <= bw + 2 * 20 /\
              0 < ch /\ ch <= height (square_image 20 20 5 10) /\
              ch <= bh + 2 * 20)
           extracted.
Proof.
  eexists. eexists. eexists. split; [vm_compute; reflexivity|].
  eapply (cropped_sizes_bounded
            (single_file "sheet.png" (square_image 20 20 5 10))
            "sheet.png" "out" 20 (square_image 20 20 5 10)).
  - vm_compute. reflexivity.
  - vm_compute. reflexivity.
  - vm_compute. reflexivity.
Defined.

(** What [main] asks of the file system on a sheet with content: the
    directory, the 26 files and [metadata.json] in it. *)
Lemma main_ok_content fs argv img fs' :
  image_open fs (nth 1 argv default_input_path) = Ok img ->
  wf_image img = true ->
  (exists x y, visible (ensure_RGBA img) 10 x y) ->
  fs_accepts fs (nth 2 argv default_output_dir) fs' ->
  open_w fs' (nth 2 argv default_output_dir)
         (path_join (nth 2 argv default_output_dir) "metadata.json") = Ok tt ->
  exists md saved, main fs argv = Ok (md, saved).
Proof.
  intros Hopen Hwf (x & y & Hv) Hacc Hmeta. rewrite main_unfold.
  destruct (find_elements_ok fs _ (nth 2 argv default_output_dir) 20 img
              Hopen Hwf ltac:(lia))
    as [(Hnone & _)|(_ & table & _ & _ & _ & _ & Hok)].
  { now apply Hnone in Hv. }
  destruct (Hok fs' Hacc) as (ex & sv & -> & _). cbn [bind].
  rewrite Hmeta. cbn [bind]. eauto.
Qed.

(** X9. Once the sheet has opened, [main] fails only on the file system.
    On a sheet without visible pixel it returns exactly when
    [metadata.json] can be opened in the output directory as it is, and
    raises the error of that [open] otherwise. On a sheet with content it
    returns exactly when the file system accepts the directory, the 26
    files and [metadata.json], and what it raises otherwise is the error
    of [os.makedirs] or of one of these opens: with the padding 20 no step
    of the computation raises. *)
Theorem main_fails_only_on_file_system fs argv img :
  image_open fs (nth 1 argv default_input_path) = Ok img ->
  wf_image img = true ->
  ((forall x y, ~ visible (ensure_RGBA img) 10 x y) /\
   ((exists md saved, main fs argv = Ok (md, saved)) <->
    open_w fs (nth 2 argv default_output_dir)
           (path_join (nth 2 argv default_output_dir) "metadata.json")
      = Ok tt) /\
   (forall e, main fs argv = Raise e ->
              open_w fs (nth 2 argv default_output_dir)
                     (path_join (nth 2 argv default_output_dir)
                                "metadata.json") = Raise e))
  \/
  ((exists x y, visible (ensure_RGBA img) 10 x y) /\
   ((exists md saved, main fs argv = Ok (md, saved)) <->
    exists fs',
      fs_accepts fs (nth 2 argv default_output_dir) fs' /\
      open_w fs' (nth 2 argv default_output_dir)
             (path_join (nth 2 argv default_output_dir) "metadata.json")
        = Ok tt) /\
   (forall e, main fs argv = Raise e ->
              fs_refuses fs (nth 2 argv default_output_dir) e \/
              exists fs',
                fs_accepts fs (nth 2 argv default_output_dir) fs' /\
                open_w fs' (nth 2 argv default_output_dir)
                       (path_join (nth 2 argv default_output_dir)
                                  "metadata.json") = Raise e)).
Proof.
  intros Hopen Hwf.
  destruct (find_elements_ok fs _ (nth 2 argv default_output_dir) 20 img
              Hopen Hwf ltac:(lia))
    as [(Hnone & Hfind)|(Hv & table & _ & _ & _ & Hraise & Hok)].
  - left. split; [exact Hnone|]. rewrite main_unfold, Hfind. cbn [bind].
    destruct (open_w fs _ _) as [[]|e']; cbn [bind].
    + split; [split; eauto|discriminate].
    + split; [split; [intros (? & ? & ?)|]; discriminate|].
      intros e H. injection H as <-. reflexivity.
  - right. split; [exact Hv|]. split.
    + split.
      * intros (md & sv & Hmain). rewrite main_unfold in Hmain.
        destruct (find_elements fs _ _ 20) as [[[ex sv'] fs1]|e] eqn:Hfind;
          cbn [bind] in Hmain; [|discriminate].
        destruct (open_w fs1 _ _) as [[]|e] eqn:Hmeta; cbn [bind] in Hmain;
          [|discriminate].
        exists fs1. split; [|exact Hmeta].
        apply find_elements_inv in Hfind.
        destruct Hfind as (img' & Hopen' & Hcases).
        rewrite Hopen in Hopen'. injection Hopen' as <-.
        destruct Hcases as [(Hb & _)|(_ & _ & _ & _ & _ & _ & _ & _ & Hacc)];
          [|exact Hacc].
        destruct (ensure_RGBA_wf img Hwf) as (Hwf' & Hm & _).
        pose proof (content_bounds_spec (ensure_RGBA img) 10 Hwf' Hm) as Hspec.
        rewrite Hb in Hspec. destruct Hv as (x & y & Hv).
        now apply Hspec in Hv.
      * intros (fs' & Hacc & Hmeta).
        exact (main_ok_content fs argv img fs' Hopen Hwf Hv Hacc Hmeta).
    + intros e Hmain. rewrite main_unfold in Hmain.
      destruct (find_elements fs _ _ 20) as [[[ex sv'] fs1]|e'] eqn:Hfind;
        cbn [bind] in Hmain.
      * destruct (open_w fs1 _ _) as [[]|e'] eqn:Hmeta; cbn [bind] in Hmain;
          [discriminate|]. injection Hmain as <-.
        right. exists fs1. split; [|exact Hmeta].
        apply find_elements_inv in Hfind.
        destruct Hfind as (img' & Hopen' & Hcases).
        rewrite Hopen in Hopen'. injection Hopen' as <-.
        destruct Hcases as [(Hb & _)|(_ & _ & _ & _ & _ & _ & _ & _ & Hacc)];
          [|exact Hacc].
        destruct (ensure_RGBA_wf img Hwf) as (Hwf' & Hm & _).
        pose proof (content_bounds_spec (ensure_RGBA img) 10 Hwf' Hm) as Hspec.
        rewrite Hb in Hspec. destruct Hv as (x & y & Hv).
        now apply Hspec in Hv.
      * injection Hmain as <-. left. now apply Hraise.
Qed.

Lemma main_fails_only_on_file_system_witness :
  ((forall x y, ~ visible (ensure_RGBA (blank_image 5 4)) 10 x y) /\
   ((exists md saved,
       main (single_file "sheet.png" (blank_image 5 4))
            ["prog"; "sheet.png"; "out"]%string = Ok (md, saved)) <->
    open_w (single_file "sheet.png" (blank_image 5 4))
           (nth 2 ["prog"; "sheet.png"; "out"]%string default_output_dir)
           (path_join (nth 2 ["prog"; "sheet.png"; "out"]%string
                           default_output_dir) "metadata.json")
      = Ok tt) /\
   (forall e,
      main (single_file "sheet.png" (blank_image 5 4))
           ["prog"; "sheet.png"; "out"]%string = Raise e ->
      open_w (single_file "sheet.png" (blank_image 5 4))
             (nth 2 ["prog"; "sheet.png"; "out"]%string default_output_dir)
             (path_join (nth 2 ["prog"; "sheet.png"; "out"]%string
                             default_output_dir) "metadata.json") = Raise e))
  \/
  ((exists x y, visible (ensure_RGBA (blank_image 5 4)) 10 x y) /\
   ((exists md saved,
       main (single_file "sheet.png" (blank_image 5 4))
            ["prog"; "sheet.png"; "out"]%string = Ok (md, saved)) <->
    exists fs',
      fs_accepts (single_file "sheet.png" (blank_image 5 4))
                 (nth 2 ["prog"; "sheet.png"; "out"]%string default_output_dir)
                 fs' /\
      open_w fs' (nth 2 ["prog"; "sheet.png"; "out"]%string default_output_dir)
             (path_join (nth 2 ["prog"; "sheet.png"; "out"]%string
                             default_output_dir) "metadata.json")
        = Ok tt) /\
   (forall e,
      main (single_file "sheet.png" (blank_image 5 4))
           ["prog"; "sheet.png"; "out"]%string = Raise e ->
      fs_refuses (single_file "sheet.png" (blank_image 5 4))
                 (nth 2 ["prog"; "sheet.png"; "out"]%string default_output_dir)
                 e \/
      exists fs',
        fs_accepts (single_file "sheet.png" (blank_image 5 4))
                   (nth 2 ["prog"; "sheet.png"; "out"]%string
                        default_output_dir) fs' /\
        open_w fs' (nth 2 ["prog"; "sheet.png"; "out"]%string
                        default_output_dir)
               (path_join (nth 2 ["prog"; "sheet.png"; "out"]%string
                               default_output_dir) "metadata.json")
          = Raise e)).
Proof.
  apply (main_fails_only_on_file_system
           (single_file "sheet.png" (blank_image 5 4))
           ["prog"; "sheet.png"; "out"]%string (blank_image 5 4)).
  - vm_compute. reflexivity.
  - vm_compute. reflexivity.
Defined.

(** X10. A sheet without alpha band (mode RGB or L) that has pixels is
    never reported empty: the loader makes it opaque, so when
    [find_elements] returns it has extracted all 26 regions, and it does
    return when the file system accepts the directory and the files. *)
Theorem opaque_sheet_always_extracted fs image_path output_dir padding img :
  image_open fs image_path = Ok img -> wf_image img = true ->
  mode img = RGB \/ mode img = L ->
  0 < width img -> 0 < height img ->
  (forall extracted saved fs',
     find_elements fs image_path output_dir padding
       = Ok (extracted, saved, fs') ->
     map ex_name extracted = region_names /\ length saved = 26%nat) /\
  (0 < padding ->
   forall fs',
     fs_accepts fs output_dir fs' ->
     exists extracted saved,
       find_elements fs image_path output_dir padding
         = Ok (extracted, saved, fs')).
Proof.
  intros Hopen Hwf Hm Hw Hh.
  assert (Hv : visible (ensure_RGBA img) 10 0 0).
  { assert (He : ensure_RGBA img = convert_RGBA img)
      by (unfold ensure_RGBA; destruct Hm as [-> | ->]; reflexivity).
    rewrite He. unfold visible. rewrite convert_alpha by (auto; lia).
    cbn [convert_RGBA width height]. lia. }
  split.
  - intros ex sv fs' Hfind. apply find_elements_inv in Hfind.
    destruct Hfind as (img' & Hopen' & Hcases).
    rewrite Hopen in Hopen'. injection Hopen' as <-.
    destruct Hcases
      as [(Hb & _)|(b & table & imgs & _ & Htab & Hall & -> & -> & _)].
    { destruct (ensure_RGBA_wf img Hwf) as (Hwf' & Hm' & _).
      pose proof (content_bounds_spec (ensure_RGBA img) 10 Hwf' Hm') as Hspec.
      rewrite Hb in Hspec. now apply Hspec in Hv. }
    destruct (combine_Forall2 _ _ _ Hall) as [Hfst _].
    rewrite map_map, length_map. cbn [entry_of ex_name]. split.
    + rewrite <- (define_ui_regions_names _ _ _ Htab).
      rewrite <- Hfst at 2. now rewrite map_map.
    + rewrite <- (length_map fst), Hfst.
      rewrite <- (length_map name), (define_ui_regions_names _ _ _ Htab).
      reflexivity.
  - intros Hp fs' Hacc.
    destruct (find_elements_ok fs image_path output_dir padding img
                Hopen Hwf Hp)
      as [(Hnone & _)|(_ & table & _ & _ & _ & _ & Hok)].
    { now apply Hnone in Hv. }
    destruct (Hok fs' Hacc) as (ex & sv & Hfind & _). now exists ex, sv.
Qed.

Lemma opaque_sheet_always_extracted_witness :
  (forall extracted saved fs',
     find_elements (single_file "photo.png" (grey_rgb_image 3 2))
                   "photo.png" "out" 20
       = Ok (extracted, saved, fs') ->
     map ex_name extracted = region_names /\ length saved = 26%nat) /\
  (0 < 20 ->
   forall fs',
     fs_accepts (single_file "photo.png" (grey_rgb_image 3 2)) "out" fs' ->
     exists extracted saved,
       find_elements (single_file "photo.png" (grey_rgb_image 3 2))
                     "photo.png" "out" 20
         = Ok (extracted, saved, fs')).
Proof.
  apply (opaque_sheet_always_extracted
           (single_file "photo.png" (grey_rgb_image 3 2))
           "photo.png" "out" 20 (grey_rgb_image 3 2)).
  - vm_compute. reflexivity.
  - vm_compute. reflexivity.
  - left. reflexivity.
  - cbn [grey_rgb_image width]. lia.
  - cbn [grey_rgb_image height]. lia.
Defined.

(** X11. A negative padding is not rejected up front: on a sheet with
    visible content, a padding below minus half the width makes the first
    region's box reversed. Once [os.makedirs] has made the output
    directory, [find_elements] ends in the [ValueError] of [crop], with
    nothing extracted and no file opened; if [os.makedirs] fails, its
    error comes first. *)
Theorem negative_padding_raises fs image_path output_dir padding img :
  image_open fs image_path = Ok img -> wf_image img = true ->
  (exists x y, visible (ensure_RGBA img) 10 x y) ->
  2 * padding + width img < 0 ->
  (forall fs', os_makedirs fs output_dir = Ok fs' ->
               find_elements fs image_path output_dir padding
                 = Raise ValueError) /\
  (forall e, os_makedirs fs output_dir = Raise e ->
             find_elements fs image_path output_dir padding = Raise e).
Proof.
  intros Hopen Hwf (x & y & Hv) Hp.
  unfold find_elements. rewrite Hopen. cbn [bind].
  destruct (ensure_RGBA_wf img Hwf) as (Hwf' & Hm & Hw & Hh).
  pose proof (content_bounds_spec (ensure_RGBA img) 10 Hwf' Hm) as Hspec.
  destruct (content_bounds (ensure_RGBA img) 10) as [[b|]|err];
    [|now apply Hspec in Hv|easy].
  cbn [bind]. pose proof (wf_image_inv _ Hwf) as (Hwb & Hhb & _).
  assert (H53 : 2 ^ 31 < 2 ^ 53) by (apply Z.pow_lt_mono_r; lia).
  destruct (define_ui_regions_ok (width img) (height img))
    as (table & Htab & Hlen & Hboxes); [lia|lia|].
  rewrite Hw, Hh, Htab. cbn [bind].
  split; [|intros e ->; reflexivity].
  intros fs' ->. cbn [bind].
  destruct table as [|e rest]; [discriminate|].
  inversion Hboxes as [|? ? He _]; subst.
  cbn [extract_loop]. unfold crop_with_padding, padded_box.
  destruct (box e) as [[[bx by_] bw] bh]. cbn [box_within] in He.
  unfold crop. rewrite Hw.
  destruct (Z.ltb_spec (Z.min (width img) (bx + bw + padding))
                       (Z.max 0 (bx - padding))); [reflexivity|lia].
Qed.

Lemma negative_padding_raises_witness :
  (forall fs',
     os_makedirs (single_file "sheet.png" (square_image 20 20 5 10)) "out"
       = Ok fs' ->
     find_elements (single_file "sheet.png" (square_image 20 20 5 10))
                   "sheet.png" "out" (-11) = Raise ValueError) /\
  (forall e,
     os_makedirs (single_file "sheet.png" (square_image 20 20 5 10)) "out"
       = Raise e ->
     find_elements (single_file "sheet.png" (square_image 20 20 5 10))
                   "sheet.png" "out" (-11) = Raise e).
Proof.
  apply (negative_padding_raises
           (single_file "sheet.png" (square_image 20 20 5 10))
           "sheet.png" "out" (-11) (square_image 20 20 5 10)).
  - vm_compute. reflexivity.
  - vm_compute. reflexivity.
  - exists 5, 5. change (ensure_RGBA (square_image 20 20 5 10))
      with (square_image 20 20 5 10). visible_here.
  - cbn [square_image width]. lia.
Defined.

(** * Further properties of the region table *)

Module Binary64Floor.

Import Binary64.

(** Rounding a mantissa of more than 53 bits moves the value by less than
    one unit in the last place kept, in either direction. *)
Lemma binary_round_aux_near (P : positive) (E : Z) :
  let d := Zpos (digits2_pos P) in
  53 < d -> -1074 <= E -> d + E <= 1023 ->
  exists m e,
    binary_round_aux 53 1024 false (Zpos P) E loc_Exact = S754_finite false m e /\
    d - 53 <= e - E /\
    Zpos m * 2 ^ (e - E) <= Zpos P + 2 ^ (d - 53) /\
    Zpos P < Zpos m * 2 ^ (e - E) + 2 ^ (d - 53).
Proof.
  intros d Hd HE Hmax. pose proof (digits2_bounds P) as [Hlo Hhi].
  fold d in Hlo, Hhi.
  unfold binary_round_aux, shr_fexp. cbn [Zdigits2]. fold d.
  assert (Hn : fexp 53 1024 (d + E) - E = d - 53) by (unfold fexp, emin; lia).
  rewrite Hn. destruct (d - 53) as [|k|k] eqn:Hk; try lia.
  cbn [shr]. set (r := iter_pos shr_1 k _).
  assert (H2k : 0 < 2 ^ Zpos k) by (apply Z.pow_pos_nonneg; lia).
  assert (Hq : shr_m r = Zpos P / 2 ^ Zpos k)
    by (unfold r; rewrite iter_shr_m; cbn [shr_record_of_loc shr_m]; lia).
  assert (Hpow : 2 ^ d = 2 ^ 53 * 2 ^ Zpos k /\
                 2 ^ (d - 1) = 2 ^ 52 * 2 ^ Zpos k).
  { split; [replace d with (53 + Zpos k) by lia
           |replace (d - 1) with (52 + Zpos k) by lia];
      now rewrite Z.pow_add_r by lia. }
  destruct Hpow as [Hpd Hpd1].
  assert (Hqb : 2 ^ 52 <= shr_m r < 2 ^ 53).
  { rewrite Hq. split.
    - apply Z.div_le_lower_bound; lia.
    - apply Z.div_lt_upper_bound; lia. }
  assert (Hqk : shr_m r * 2 ^ Zpos k <= Zpos P < shr_m r * 2 ^ Zpos k + 2 ^ Zpos k).
  { rewrite Hq. pose proof (Z.div_mod (Zpos P) (2 ^ Zpos k)) as Hdm.
    pose proof (Z.mod_pos_bound (Zpos P) (2 ^ Zpos k) H2k). lia. }
  pose proof (round_nearest_even_bounds (shr_m r) (loc_of_shr_record r)) as Hrb.
  destruct (round_nearest_even (shr_m r) (loc_of_shr_record r))
    as [|q1|q1] eqn:Hq1; try lia.
  cbn [Zdigits2].
  assert (Hd1 : 53 <= Zpos (digits2_pos q1) <= 54).
  { split.
    - assert (52 < Zpos (digits2_pos q1)) by (apply digits2_gt; lia). lia.
    - apply digits2_le; [lia|]. change (2 ^ 54) with (2 * 2 ^ 53). lia. }
  pose proof (digits2_bounds q1) as [Hlo1 Hhi1].
  assert (Hn2 : fexp 53 1024 (Zpos (digits2_pos q1) + (E + Zpos k))
                - (E + Zpos k) = Zpos (digits2_pos q1) - 53)
    by (unfold fexp, emin; lia).
  rewrite Hn2.
  destruct (Zpos (digits2_pos q1) - 53) as [|k2|k2] eqn:Hk2; try lia.
  - cbn [shr shr_record_of_loc shr_m].
    replace (E + Zpos k <=? 1024 - 53) with true
      by (symmetry; apply Z.leb_le; lia).
    exists q1, (E + Zpos k). split; [reflexivity|]. split; [lia|].
    replace (E + Zpos k - E) with (Zpos k) by lia. nia.
  - assert (k2 = 1%positive) by lia. subst k2.
    cbn [shr iter_pos shr_record_of_loc shr_1].
    assert (Hq12 : Zpos q1 = 2 ^ 53).
    { replace (Zpos (digits2_pos q1)) with 54 in Hlo1 by lia.
      change (2 ^ (54 - 1)) with (2 ^ 53) in Hlo1. lia. }
    destruct q1 as [q|q|]; try (exfalso; lia).
    cbn [shr_m orb].
    replace (E + Zpos k + 1 <=? 1024 - 53) with true
      by (symmetry; apply Z.leb_le; lia).
    exists q, (E + Zpos k + 1). split; [reflexivity|]. split; [lia|].
    replace (E + Zpos k + 1 - E) with (Zpos k + 1) by lia.
    rewrite Z.pow_add_r by lia. change (2 ^ 1) with 2.
    rewrite (Pos2Z.inj_xO q) in Hq12, Hrb. nia.
Qed.

End Binary64Floor.

(** [int(n * c)] for a literal [c] that stands for [nn / 100]: the result
    is within the hundred below [n * nn]. *)
Lemma scale_near_floor n nn c :
  accurate_fraction nn c = true -> 0 <= n < 2 ^ 31 ->
  exists v, scale n c = Ok v /\ 100 * v <= n * nn <= 100 * v + 100.
Proof.
  intros Hc Hn. destruct c as [| | |[] M e]; try discriminate.
  unfold accurate_fraction in Hc. rewrite !andb_true_iff in Hc.
  destruct Hc as [[[[[HdM He0] He1] Hnn0] Hnn1] Hacc].
  apply Z.eqb_eq in HdM. apply Z.leb_le in He0, He1, Hnn0, Hnn1, Hacc.
  destruct (Z.eq_dec n 0) as [->|Hn0]; [exists 0; split; [reflexivity|lia]|].
  assert (H3153 : 2 ^ 31 < 2 ^ 53) by (apply Z.pow_lt_mono_r; lia).
  destruct (Binary64.py_float_exact n) as (m1 & e1 & Hf & He1b & Hm1 & Hm1lo);
    [lia|].
  unfold scale. rewrite Hf. unfold py_fmul, SFmul. cbn [xorb].
  pose proof (Binary64.digits2_bounds M) as [HMlo HMhi]. rewrite HdM in HMlo, HMhi.
  change (2 ^ (53 - 1)) with (2 ^ 52) in HMlo.
  set (P := (m1 * M)%positive).
  assert (HP : Zpos P = Zpos m1 * Zpos M) by apply Pos2Z.inj_mul.
  assert (HPlo : 2 ^ 104 <= Zpos P).
  { rewrite HP. change (2 ^ 104) with (2 ^ 52 * 2 ^ 52).
    apply Z.mul_le_mono_nonneg; lia. }
  pose proof (Binary64.digits2_bounds P) as [HdPlo HdPhi].
  assert (HdP : 104 < Zpos (digits2_pos P))
    by (apply Binary64.digits2_gt; exact HPlo).
  assert (HB : 0 < 2 ^ (- e1)) by (apply Z.pow_pos_nonneg; lia).
  assert (HdP' : Zpos (digits2_pos P) <= 200).
  { apply Binary64.digits2_le; [lia|]. rewrite HP.
    assert (Zpos m1 < 2 ^ 106).
    { rewrite Hm1. change (2 ^ 106) with (2 ^ 53 * 2 ^ 53).
      assert (2 ^ (- e1) <= 2 ^ 53) by (apply Z.pow_le_mono_r; lia). nia. }
    assert (2 ^ 53 < 2 ^ 94) by (apply Z.pow_lt_mono_r; lia).
    change (2 ^ 200) with (2 ^ 106 * 2 ^ 94).
    apply Z.mul_lt_mono_nonneg; lia. }
  destruct (Binary64Floor.binary_round_aux_near P (e1 + e))
    as (m2 & e2 & -> & He2 & Hup & Hlow); [lia|lia|lia|].
  cbn [py_int cond_Zopp]. eexists. split; [reflexivity|].
  set (E := e1 + e) in *. set (d := Zpos (digits2_pos P)) in *.
  set (K := 2 ^ (- e)) in *. set (B := 2 ^ (- e1)) in *.
  assert (HK : 2 ^ 53 <= K) by (apply Z.pow_le_mono_r; lia).
  assert (HA : 2 ^ (- E) = B * K).
  { unfold B, K. rewrite <- Z.pow_add_r by lia. f_equal. lia. }
  assert (HR : 0 < 2 ^ (d - 53)) by (apply Z.pow_pos_nonneg; lia).
  assert (Hround : 2 ^ (d - 53) * 2 ^ 52 <= Zpos P).
  { rewrite <- Z.pow_add_r by lia. replace (d - 53 + 52) with (d - 1) by lia.
    exact HdPlo. }
  apply Z.abs_le in Hacc.
  (* the integer [v] returned brackets the rounded product *)
  assert (Hfloor : forall v,
            v * (B * K) <= Zpos m2 * 2 ^ (e2 - E) < (v + 1) * (B * K) ->
            100 * v <= n * nn <= 100 * v + 100).
  { intros v [Hv1 Hv2].
    assert (HPn : Zpos P = n * B * Zpos M) by (rewrite HP, Hm1; reflexivity).
    set (V := Zpos m2 * 2 ^ (e2 - E)) in *. set (R := 2 ^ (d - 53)) in *.
    set (T := 2 ^ 52) in *.
    assert (HT : T = 4503599627370496) by reflexivity.
    assert (Hnn : 0 <= n * nn <= 2 ^ 38).
    { change (2 ^ 38) with (2 ^ 31 * 128). split; [nia|].
      apply Z.mul_le_mono_nonneg; lia. }
    assert (HnnK : n * nn * K <= 2 ^ 38 * K)
      by (apply Z.mul_le_mono_nonneg_r; lia).
    (* cancel B *)
    assert (U1 : v * K * T <= n * Zpos M * (T + 1)).
    { apply Z.mul_le_mono_pos_r with (p := B); [exact HB|].
      replace (v * K * T * B) with (v * (B * K) * T) by ring.
      replace (n * Zpos M * (T + 1) * B) with (Zpos P * (T + 1))
        by (rewrite HPn; ring).
      assert (v * (B * K) * T <= (Zpos P + R) * T)
        by (apply Z.mul_le_mono_nonneg_r; lia).
      lia. }
    assert (L1 : n * Zpos M * (T - 1) < (v + 1) * K * T).
    { apply Z.mul_lt_mono_pos_r with (p := B); [exact HB|].
      replace ((v + 1) * K * T * B) with ((v + 1) * (B * K) * T) by ring.
      replace (n * Zpos M * (T - 1) * B) with (Zpos P * (T - 1))
        by (rewrite HPn; ring).
      assert ((Zpos P - R) * T < (v + 1) * (B * K) * T)
        by (apply Z.mul_lt_mono_pos_r; lia).
      lia. }
    assert (U2 : n * (100 * Zpos M) * (T + 1) <= n * (nn * K + 50) * (T + 1))
      by (apply Z.mul_le_mono_nonneg_r; [lia|];
          apply Z.mul_le_mono_nonneg_l; lia).
    assert (L2 : n * (nn * K - 50) * (T - 1) <= n * (100 * Zpos M) * (T - 1))
      by (apply Z.mul_le_mono_nonneg_r; [lia|];
          apply Z.mul_le_mono_nonneg_l; lia).
    split.
    - destruct (Z.le_gt_cases (100 * v) (n * nn)) as [|Hgt]; [assumption|].
      exfalso.
      assert (G : (n * nn + 1) * (K * T) <= 100 * v * (K * T))
        by (apply Z.mul_le_mono_nonneg_r; lia).
      nia.
    - destruct (Z.le_gt_cases (n * nn) (100 * v + 100)) as [|Hgt]; [assumption|].
      exfalso.
      assert (G : (100 * (v + 1) + 1) * (K * T) <= n * nn * (K * T))
        by (apply Z.mul_le_mono_nonneg_r; lia).
      nia. }
  apply Hfloor. rewrite <- HA.
  assert (HAp : 0 < 2 ^ (- E)) by (apply Z.pow_pos_nonneg; lia).
  destruct (Z.leb_spec 0 e2) as [He2s|He2s].
  - assert (Hv : Zpos m2 * 2 ^ e2 * 2 ^ (- E) = Zpos m2 * 2 ^ (e2 - E))
      by (rewrite <- Z.mul_assoc, <- Z.pow_add_r by lia; reflexivity).
    rewrite <- Hv.
    assert (0 < Zpos m2 * 2 ^ e2)
      by (apply Z.mul_pos_pos; [lia|apply Z.pow_pos_nonneg; lia]).
    nia.
  - assert (HC : 0 < 2 ^ (- e2)) by (apply Z.pow_pos_nonneg; lia).
    assert (HBe : 0 < 2 ^ (e2 - E)) by (apply Z.pow_pos_nonneg; lia).
    assert (Hsplit : 2 ^ (- E) = 2 ^ (- e2) * 2 ^ (e2 - E)).
    { rewrite <- Z.pow_add_r by lia. f_equal. lia. }
    rewrite Hsplit.
    pose proof (Z.div_mod (Zpos m2) (2 ^ (- e2))) as Hdm.
    pose proof (Z.mod_pos_bound (Zpos m2) (2 ^ (- e2)) HC) as Hmb.
    set (v := Zpos m2 / 2 ^ (- e2)) in *.
    set (rm := Zpos m2 mod 2 ^ (- e2)) in *.
    assert (Hm2 : Zpos m2 = 2 ^ (- e2) * v + rm) by lia.
    rewrite Hm2. nia.
Qed.

Lemma table_fractions_ok nn :
  In nn table_hundredths -> table_fraction nn = true.
Proof.
  revert nn. apply forallb_forall. vm_compute. reflexivity.
Qed.

(** [int(n * 0.nn)] for a literal of the table: not negative, at most [n],
    and within the hundred below [n * nn]. *)
Lemma scale_table n nn :
  table_fraction nn = true -> 0 <= n < 2 ^ 31 ->
  exists v, scale n (hundredths nn) = Ok v /\
            0 <= v <= n /\ 100 * v <= n * nn <= 100 * v + 100.
Proof.
  intros Hnn Hn. unfold table_fraction in Hnn. apply andb_true_iff in Hnn.
  destruct Hnn as [Hp Ha].
  assert (H3153 : 2 ^ 31 < 2 ^ 53) by (apply Z.pow_lt_mono_r; lia).
  destruct (Binary64.scale_bounds n _ Hp) as (v & Hv & Hb); [lia|].
  destruct (scale_near_floor n nn _ Ha Hn) as (v' & Hv' & Hf).
  rewrite Hv in Hv'. injection Hv' as <-. now exists v.
Qed.

(** X12. For each two-decimal literal [0.nn] of the region table and each
    size [n] below [2^31], [int(n * 0.nn)] is the integer quotient
    [n * nn / 100], except that it may be one less when [n * nn] is a
    multiple of 100; it is never negative and never above [n]. *)
Theorem scale_is_floor n nn :
  In nn table_hundredths -> 0 <= n < 2 ^ 31 ->
  exists v,
    scale n (hundredths nn) = Ok v /\
    0 <= v <= n /\
    n * nn / 100 - 1 <= v <= n * nn / 100 /\
    ((n * nn) mod 100 <> 0 -> v = n * nn / 100).
Proof.
  intros Hin Hn.
  destruct (scale_table n nn (table_fractions_ok nn Hin) Hn)
    as (v & Hv & Hb & Hf).
  exists v. split; [exact Hv|]. split; [exact Hb|].
  pose proof (Z.div_mod (n * nn) 100) as Hdm.
  pose proof (Z.mod_pos_bound (n * nn) 100) as Hmb.
  split; [lia|]. intros Hmod. lia.
Qed.

Lemma scale_is_floor_witness :
  exists v,
    scale 100 (hundredths 58) = Ok v /\
    0 <= v <= 100 /\
    100 * 58 / 100 - 1 <= v <= 100 * 58 / 100 /\
    ((100 * 58) mod 100 <> 0 -> v = 100 * 58 / 100).
Proof.
  apply (scale_is_floor 100 58).
  - unfold table_hundredths. cbn [In]. tauto.
  - lia.
Defined.

Lemma region_inside nm cx cy cw ch w h :
  table_fraction cx = true -> table_fraction cy = true ->
  table_fraction cw = true -> table_fraction ch = true ->
  cx + cw <= 100 -> cy + ch <= 100 ->
  0 <= w < 2 ^ 31 -> 0 <= h < 2 ^ 31 ->
  exists e, region nm cx cy cw ch w h = Ok e /\ box_inside w h (box e).
Proof.
  intros Hx Hy Hw Hh Hxw Hyh Hwb Hhb. unfold region.
  destruct (scale_table w _ Hx Hwb) as (x & -> & Hx0 & Hxf).
  destruct (scale_table h _ Hy Hhb) as (y & -> & Hy0 & Hyf).
  destruct (scale_table w _ Hw Hwb) as (bw & -> & Hbw0 & Hbwf).
  destruct (scale_table h _ Hh Hhb) as (bh & -> & Hbh0 & Hbhf).
  cbn [bind]. eexists. split; [reflexivity|]. cbn [box box_inside].
  assert (w * (cx + cw) <= w * 100) by (apply Z.mul_le_mono_nonneg_l; lia).
  assert (h * (cy + ch) <= h * 100) by (apply Z.mul_le_mono_nonneg_l; lia).
  repeat split; lia.
Qed.

(** X13. For every sheet size below [2^31] the region table is built
    without error, carries the 26 names in order, and each of its boxes
    [x, y, w, h] lies inside the sheet: [0 <= x], [x + w <= width],
    [0 <= y], [y + h <= height]. *)
Theorem define_ui_regions_inside w h :
  0 <= w < 2 ^ 31 -> 0 <= h < 2 ^ 31 ->
  exists table,
    define_ui_regions w h = Ok table /\
    map name table = region_names /\
    Forall (fun e => box_inside w h (box e)) table.
Proof.
  intros Hw Hh.
  assert (Hex : exists table,
             define_ui_regions w h = Ok table /\
             Forall (fun e => box_inside w h (box e)) table).
  { unfold define_ui_regions. cbv zeta.
    match goal with
    | |- exists t, sequence ?l = Ok t /\ _ =>
        destruct (sequence_ok (fun e => box_inside w h (box e)) l)
          as (table & Ht & _ & Hall)
    end.
    - repeat (apply Forall_cons;
              [apply region_inside;
               [vm_compute; reflexivity ..|lia|lia|exact Hw|exact Hh]|]).
      apply Forall_nil.
    - now exists table. }
  destruct Hex as (table & Htab & Hall). exists table.
  split; [exact Htab|]. split; [|exact Hall].
  exact (define_ui_regions_names _ _ _ Htab).
Qed.

Lemma define_ui_regions_inside_witness :
  exists table,
    define_ui_regions 12917 3750 = Ok table /\
    map name table = region_names /\
    Forall (fun e => box_inside 12917 3750 (box e)) table.
Proof.
  apply (define_ui_regions_inside 12917 3750); lia.
Defined.

(** * Further properties of the run as a whole *)

(** X14. The sprites [find_elements] saves are tight: running
    [autocrop_transparency] with the threshold 10 on a saved image returns
    that image. *)
Theorem saved_sprites_are_tight fs image_path output_dir padding img
    extracted saved fs' :
  image_open fs image_path = Ok img -> wf_image img = true ->
  find_elements fs image_path output_dir padding = Ok (extracted, saved, fs') ->
  Forall (fun s => autocrop_transparency (snd s) 10 = Ok (snd s)) saved.
Proof.
  intros Hopen Hwf H. apply find_elements_inv in H.
  destruct H as (img' & Hopen' & H). rewrite Hopen in Hopen'.
  injection Hopen' as <-.
  destruct H as [(_ & _ & -> & _)|(b & table & imgs & _ & _ & Hall & _ & -> & _)];
    [constructor|].
  destruct (ensure_RGBA_wf img Hwf) as (Hwf' & _).
  induction Hall as [|e c table imgs (sub & Hsub & Hc & _) _ IH];
    [constructor|].
  cbn [combine map fst snd]. constructor; [|exact IH].
  cbn [saved_of snd].
  destruct (padded_crop_size _ _ _ _ Hwf' Hsub) as [Hwfs _].
  destruct (autocrop_idempotent sub 10 Hwfs) as (c' & Hc' & _ & Hcc).
  rewrite Hc in Hc'. injection Hc' as <-. exact Hcc.
Qed.

Lemma saved_sprites_are_tight_witness :
  exists extracted saved fs',
    find_elements (single_file "sheet.png" (square_image 20 20 5 10))
                  "sheet.png" "out" 20 = Ok (extracted, saved, fs') /\
    Forall (fun s => autocrop_transparency (snd s) 10 = Ok (snd s)) saved.
Proof.
  eexists. eexists. eexists. split; [vm_compute; reflexivity|].
  eapply (saved_sprites_are_tight
            (single_file "sheet.png" (square_image 20 20 5 10))
            "sheet.png" "out" 20 (square_image 20 20 5 10)).
  - vm_compute. reflexivity.
  - vm_compute. reflexivity.
  - vm_compute. reflexivity.
Defined.

(** X15. Whenever [main] returns, the metadata names the input path it
    read ([argv[1]], or the default), [total] is the number of image files
    written, and each record's [file] is the output directory ([argv[2]],
    or the default) followed by the region's name and [.png]. *)
Theorem main_metadata_describes_run fs argv md saved :
  main fs argv = Ok (md, saved) ->
  source md = nth 1 argv default_input_path /\
  total md = Z.of_nat (length saved) /\
  map fst saved = map file (elements md) /\
  map file (elements md) =
    map (fun r => (dir_prefix (nth 2 argv default_output_dir)
                   ++ ex_name r ++ ".png")%string)
        (elements md).
Proof.
  rewrite main_unfold.
  destruct (find_elements fs (nth 1 argv default_input_path)
              (nth 2 argv default_output_dir) 20)
    as [[[ex sv] fs1]|e] eqn:Hfind; [|discriminate].
  cbn [bind]. destruct (open_w fs1 _ _); [|discriminate].
  cbn [bind]. intros H. injection H as <- <-. cbn [source total elements].
  apply find_elements_inv in Hfind.
  destruct Hfind
    as (img & _ & [(_ & -> & -> & _)
                  |(b & table & imgs & _ & Htab & Hall & -> & -> & _)]).
  - cbn [map length]. repeat split.
  - destruct (combine_Forall2 _ _ _ Hall) as [Hfst _].
    rewrite !length_map, !map_map.
    cbn [entry_of saved_of fst file ex_name]. repeat split.
    apply map_ext_in. intros (e & c) Hin. cbn [fst].
    apply path_join_relative.
    assert (Hn : In (name e) region_names).
    { rewrite <- (define_ui_regions_names _ _ _ Htab), <- Hfst.
      rewrite map_map. apply in_map_iff. now exists (e, c). }
    revert Hn. generalize (name e). apply Forall_forall.
    unfold region_names. repeat constructor.
Qed.

Lemma main_metadata_describes_run_witness :
  exists md saved,
    main (single_file "sheet.png" (square_image 20 20 5 10))
         ["prog"; "sheet.png"; "out/"]%string = Ok (md, saved) /\
    (source md = nth 1 ["prog"; "sheet.png"; "out/"]%string default_input_path /\
     total md = Z.of_nat (length saved) /\
     map fst saved = map file (elements md) /\
     map file (elements md) =
       map (fun r => (dir_prefix (nth 2 ["prog"; "sheet.png"; "out/"]%string
                                      default_output_dir)
                      ++ ex_name r ++ ".png")%string)
           (elements md)).
Proof.
  eexists. eexists. split; [vm_compute; reflexivity|].
  apply (main_metadata_describes_run
           (single_file "sheet.png" (square_image 20 20 5 10))
           ["prog"; "sheet.png"; "out/"]%string).
  vm_compute. reflexivity.
Defined.

(** The answers of the file system on some paths, as CPython and Pillow
    give them: the pixel limit of [Image.open], a missing input, the empty
    directory name, a file where the directory should be, and opening a
    file in a directory that is missing, that is a file, or that is
    there. *)
Example file_system_reference :
  MAX_IMAGE_PIXELS = 89478485 /\
  image_open (single_file "big.png"
                {| mode := RGBA; width := 20000; height := 8948;
                   pixels := [] |}) "big.png"
    = Raise DecompressionBombError /\
  image_open (single_file "sheet.png" (blank_image 5 4)) "other.png"
    = Raise FileNotFoundError /\
  os_makedirs (single_file "sheet.png" (blank_image 5 4)) ""
    = Raise FileNotFoundError /\
  os_makedirs (single_file "sheet.png" (blank_image 5 4)) "sheet.png"
    = Raise FileExistsError /\
  open_w (single_file "sheet.png" (blank_image 5 4)) "out" "out/metadata.json"
    = Raise FileNotFoundError /\
  open_w (single_file "sheet.png" (blank_image 5 4))
         "sheet.png" "sheet.png/metadata.json"
    = Raise NotADirectoryError /\
  open_w (mkdir (single_file "sheet.png" (blank_image 5 4)) "out")
         "out" "out/metadata.json" = Ok tt /\
  open_w (single_file "sheet.png" (blank_image 5 4)) "" "metadata.json"
    = Ok tt.
Proof. repeat split. Qed.


(** X18. On a sheet without visible pixel [find_elements] returns before
    the line that makes the output directory and leaves the file system
    as it was. [main] therefore writes its metadata, with no element and
    [total = 0], only into a directory that was there already (or into the
    current one): when the output directory is named and missing, [main]
    raises, with [FileNotFoundError] unless the system refuses the path
    for a reason of its own. *)
Theorem transparent_sheet_needs_directory fs argv img :
  image_open fs (nth 1 argv default_input_path) = Ok img ->
  wf_image img = true ->
  (forall x y, ~ visible (ensure_RGBA img) 10 x y) ->
  find_elements fs (nth 1 argv default_input_path)
                (nth 2 argv default_output_dir) 20 = Ok ([], [], fs) /\
  (forall md saved,
     main fs argv = Ok (md, saved) ->
     md = {| source := nth 1 argv default_input_path;
             elements := []; total := 0 |} /\
     saved = [] /\
     (nth 2 argv default_output_dir = ""%string \/
      stat fs (nth 2 argv default_output_dir) = Some Directory)) /\
  (nth 2 argv default_output_dir <> ""%string ->
   stat fs (nth 2 argv default_output_dir) = None ->
   exists e,
     main fs argv = Raise e /\
     (refuses fs (path_join (nth 2 argv default_output_dir) "metadata.json")
        = None -> e = FileNotFoundError)).
Proof.
  intros Hopen Hwf Hnone.
  destruct (find_elements_ok fs _ (nth 2 argv default_output_dir) 20 img
              Hopen Hwf ltac:(lia))
    as [(_ & Hfind)|((x & y & Hv) & _)]; [|now apply Hnone in Hv].
  split; [exact Hfind|]. rewrite main_unfold, Hfind. cbn [bind].
  unfold open_w. split.
  - intros md saved.
    destruct (refuses fs _); cbn [bind]; [discriminate|].
    destruct (String.eqb_spec (nth 2 argv default_output_dir) "") as [He|He].
    + destruct (stat fs (path_join _ _)) as [[| |]|]; cbn [bind];
        try discriminate; intros H; injection H as <- <-; auto.
    + destruct (stat fs (nth 2 argv default_output_dir)) as [[| |]|];
        cbn [bind]; try discriminate.
      destruct (stat fs (path_join _ _)) as [[| |]|]; cbn [bind];
        try discriminate; intros H; injection H as <- <-; auto.
  - intros Hd Hstat.
    destruct (refuses fs _) as [e|]; cbn [bind].
    + exists e. split; [reflexivity|discriminate].
    + destruct (String.eqb_spec (nth 2 argv default_output_dir) "");
        [contradiction|].
      rewrite Hstat. cbn [bind]. exists FileNotFoundError. auto.
Qed.

Lemma transparent_sheet_needs_directory_witness :
  find_elements (single_file "sheet.png" (blank_image 5 4))
                (nth 1 ["prog"; "sheet.png"; "out"]%string default_input_path)
                (nth 2 ["prog"; "sheet.png"; "out"]%string default_output_dir)
                20
    = Ok ([], [], single_file "sheet.png" (blank_image 5 4)) /\
  (forall md saved,
     main (single_file "sheet.png" (blank_image 5 4))
          ["prog"; "sheet.png"; "out"]%string = Ok (md, saved) ->
     md = {| source := nth 1 ["prog"; "sheet.png"; "out"]%string
                           default_input_path;
             elements := []; total := 0 |} /\
     saved = [] /\
     (nth 2 ["prog"; "sheet.png"; "out"]%string default_output_dir = ""%string
      \/
      stat (single_file "sheet.png" (blank_image 5 4))
           (nth 2 ["prog"; "sheet.png"; "out"]%string default_output_dir)
        = Some Directory)) /\
  (nth 2 ["prog"; "sheet.png"; "out"]%string default_output_dir <> ""%string ->
   stat (single_file "sheet.png" (blank_image 5 4))
        (nth 2 ["prog"; "sheet.png"; "out"]%string default_output_dir) = None ->
   exists e,
     main (single_file "sheet.png" (blank_image 5 4))
          ["prog"; "sheet.png"; "out"]%string = Raise e /\
     (refuses (single_file "sheet.png" (blank_image 5 4))
              (path_join (nth 2 ["prog"; "sheet.png"; "out"]%string
                              default_output_dir) "metadata.json")
        = None -> e = FileNotFoundError)).
Proof.
  apply (transparent_sheet_needs_directory
           (single_file "sheet.png" (blank_image 5 4))
           ["prog"; "sheet.png"; "out"]%string (blank_image 5 4)).
  - vm_compute. reflexivity.
  - vm_compute. reflexivity.
  - apply not_visible_iff. intros x y _ _.
    change (ensure_RGBA (blank_image 5 4)) with (blank_image 5 4).
    rewrite blank_alpha. lia.
Defined.



(** * [categorize_sprite_name] *)

Lemma prefix_occurs k s :
  String.prefix k s = true <-> exists after, s = (k ++ after)%string.
Proof.
  revert s. induction k as [|c k IH]; intros s.
  - split; [intros _; now exists s|intros _; now destruct s].
  - destruct s as [|d s]; simpl.
    + split; [discriminate|intros (a & H); discriminate].
    + destruct (ascii_dec c d) as [->|Hcd].
      * rewrite IH. split; intros (a & H); exists a; [now rewrite H|].
        now injection H.
      * split; [discriminate|]. intros (a & H). injection H as H _.
        congruence.
Qed.

Lemma contains_occurs k s : contains k s = true <-> occurs k s.
Proof.
  unfold occurs. induction s as [|d s IH]; cbn [contains].
  - rewrite orb_false_r, prefix_occurs. split.
    + intros (a & H). now exists EmptyString, a.
    + intros ([|b bs] & a & H); [now exists a|discriminate].
  - rewrite orb_true_iff, prefix_occurs, IH. split.
    + intros [(a & H)|(b & a & H)].
      * now exists EmptyString, a.
      * exists (String d b), a. cbn. now rewrite H.
    + intros ([|b bs] & a & H).
      * left. now exists a.
      * right. cbn in H. injection H as _ H. now exists bs, a.
Qed.

Lemma lower_app a b : lower (a ++ b) = (lower a ++ lower b)%string.
Proof. induction a as [|c a IH]; cbn; [reflexivity|now rewrite IH]. Qed.

Lemma occurs_context k s a b : occurs k s -> occurs k (a ++ s ++ b).
Proof.
  intros (p & q & ->). exists (a ++ p)%string, (q ++ b)%string.
  now rewrite !append_assoc_s.
Qed.

(** What the two loops return on any table. *)
Lemma first_category_spec categories s :
  match first_category categories s with
  | Some c =>
      exists before keywords after keyword,
        categories = before ++ (c, keywords) :: after /\
        In keyword keywords /\ occurs keyword s /\
        forall c' kws' k', In (c', kws') before -> In k' kws' -> ~ occurs k' s
  | None =>
      forall c' kws' k', In (c', kws') categories -> In k' kws' -> ~ occurs k' s
  end.
Proof.
  induction categories as [|(c & kws) rest IH]; cbn [first_category].
  - intros c' kws' k' [].
  - destruct (existsb (fun keyword => contains keyword s) kws) eqn:Hex.
    + apply existsb_exists in Hex. destruct Hex as (k & Hk & Hc).
      exists [], kws, rest, k. repeat split; auto.
      now apply contains_occurs.
    + assert (Hno : forall k, In k kws -> ~ occurs k s).
      { intros k Hk Hocc. apply contains_occurs in Hocc.
        assert (existsb (fun keyword => contains keyword s) kws = true)
          by (apply existsb_exists; now exists k).
        congruence. }
      destruct (first_category rest s) as [c0|].
      * destruct IH as (before & kws0 & after & k0 & -> & Hk0 & Hocc & Hbefore).
        exists ((c, kws) :: before), kws0, after, k0. repeat split; auto.
        intros c' kws' k' [Heq|Hin] Hk'.
        -- injection Heq as <- <-. now apply Hno.
        -- now apply (Hbefore c' kws').
      * intros c' kws' k' [Heq|Hin] Hk'.
        -- injection Heq as <- <-. now apply Hno.
        -- now apply (IH c' kws').
Qed.

(** X16. [categorize_sprite_name] answers [misc] exactly when none of the
    21 keywords occurs in the lower-cased name; otherwise it answers the
    first category of [UI_CATEGORIES], in the order written, that has a
    keyword occurring in it. *)
Theorem categorize_first_match name :
  is_ascii name = true ->
  (categorize_sprite_name name = "misc"%string <->
   forall category keywords keyword,
     In (category, keywords) UI_CATEGORIES -> In keyword keywords ->
     ~ occurs keyword (lower name)) /\
  (categorize_sprite_name name <> "misc"%string ->
   exists before keywords after keyword,
     UI_CATEGORIES =
       before ++ (categorize_sprite_name name, keywords) :: after /\
     In keyword keywords /\ occurs keyword (lower name) /\
     forall c' kws' k', In (c', kws') before -> In k' kws' ->
                        ~ occurs k' (lower name)).
Proof.
  intros _. unfold categorize_sprite_name. cbv zeta.
  pose proof (first_category_spec UI_CATEGORIES (lower name)) as Hspec.
  destruct (first_category UI_CATEGORIES (lower name)) as [c|].
  - destruct Hspec as (before & kws & after & k & Heq & Hk & Hocc & Hbefore).
    assert (Hc : c <> "misc"%string).
    { intros ->. assert (Hin : In ("misc"%string, kws) UI_CATEGORIES)
        by (rewrite Heq; apply in_elt).
      unfold UI_CATEGORIES in Hin. cbn [In] in Hin.
      repeat (destruct Hin as [Hin|Hin]; [discriminate|]). exact Hin. }
    split.
    + split; [intros H; now apply Hc in H|].
      intros Hno. exfalso. apply (Hno c kws k); auto.
      rewrite Heq. apply in_elt.
    + intros _. now exists before, kws, after, k.
  - split; [|intros H; now elim H]. split; auto.
Qed.

Lemma categorize_first_match_witness :
  (categorize_sprite_name "Counter_Coins" = "misc"%string <->
   forall category keywords keyword,
     In (category, keywords) UI_CATEGORIES -> In keyword keywords ->
     ~ occurs keyword (lower "Counter_Coins")) /\
  (categorize_sprite_name "Counter_Coins" <> "misc"%string ->
   exists before keywords after keyword,
     UI_CATEGORIES =
       before ++ (categorize_sprite_name "Counter_Coins", keywords) :: after /\
     In keyword keywords /\ occurs keyword (lower "Counter_Coins") /\
     forall c' kws' k', In (c', kws') before -> In k' kws' ->
                        ~ occurs k' (lower "Counter_Coins")).
Proof.
  apply (categorize_first_match "Counter_Coins"). vm_compute. reflexivity.
Defined.

Lemma split_before {A} (x y : A) p1 q1 p2 q2 :
  p1 ++ x :: q1 = p2 ++ y :: q2 -> ~ In x p2 -> In y (p1 ++ [x]).
Proof.
  revert p2. induction p1 as [|a p1 IH]; intros [|b p2] Heq Hnot; cbn in *.
  - injection Heq as -> _. now left.
  - injection Heq as -> _. elim Hnot. now left.
  - injection Heq as -> _. now left.
  - injection Heq as -> Heq. right. apply (IH p2 Heq). tauto.
Qed.

(** X17. Text added before or after a name never makes it [misc] and
    never moves it to a later category: the extended name falls in the
    category of the name or in one written before it in [UI_CATEGORIES]. *)
Theorem categorize_context a name b :
  is_ascii (a ++ name ++ b) = true ->
  categorize_sprite_name name <> "misc"%string ->
  categorize_sprite_name (a ++ name ++ b) <> "misc"%string /\
  exists before keywords after,
    UI_CATEGORIES =
      before ++ (categorize_sprite_name name, keywords) :: after /\
    In (categorize_sprite_name (a ++ name ++ b))
       (map fst before ++ [categorize_sprite_name name]).
Proof.
  intros _. unfold categorize_sprite_name. cbv zeta.
  pose proof (first_category_spec UI_CATEGORIES (lower name)) as Hspec.
  destruct (first_category UI_CATEGORIES (lower name)) as [c|];
    [intros _|intros H; now elim H].
  destruct Hspec as (before & kws & after & k & Heq & Hk & Hocc & _).
  assert (Hocc' : occurs k (lower (a ++ name ++ b)))
    by (rewrite !lower_app; now apply occurs_context).
  pose proof (first_category_spec UI_CATEGORIES (lower (a ++ name ++ b)))
    as Hspec'.
  destruct (first_category UI_CATEGORIES (lower (a ++ name ++ b))) as [c'|].
  - destruct Hspec' as (before' & kws' & after' & k' & Heq' & _ & _ & Hbefore').
    assert (Hin : In (c', kws') (before ++ [(c, kws)])).
    { apply (split_before _ _ _ after before' after').
      - now rewrite <- Heq, <- Heq'.
      - intros Hin. now apply (Hbefore' c kws k Hin Hk). }
    split.
    + intros ->.
      assert (Hm : In ("misc"%string, kws') UI_CATEGORIES)
        by (rewrite Heq'; apply in_elt).
      unfold UI_CATEGORIES in Hm. cbn [In] in Hm.
      repeat (destruct Hm as [Hm|Hm]; [discriminate|]). exact Hm.
    + exists before, kws, after. split; [exact Heq|].
      apply (in_map fst) in Hin. now rewrite map_app in Hin.
  - exfalso. apply (Hspec' c kws k); auto. rewrite Heq. apply in_elt.
Qed.

Lemma categorize_context_witness :
  categorize_sprite_name ("ui_" ++ "Timer" ++ "_Button") <> "misc"%string /\
  exists before keywords after,
    UI_CATEGORIES =
      before ++ (categorize_sprite_name "Timer", keywords) :: after /\
    In (categorize_sprite_name ("ui_" ++ "Timer" ++ "_Button"))
       (map fst before ++ [categorize_sprite_name "Timer"]).
Proof.
  apply (categorize_context "ui_" "Timer" "_Button").
  - vm_compute. reflexivity.
  - vm_compute. discriminate.
Defined.

(** The table has six categories and 21 keywords. *)
Example UI_CATEGORIES_reference :
  map fst UI_CATEGORIES
  = ["buttons"; "panels"; "icons"; "badges"; "hud"; "text"]%string /\
  length (concat (map snd UI_CATEGORIES)) = 21%nat.
Proof. split; reflexivity. Qed.

(** Reference values, as CPython returns them. *)
Example categorize_reference :
  map categorize_sprite_name
      ["Counter_Coins"; "ui_Timer_Button"; "BTN"; "grass"; ""; "LEVELmenu";
       "aTITLEb"; "counter_timer"; "badge_level_24"]%string
  = ["icons"; "buttons"; "buttons"; "misc"; "misc"; "panels";
     "text"; "hud"; "badges"]%string.
Proof. vm_compute. reflexivity. Qed.
